(* ===== verification/_CoqProject ===== *)
-Q . S2P
Prelude.v
Transaction.v
JsRuntime.v
Coercion.v
Promises.v
Regex.v
Query.v
Predicates.v
Listing.v
PredicateSpec.v
Aggregation.v
Frontend.v
Request.v
Server.v
Url.v
View.v
Startup.v
