(* ===== verification/Prelude.v ===== *)
(** * A verification development for product_transaction

    The repository is a small MERN application.  [src/Backend/server.js]
    is an Express server over a MongoDB collection of sales transactions
    (the Mongoose model [Data]); [src/Frontend/src/App.jsx] is a React page
    that calls the server and renders a table, statistics, a bar chart and
    a pie chart.  The server has four read-only handlers:

    - [GET /transactions]: builds a Mongo filter from [searchText]
      ([$or] of two case-insensitive [$regex] conditions and a price
      equality on [parseFloat(searchText)]) and from [month]
      ([buildDateQuery]: [$expr] comparing [$month] of [dateOfSale] with
      the month index parsed by [new Date(`${month} 1, 2000`)]), merges
      the two fragments with the object spread [{...a, ...b}], counts the
      matches, fetches one page with [skip]/[limit], answers 404 on an
      empty page and otherwise the page with [Math.ceil(total/perPage)];
    - [GET /statistics]: sum of prices, count of sold and unsold items;
    - [GET /barchart]: ten [countDocuments] calls, one per price range
      [$gte min, $lt max+1], combined by [Promise.all];
    - [GET /piechart]: a [$group] by category.

    The React page fetches the four endpoints for the selected month
    (and page) whenever either changes, keeps the answers in its hooks,
    and filters the current page of transactions by the search box on
    the client; it never sends [searchText] or [perPage].

    ** Files, in dependency order

    - [Prelude] (this file): the result type of store calls with its
      bind notation, counting and summing over lists, bounded enumeration
      ([forall_range]), booleans on [Q], the tactics and the hint
      databases [txn] and [txn_rw].
    - [Transaction]: [DataSchema] (server.js 15-25) as the record [Data];
      [Module Calendar], the UTC calendar arithmetic behind [$month] of a
      [Date] stored as milliseconds; [Module MonthParse], the month-name
      parse of [new Date(`${month} 1, 2000`).getMonth()] (line 48) and
      the front end's [months] (App.jsx 8): V8's reading of a word of
      letters, and the class [LegacyDateParse] for its reading of any
      other string, a parameter of every later file.
    - [JsRuntime]: JavaScript numbers as [jsnum] (NaN, the infinities,
      finite values) with value equality as a setoid; [parseFloat]
      (line 65), [Math.ceil] of a division and [JSON.stringify] of a
      number (line 86), [String(n)] of an integer (line 136), and
      [includes] and [Number.prototype.toString] (App.jsx 131-133).
    - [Coercion]: the conversions of a query-string value: [ToNumber]
      (StringToNumber), which the arithmetic of [/transactions] and
      Mongoose's cast of [.limit] apply to [page] and [perPage] (lines
      57, 76, 86), and [parseInt] (84-85), with the round trip of
      [String(n)] through both.
    - [Promises]: [Promise.all] (line 131) over promises that settle in
      any order ([PromiseAll.settle]): one slot per promise, the first
      rejection wins, the combined promise fulfils when the last slot is
      filled; and its array-order reading [promise_all].
    - [Regex]: the PCRE subset [$regex] accepts (lines 63-64): a parser
      to a regular-expression syntax with its syntax errors, a search by
      Brzozowski derivatives with the [^]/[$] anchors, its declarative
      semantics and the correctness theorem; counted repetition
      [{n,m}] is expanded by the parser and proved to match the allowed
      numbers of copies.
    - [Query]: Mongo filter documents, the object spread [{...a, ...b}],
      the matching of a document, Mongoose's cast of a filter to the
      schema ([castable]: [castNumber] refuses [NaN]), the [$group]
      counter, and the store interface: [Class MongoStore] (operations)
      and [Class MongoStoreSpec] (what Mongoose and the collection
      promise), with [Collection] as an instance.
    - [Predicates]: [buildDateQuery] (45-52), the [searchQuery] of
      [/transactions] (59-68) and their merge (73-74).
    - [Listing]: the handler of [/transactions] (55-92) over any store
      satisfying [MongoStoreSpec], with its answers 200/404/500.
    - [PredicateSpec]: the abstract specification of a request's filter,
      the tagged predicate type [pred] (identity, month, search,
      conjunction) with its evaluation [eval], and the refinement
      theorem: [/transactions] answers the page of the records the
      spec's predicate accepts.
    - [Aggregation]: [/statistics] (96-118), [/barchart] (121-144) with
      [Promise.all], [/piechart] (147-163).
    - [Frontend]: App.jsx as a state machine: the hooks as [AppState],
      the user's actions and the arrival of answers as [event]s, the two
      [useEffect]s as [commit], the answers taken from the server model.
    - [Request]: [/transactions] on [req.query] as strings (lines 56-57,
      84-86), and the query string axios builds for the dashboard's
      [params: { month, page }] (App.jsx 44-49): the composition of the
      front end with the server.
    - [Server]: the Express application (lines 1-6, 55, 96, 121, 147):
      the [cors()] middleware around the router, Express's default
      route matching and final 404, [req.query] read from the pairs of
      the query string, and the HTTP requests axios makes for the
      dashboard; with the store down, the answers of the handlers'
      [catch] branches.
    - [Url]: the query string between the two: axios's serialization
      of [params] ([encodeURIComponent] with UTF-8, its six
      replacements, [key=value&...]) and Express's [qs.parse]
      ([decodeURIComponent], [+] as a space, the first [=]).
    - [View]: the JSX the page returns (App.jsx 146-249) as [render]:
      the search box and the month select with its options, the rows of
      the table with the image overlay, the pagination flags, the
      statistics lines and the two charts, read off an [AppState].
    - [Startup]: the process server.js runs (lines 1-12, 166-168) as a
      step function over the events that follow its top level: the port
      bound or not, [mongoose.connect] fulfilled or rejected, requests
      arriving, buffered queries timing out; Mongoose's buffering of the
      handlers' queries while the connection is made.

    ** What the theorems show

    - Listing: the page a 200 answer carries (the [perPage] matches after
      [(page-1)*perPage], [totalPages] the ceiling), the 404 exactly when
      the offset reaches the number of matches, the pages [1..totalPages]
      covering all matches once, and the error answers (page <= 0 gives a
      negative skip and 500, [perPage=0] gives every match and a [null]
      [totalPages], an invalid pattern gives 500, and a search text that
      starts no number gives [{ price: NaN }], which Mongoose refuses:
      500 for every such search).
    - Filters: the merged filter is the conjunction of its fragments;
      the month filter selects the calendar month in every year, a
      month V8 reads as an invalid date selects nothing; the search selects by
      case-insensitive substring for plain text (through the correctness
      of the regex search) and by numeric prefix through [parseFloat].
    - Aggregations: the sums and counts of [/statistics]; the ten bars
      classify each non-negative price into exactly one bucket, their
      counts add up to the matches with a non-negative price; the pie
      slices are the category counts in any [$group] order; the answer
      of [/barchart] is the same whatever order its ten [countDocuments]
      calls settle in.
    - Refinement: on every request where both are defined (a month name
      or none, a search text that is a numeral without metacharacters or
      none), [/transactions] answers the page of the records the spec's
      predicate for the request accepts.
    - Query strings: [String(n)] is read back as [n] by [ToNumber] and
      by [parseInt]; on the strings the dashboard sends, the string
      handler is exactly the integer handler the front end's model
      calls; in general it lists the page [ToNumber] reads and reports
      the page [parseInt] reads (["1e1"] lists page 10 as page 1); an
      empty [page] is 0 and answers 500.
    - Server: every response carries [Access-Control-Allow-Origin: *];
      each request the dashboard sends is answered exactly with the
      answer the front end's model takes from the handlers; an
      unmatched path is Express's 404; when the store cannot be reached
      each request of the dashboard is answered 500 with its route's
      message.
    - URL: axios's six replacements are the encoding of each character
      on its own; [qs] reads back every string axios writes; the request
      target of each fetch of the dashboard gives Express exactly the
      path and pairs of [Server.http_of], whatever the month string.
    - Process: in every state reachable by any order of events nothing
      is buffered once connected, the logs say what has happened, and
      every response sent is the application's answer on the database
      or a 500 of the unreachable store; opening the connection answers
      the buffered requests in arrival order; a rejected connection ends
      the process (its promise has no [catch]) and the buffered requests
      are never answered.  End to end, a connected process answers each
      fetch of the dashboard, sent as the URL axios builds, exactly as
      the front end's model takes the answer from the handlers.
    - Regex: the derivative search decides the declarative semantics;
      [{n}], [{n,}] and [{n,m}] match exactly the allowed numbers of
      copies of the repeated piece.
    - Calendar: days-to-civil and civil-to-days are inverse, [$month] of
      any instant of a valid date is its month.
    - Front end: every reachable state is well formed (the month one of
      the options, the page >= 1, the requests in flight of that kind,
      each chart with one value per label, the table within the page);
      the table is always the current page filtered by the search text;
      the search never reaches the server; a month change keeps the page,
      so on a page past the new month's last one the listing is a 404 and
      the table keeps the previous month's rows under the new name;
      answer delivery terminates (each arrival consumes a request in
      flight); after a month change and the answers in the order sent,
      every part of the page shows the new month's 200 answers, and when
      the server fails them the previous month's figures stay; answers
      delivered in order leave the last successful table, and a late
      answer can show another month's sales.
    - View: hovering an image draws the overlay over exactly the rows
      showing that URL, and a click on it removes every overlay; the
      page of every reachable state shows a select value among its
      options, Previous disabled exactly on page 1, one row per shown
      transaction.

    ** Bounds and fuel

    The calendar lemmas are checked by enumeration over one 400-year
    Gregorian cycle (146097 days), which covers every day number since
    both conversions are periodic with that period.  The regex parser
    and the derivative search are structurally recursive and need no
    fuel.  [number_to_string] looks for at most 20 decimal places, which
    covers every price of the data (two places).  The front end's
    scheduler [drain] answers the requests in flight one by one; it runs
    exactly as many [Deliver 0] events as there are requests, which is
    enough since an answer never sends a request.

    ** Modelling choices

    - Prices are JavaScript numbers; they are modelled as exact
      rationals [Q].  Every comparison the code makes ([$gte], [$lt],
      equality with a parsed search term) is a comparison of values, so
      it is modelled with [Qle_bool]/[Qeq_bool], never with the
      structural equality of [Q].  Floating-point rounding of sums is not
      modelled.
    - Dates are the integer number of milliseconds since 1970-01-01 UTC
      that BSON stores; [$month] is the UTC month, computed with the
      days-to-civil algorithm on the proleptic Gregorian calendar.
    - [new Date(`${month} 1, 2000`)] is modelled as V8 reads a month
      that is one word of ASCII letters, the strings the drop-down sends:
      a word whose first three letters name a month is that month, any
      other word is an invalid date.  ECMAScript leaves other strings to
      implementation heuristics (V8 reads ["3 1, 2000"] as the 1st of
      March): their reading is the parameter [LegacyDateParse], and
      every theorem holds whatever it is.  The examples use the reading
      [legacy_invalid], which they never consult.
    - Mongoose casts the filter of [countDocuments] and [find] against
      the schema before it sends it, and refuses a [NaN] number with a
      [CastError]; aggregation pipelines are sent uncast.  The
      comparison inside [$expr] is taken uncast, as MongoDB evaluates
      it; the repository pins no Mongoose version, and releases that
      cast inside [$expr] would also refuse the [NaN] of an invalid
      month word (a 500 instead of an empty answer on the endpoints that
      count).
    - Strings are [String.string] (lists of ASCII characters); the case
      folding of the [i] regex option and of [toLowerCase] is modelled on
      ASCII letters.
    - The store is read-only for every handler, so a store is a value;
      an unreachable store fails every call.  [Promise.all] is modelled
      both by the order of its array, as the handlers read it, and by the
      order its promises settle in ([Promises]); the two agree.
    - A regex outside the modelled PCRE subset gives the answer
      [RUnmodelled], about which no theorem says anything.
    - The process is modelled on Node.js 15 or later, where an unhandled
      rejection ends the process, with Mongoose's defaults
      ([bufferCommands] on, a buffered query failing after
      [bufferTimeoutMS]); time is the order of the events, so either
      timeout may come first.

    ** Not modelled

    The HTTP exchange itself (sockets, headers other than the CORS
    one), the JSON body parser (no route reads a body), the content of
    the connection string, and [seedDatabase], which is commented out in
    the source and never runs; a connection lost after it opened (the
    model keeps it open); a UTF-8 sequence for a code point above
    U+00FF in the query string (characters are one byte); and a query key repeated or
    written with brackets, which Express turns into an array or an
    object (left open); a [page] or
    [perPage] that [ToNumber] does not read as an integer ([NaN],
    [Infinity], [2.5]) gives a skip or a limit whose reading by MongoDB
    the model leaves open ([RUnmodelled]); the drawing of the charts by
    Chart.js, which only receives [barChartData] and [pieChartData];
    [toLocaleDateString], which depends on the browser's locale and time
    zone; the CSS.  The regex component parses a PCRE subset: [(?...)]
    groups other than [(?:...)] (lookaround, inline options, named and
    atomic groups), possessive quantifiers and back-references are valid
    patterns it does not cover, and a request using one
    answers [RUnmodelled]. *)

From Stdlib Require Export ZArith QArith Qround Lqa Ascii String Lia.
From stdpp Require Export base list strings decidable.

Declare Scope txn_scope.
Delimit Scope txn_scope with txn.

(** ** Results of store calls and handlers *)

(** A Mongoose promise either resolves with a value or rejects with an
    error; the handlers turn a rejection into an HTTP 500. *)
Inductive result (A E : Type) : Type :=
| Ok (a : A)
| Err (e : E).
Arguments Ok {A E} _.
Arguments Err {A E} _.

Definition res_bind {A B E} (r : result A E) (k : A -> result B E) : result B E :=
  match r with
  | Ok a => k a
  | Err e => Err e
  end.

Definition res_map {A B E} (f : A -> B) (r : result A E) : result B E :=
  res_bind r (fun a => Ok (f a)).

Notation "x <- c ;; k" := (res_bind c (fun x => k))
  (at level 100, c at next level, right associativity) : txn_scope.

Lemma res_bind_Ok_inv {A B E} (c : result A E) (k : A -> result B E) b :
  res_bind c k = Ok b -> exists a, c = Ok a /\ k a = Ok b.
Proof. destruct c; simpl; [eauto | discriminate]. Qed.

Lemma res_bind_Err {A B E} (e : E) (k : A -> result B E) :
  res_bind (Err e) k = Err e.
Proof. reflexivity. Qed.

Lemma res_bind_Ok {A B E} (a : A) (k : A -> result B E) :
  res_bind (Ok a) k = k a.
Proof. reflexivity. Qed.

(** [has_value o] is [true] when [o] holds a value. *)
Definition has_value {A} (o : option A) : bool :=
  match o with Some _ => true | None => false end.

(** ** ASCII letters and case

    [toLowerCase], the [i] option of a regular expression and V8's date
    parser fold the case of letters; on one-byte characters only the
    ASCII letters have a case. *)
Definition is_upper (c : ascii) : bool :=
  (65 <=? nat_of_ascii c)%nat && (nat_of_ascii c <=? 90)%nat.

Definition is_letter (c : ascii) : bool :=
  is_upper c || ((97 <=? nat_of_ascii c)%nat && (nat_of_ascii c <=? 122)%nat).

Definition to_lower (c : ascii) : ascii :=
  if is_upper c then ascii_of_nat (nat_of_ascii c + 32) else c.

Fixpoint lower_string (s : string) : string :=
  match s with
  | EmptyString => EmptyString
  | String c s' => String (to_lower c) (lower_string s')
  end.

Lemma to_lower_idem c : to_lower (to_lower c) = to_lower c.
Proof. destruct c as [[] [] [] [] [] [] [] []]; reflexivity. Qed.

Lemma is_letter_to_lower c : is_letter (to_lower c) = is_letter c.
Proof. destruct c as [[] [] [] [] [] [] [] []]; reflexivity. Qed.

Lemma lower_string_idem s : lower_string (lower_string s) = lower_string s.
Proof. induction s as [|c s IH]; simpl; [done|]. by rewrite to_lower_idem, IH. Qed.

Lemma string_app_nil_r (s : string) : (s ++ "")%string = s.
Proof. induction s as [|c s IH]; [reflexivity|]. exact (f_equal (String c) IH). Qed.

Lemma string_app_nil_l (s : string) : ("" ++ s)%string = s.
Proof. reflexivity. Qed.

Lemma string_app_cons c (a b : string) : (String c a ++ b)%string = String c (a ++ b).
Proof. reflexivity. Qed.

Lemma string_app_assoc (a b c : string) : (a ++ (b ++ c))%string = ((a ++ b) ++ c)%string.
Proof. induction a as [|x a IH]; [reflexivity|]. exact (f_equal (String x) IH). Qed.

Lemma string_length_app (a b : string) : String.length (a ++ b) = (String.length a + String.length b)%nat.
Proof. induction a as [|x a IH]; [reflexivity|]. exact (f_equal S IH). Qed.

Lemma length_lower s : String.length (lower_string s) = String.length s.
Proof. induction s as [|c s IH]; simpl; [done|]. by rewrite IH. Qed.

(** ** Counting and summing over lists *)

(** [countb p l] is what [countDocuments] returns on a collection [l]
    for a filter whose test is [p]. *)
Definition countb {A} (p : A -> bool) (l : list A) : nat :=
  length (List.filter p l).

(** Sums of rationals, as the [$sum] accumulator computes them. *)
Definition qsum (l : list Q) : Q := fold_right Qplus 0%Q l.

Lemma countb_nil {A} (p : A -> bool) : countb p [] = 0%nat.
Proof. reflexivity. Qed.

Lemma countb_cons {A} (p : A -> bool) x l :
  countb p (x :: l) = ((if p x then 1 else 0) + countb p l)%nat.
Proof. unfold countb; simpl; destruct (p x); reflexivity. Qed.

Lemma countb_app {A} (p : A -> bool) l1 l2 :
  countb p (l1 ++ l2) = (countb p l1 + countb p l2)%nat.
Proof. unfold countb. by rewrite filter_app, length_app. Qed.

Lemma countb_ext {A} (p q : A -> bool) l :
  (forall x, In x l -> p x = q x) -> countb p l = countb q l.
Proof.
  intros H. induction l as [|x l IH]; [done|].
  rewrite !countb_cons, H by (left; done). rewrite IH; [done|].
  intros y Hy. apply H. by right.
Qed.

Lemma countb_le {A} (p : A -> bool) l : (countb p l <= length l)%nat.
Proof.
  induction l as [|x l IH]; [done|]. rewrite countb_cons. simpl.
  destruct (p x); lia.
Qed.

(** The two halves of a partition by [p] add up to the whole list. *)
Lemma countb_split {A} (p q : A -> bool) l :
  countb p l = (countb (fun x => p x && q x) l + countb (fun x => p x && negb (q x)) l)%nat.
Proof.
  induction l as [|x l IH]; [done|]. rewrite !countb_cons, IH.
  destruct (p x), (q x); simpl; lia.
Qed.

Lemma countb_true {A} (l : list A) : countb (fun _ => true) l = length l.
Proof. induction l as [|x l IH]; [done|]. rewrite countb_cons, IH. done. Qed.

Lemma countb_false {A} (l : list A) : countb (fun _ => false) l = 0%nat.
Proof. induction l as [|x l IH]; [done|]. by rewrite countb_cons, IH. Qed.

Lemma countb_filter {A} (p q : A -> bool) l :
  countb p (List.filter q l) = countb (fun x => q x && p x) l.
Proof.
  induction l as [|x l IH]; [done|]. simpl. rewrite countb_cons.
  destruct (q x); simpl; rewrite ?countb_cons, IH; done.
Qed.

Lemma countb_zero_iff {A} (p : A -> bool) l :
  countb p l = 0%nat <-> forall x, In x l -> p x = false.
Proof.
  induction l as [|x l IH]; simpl.
  - split; [intros _ y []|done].
  - rewrite countb_cons. destruct (p x) eqn:Hx; split.
    + lia.
    + intros H. by rewrite H in Hx by (left; done).
    + intros H y [<-|Hy]; [done|]. by apply IH.
    + intros H. apply IH. intros y Hy. apply H. by right.
Qed.

Lemma qsum_app l1 l2 : qsum (l1 ++ l2) == qsum l1 + qsum l2.
Proof.
  induction l1 as [|x l IH]; simpl.
  - ring.
  - rewrite IH. ring.
Qed.

Lemma countb_map {A B} (p : B -> bool) (f : A -> B) l :
  countb p (map f l) = countb (fun x => p (f x)) l.
Proof. induction l as [|x l IH]; [done|]. simpl. by rewrite !countb_cons, IH. Qed.

Lemma list_sum_map_plus {A} (f g : A -> nat) l :
  list_sum (map (fun x => f x + g x) l) = (list_sum (map f l) + list_sum (map g l))%nat.
Proof. induction l as [|x l IH]; simpl; lia. Qed.

Lemma list_sum_indicator {A} (p : A -> bool) l :
  list_sum (map (fun x => if p x then 1 else 0) l) = countb p l.
Proof. induction l as [|x l IH]; [done|]. by rewrite countb_cons; simpl; rewrite IH. Qed.

(** Counting by classes then adding the classes counts every element once
    per class it belongs to. *)
Lemma sum_countb_swap {A B} (P : B -> A -> bool) (ks : list B) (l : list A) :
  list_sum (map (fun k => countb (P k) l) ks) = list_sum (map (fun x => countb (fun k => P k x) ks) l).
Proof.
  induction l as [|x l IH]; simpl.
  - induction ks as [|k ks IHk]; simpl; [done|]. by rewrite IHk.
  - rewrite <- IH, <- list_sum_indicator, <- list_sum_map_plus. f_equal.
    apply map_ext. intros k. apply countb_cons.
Qed.

Lemma countb_seq_eq (j n : nat) :
  countb (fun k => bool_decide (j = k)) (seq 0 n) = if (j <? n)%nat then 1%nat else 0%nat.
Proof.
  induction n as [|n IH]; [done|]. rewrite seq_S, countb_app, IH, countb_cons, countb_nil.
  destruct (Nat.ltb_spec j n), (Nat.ltb_spec j (S n)), (Nat.eq_dec j n);
    (rewrite bool_decide_true by done) || (rewrite bool_decide_false by done); lia.
Qed.

Lemma map_fmap_eq {A B} (f : A -> B) l : map f l = f <$> l.
Proof. induction l as [|x l IH]; [done|]. simpl. by rewrite IH. Qed.

(** ** Windows of a list: [skip] then [limit] *)

Lemma length_firstn_skipn {A} (k o : nat) (l : list A) :
  length (firstn k (skipn o l)) = Nat.min k (length l - o).
Proof. by rewrite length_firstn, length_skipn. Qed.

(** ** Bounded enumeration

    [forall_from n lo f] tests [f] on the [n] integers from [lo]; a
    computation of it to [true] proves [f] on that whole range.  The
    calendar lemmas use it, through [forall_range], over one 400-year
    cycle of days. *)
Fixpoint forall_from (n : nat) (lo : Z) (f : Z -> bool) : bool :=
  match n with
  | O => true
  | S k => f lo && forall_from k (lo + 1)%Z f
  end.

Lemma forall_from_spec n lo f :
  forall_from n lo f = true -> forall k, (lo <= k < lo + Z.of_nat n)%Z -> f k = true.
Proof.
  revert lo. induction n as [|n IH]; intros lo H k Hk; simpl in *; [lia|].
  apply andb_true_iff in H as [H1 H2].
  destruct (Z.eq_dec k lo) as [->|Hne]; [done|].
  apply (IH (lo + 1)%Z); [done|lia].
Qed.

(** The integers of [[lo, hi)]: the bounds are integers, so that no large
    unary [nat] appears in a statement. *)
Definition forall_range (lo hi : Z) (f : Z -> bool) : bool :=
  forall_from (Z.to_nat (hi - lo)) lo f.

Lemma forall_range_spec lo hi f :
  forall_range lo hi f = true -> forall k, (lo <= k < hi)%Z -> f k = true.
Proof.
  unfold forall_range. intros H k Hk. apply (forall_from_spec _ _ _ H). lia.
Qed.

(** ** Booleans on rationals *)

Definition Qltb (x y : Q) : bool := negb (Qle_bool y x).

Lemma Qltb_iff x y : Qltb x y = true <-> (x < y)%Q.
Proof.
  unfold Qltb. rewrite negb_true_iff. split.
  - intros H. apply Qnot_le_lt. intros Hle. apply Qle_bool_iff in Hle. congruence.
  - intros H. destruct (Qle_bool y x) eqn:E; [|done].
    apply Qle_bool_iff in E. exfalso. apply (Qlt_not_le x y); done.
Qed.

Lemma Qle_bool_false x y : Qle_bool x y = false <-> (y < x)%Q.
Proof.
  split.
  - intros H. apply Qnot_le_lt. intros Hle. apply Qle_bool_iff in Hle. congruence.
  - intros H. destruct (Qle_bool x y) eqn:E; [|done].
    apply Qle_bool_iff in E. exfalso. apply (Qlt_not_le y x); done.
Qed.

Lemma Qeq_bool_false x y : Qeq_bool x y = false <-> ~ (x == y)%Q.
Proof.
  split.
  - intros H Heq. apply Qeq_bool_iff in Heq. congruence.
  - intros H. destruct (Qeq_bool x y) eqn:E; [|done].
    apply Qeq_bool_iff in E. contradiction.
Qed.

(** ** Tactics *)

Ltac invc H := inversion H; subst; clear H.

(** Turn the boolean comparisons of rationals in the context and in the
    goal into propositions, so that [lra] can use them. *)
Ltac qbool :=
  repeat match goal with
  | H : Qle_bool _ _ = true |- _ => apply Qle_bool_iff in H
  | H : Qle_bool _ _ = false |- _ => apply Qle_bool_false in H
  | H : Qltb _ _ = true |- _ => apply Qltb_iff in H
  | H : Qltb _ _ = false |- _ => unfold Qltb in H; apply negb_false_iff in H
  | H : Qeq_bool _ _ = true |- _ => apply Qeq_bool_iff in H
  | H : Qeq_bool _ _ = false |- _ => apply Qeq_bool_false in H
  | |- Qle_bool _ _ = true => apply Qle_bool_iff
  | |- Qle_bool _ _ = false => apply Qle_bool_false
  | |- Qltb _ _ = true => apply Qltb_iff
  | |- Qeq_bool _ _ = true => apply Qeq_bool_iff
  | |- Qeq_bool _ _ = false => apply Qeq_bool_false
  end.

(** Case analysis on every boolean comparison of rationals in the goal,
    then arithmetic. *)
Ltac qcases :=
  repeat match goal with
  | |- context [Qle_bool ?a ?b] => destruct (Qle_bool a b) eqn:?
  | |- context [Qltb ?a ?b] => destruct (Qltb a b) eqn:?
  | |- context [Qeq_bool ?a ?b] => destruct (Qeq_bool a b) eqn:?
  end; qbool.

Create HintDb txn.
Create Rewrite HintDb txn_rw.
#[export] Hint Rewrite @countb_app @countb_cons @countb_nil @countb_filter : txn_rw.
#[export] Hint Rewrite @res_bind_Ok @res_bind_Err : txn_rw.
#[export] Hint Resolve countb_le : txn.
