(* ===== verification/Transaction.v ===== *)
(** * Transaction: the schema of the [Data] model and the calendar of its dates

    The record [Data] is the Mongoose schema [DataSchema] of
    [src/Backend/server.js] (lines 15-25).  A [Date] field is stored by
    BSON as the signed number of milliseconds since 1970-01-01 UTC, and
    the aggregation operator [$month] that [buildDateQuery] applies to
    [dateOfSale] returns its UTC calendar month, 1 to 12.  [Calendar]
    computes that month with the days-to-civil conversion on the
    proleptic Gregorian calendar, proves the conversion a bijection
    between day numbers and valid dates, and derives that [$month] of a
    date is its month whatever the year.  [MonthParse] models the month
    index that [new Date(`${month} 1, 2000`).getMonth()] yields: V8's
    reading of a word of ASCII letters ([word_month]), and for any other
    string a reading left as the parameter [LegacyDateParse]. *)

From S2P Require Import Prelude.

Open Scope Z_scope.

(** ** The schema *)

(** [id] and [price] are [Number]s (integer identifiers, rational
    prices); [dateOfSale] is a [Date], kept as milliseconds since the
    epoch. *)
Record Data := mkData {
  id : Z;
  title : string;
  price : Q;
  description : string;
  category : string;
  image : string;
  sold : bool;
  dateOfSale : Z
}.

Module Calendar.

Definition ms_per_day : Z := 86400000.

Definition is_leap (y : Z) : bool :=
  ((y mod 4 =? 0) && negb (y mod 100 =? 0)) || (y mod 400 =? 0).

Definition days_in_month (y m : Z) : Z :=
  if m =? 2 then (if is_leap y then 29 else 28)
  else if (m =? 4) || (m =? 6) || (m =? 9) || (m =? 11) then 30
  else 31.

Definition valid_date (y m d : Z) : bool :=
  (1 <=? m) && (m <=? 12) && (1 <=? d) && (d <=? days_in_month y m).

(** Inside a 400-year era the conversion counts months from March, so
    that the leap day is the last day of the year. *)
Definition mp_of_month (m : Z) : Z := if 2 <? m then m - 3 else m + 9.
Definition month_of_mp (mp : Z) : Z := if mp <? 10 then mp + 3 else mp - 9.
Definition jan_feb (m : Z) : Z := if m <=? 2 then 1 else 0.

(** Day of the era of the [d]-th day of month [mp] of year [yoe]. *)
Definition doe_of (yoe mp d : Z) : Z :=
  yoe * 365 + yoe / 4 - yoe / 100 + (153 * mp + 2) / 5 + d - 1.

(** Year of the era, March-based month and day of a day of the era. *)
Definition of_doe (doe : Z) : Z * Z * Z :=
  let yoe := (doe - doe / 1460 + doe / 36524 - doe / 146096) / 365 in
  let doy := doe - (365 * yoe + yoe / 4 - yoe / 100) in
  let mp := (5 * doy + 2) / 153 in
  (yoe, mp, doy - (153 * mp + 2) / 5 + 1).

(** Day number (days since 1970-01-01) of a civil date. *)
Definition days_from_civil (y m d : Z) : Z :=
  let y' := y - jan_feb m in
  y' / 400 * 146097 + doe_of (y' mod 400) (mp_of_month m) d - 719468.

(** Civil date (year, month 1-12, day) of a day number. *)
Definition civil_from_days (z : Z) : Z * Z * Z :=
  let z' := z + 719468 in
  let '(yoe, mp, d) := of_doe (z' mod 146097) in
  let m := month_of_mp mp in
  (z' / 146097 * 400 + yoe + jan_feb m, m, d).

(** [{ $month: "$dateOfSale" }]: the UTC month of a date in milliseconds.
    [Z.div] rounds towards minus infinity, so dates before 1970 fall in
    the right day. *)
Definition month_of_date (ms : Z) : Z :=
  let '(_, m, _) := civil_from_days (ms / ms_per_day) in m.

(** The instant [t] milliseconds into the day [y]-[m]-[d] (UTC). *)
Definition date_of (y m d t : Z) : Z := days_from_civil y m d * ms_per_day + t.

(** The two finite facts the conversion rests on, one 400-year era each
    way: every day of the era decodes to a valid date that encodes back
    to it, and every valid date of the era encodes to a day of the era
    that decodes back to it.  The lemmas are stated on [forall_range]
    itself, so that using them never asks the kernel to unfold the
    enumeration. *)
Definition era_day_ok (doe : Z) : bool :=
  let '(yoe, mp, d) := of_doe doe in
  let m := month_of_mp mp in
  (0 <=? yoe) && (yoe <=? 399) && (0 <=? mp) && (mp <=? 11)
  && valid_date (yoe + jan_feb m) m d && (doe_of yoe mp d =? doe).

Definition era_date_ok (yoe m d : Z) : bool :=
  let doe := doe_of yoe (mp_of_month m) d in
  (0 <=? doe) && (doe <=? 146096) &&
  match of_doe doe with
  | (a, b, c) => (a =? yoe) && (b =? mp_of_month m) && (c =? d)
  end.

Definition era_month_ok (yoe m : Z) : bool :=
  forall_range 1 (days_in_month (yoe + jan_feb m) m + 1) (era_date_ok yoe m).

Definition era_year_ok (yoe : Z) : bool := forall_range 1 13 (era_month_ok yoe).

Lemma era_days_checked : forall_range 0 146097 era_day_ok = true.
Proof. vm_compute. reflexivity. Qed.

Lemma era_dates_checked : forall_range 0 400 era_year_ok = true.
Proof. vm_compute. reflexivity. Qed.

Lemma of_doe_spec doe :
  0 <= doe <= 146096 ->
  exists yoe mp d, of_doe doe = (yoe, mp, d) /\ 0 <= yoe <= 399 /\ 0 <= mp <= 11 /\
    valid_date (yoe + jan_feb (month_of_mp mp)) (month_of_mp mp) d = true /\
    doe_of yoe mp d = doe.
Proof.
  intros Hdoe.
  pose proof (forall_range_spec _ _ _ era_days_checked doe ltac:(lia)) as H.
  unfold era_day_ok in H. revert H. destruct (of_doe doe) as [[yoe mp] d]. intros H.
  exists yoe, mp, d. cbv beta iota zeta in H. repeat rewrite andb_true_iff in H. rewrite !Z.leb_le, Z.eqb_eq in H.
  destruct H as [[[[Hy Hmp1] Hmp2] Hv] Hd]. repeat split; done || lia.
Qed.

Lemma days_in_month_range y m : 28 <= days_in_month y m <= 31.
Proof. unfold days_in_month. repeat case_match; lia. Qed.

Lemma doe_of_spec yoe m d :
  0 <= yoe <= 399 -> valid_date (yoe + jan_feb m) m d = true ->
  0 <= doe_of yoe (mp_of_month m) d <= 146096 /\
  of_doe (doe_of yoe (mp_of_month m) d) = (yoe, mp_of_month m, d).
Proof.
  intros Hy Hv. unfold valid_date in Hv.
  repeat rewrite andb_true_iff in Hv. rewrite !Z.leb_le in Hv.
  pose proof (days_in_month_range (yoe + jan_feb m) m).
  pose proof (forall_range_spec _ _ _ era_dates_checked yoe ltac:(lia)) as H1.
  unfold era_year_ok in H1.
  pose proof (forall_range_spec _ _ _ H1 m ltac:(lia)) as H2. unfold era_month_ok in H2.
  pose proof (forall_range_spec _ _ _ H2 d ltac:(lia)) as H3.
  unfold era_date_ok in H3. cbv zeta in H3. revert H3. destruct (of_doe _) as [[a b] c]. intros H3.
  repeat rewrite andb_true_iff in H3. rewrite !Z.leb_le, !Z.eqb_eq in H3.
  destruct H3 as [[? ?] [[-> ->] ->]]. done.
Qed.

Lemma is_leap_mod y : is_leap (y mod 400) = is_leap y.
Proof.
  unfold is_leap. rewrite Z.mod_mod by lia.
  rewrite !Z.mod_mod_divide by (exists 100; lia) || (exists 4; lia).
  done.
Qed.

Lemma valid_date_mod y m d : valid_date (y mod 400) m d = valid_date y m d.
Proof. unfold valid_date, days_in_month. by rewrite is_leap_mod. Qed.

Lemma month_of_mp_of_month m : 1 <= m <= 12 -> month_of_mp (mp_of_month m) = m.
Proof. intros. unfold month_of_mp, mp_of_month. repeat case_match; lia. Qed.

Lemma mp_of_month_of_mp mp : 0 <= mp <= 11 -> mp_of_month (month_of_mp mp) = mp.
Proof. intros. unfold month_of_mp, mp_of_month. repeat case_match; lia. Qed.

Lemma valid_date_month y m d : valid_date y m d = true -> 1 <= m <= 12.
Proof. unfold valid_date. rewrite !andb_true_iff, !Z.leb_le. lia. Qed.

Lemma mod400_shift era x : (era * 400 + x) mod 400 = x mod 400.
Proof. rewrite Z.add_comm, Z.mod_add; lia. Qed.

(** Splitting [q * b + r] with [0 <= r < b] into quotient and remainder. *)
Lemma divmod_split q b r : 0 <= r < b -> (q * b + r) / b = q /\ (q * b + r) mod b = r.
Proof.
  intros Hr. split.
  - rewrite Z.div_add_l, Z.div_small; lia.
  - rewrite Z.add_comm, Z.mod_add, Z.mod_small; lia.
Qed.

Lemma civil_days_roundtrip y m d :
  valid_date y m d = true -> civil_from_days (days_from_civil y m d) = (y, m, d).
Proof.
  intros Hv. pose proof (valid_date_month _ _ _ Hv) as Hm.
  unfold days_from_civil, civil_from_days.
  set (y' := y - jan_feb m).
  assert (Hyoe : 0 <= y' mod 400 <= 399) by (pose proof (Z.mod_pos_bound y' 400); lia).
  assert (Hv' : valid_date (y' mod 400 + jan_feb m) m d = true).
  { rewrite <- valid_date_mod, Z.add_mod_idemp_l by lia.
    replace (y' + jan_feb m) with y by (unfold y'; lia). by rewrite valid_date_mod. }
  destruct (doe_of_spec _ _ _ Hyoe Hv') as [Hdoe Hof].
  set (doe := doe_of _ _ _) in *.
  replace (y' / 400 * 146097 + doe - 719468 + 719468) with (y' / 400 * 146097 + doe) by lia.
  destruct (divmod_split (y' / 400) 146097 doe ltac:(lia)) as [-> ->].
  rewrite Hof. cbv beta iota zeta. rewrite month_of_mp_of_month by done.
  pose proof (Z.div_mod y' 400 ltac:(lia)). f_equal. f_equal. unfold y' in *. lia.
Qed.

(** Decoding the day number of a valid
    date gives the date back. *)
Theorem civil_from_days_from_civil y m d :
  valid_date y m d = true -> civil_from_days (days_from_civil y m d) = (y, m, d).
Proof. apply civil_days_roundtrip. Qed.

(** Every day number decodes to a valid date whose day number is that
    number. *)
Lemma days_civil_roundtrip z :
  let '(y, m, d) := civil_from_days z in valid_date y m d = true /\ days_from_civil y m d = z.
Proof.
  unfold civil_from_days. set (z' := z + 719468).
  assert (Hdoe : 0 <= z' mod 146097 <= 146096) by (pose proof (Z.mod_pos_bound z' 146097); lia).
  destruct (of_doe_spec _ Hdoe) as (yoe & mp & d & Hof & Hy & Hmp & Hv & Hd).
  rewrite Hof. cbv beta iota zeta. set (m := month_of_mp mp). set (era := z' / 146097).
  split.
  - rewrite <- valid_date_mod in Hv |- *. rewrite <- Z.add_assoc, mod400_shift. done.
  - unfold days_from_civil.
    replace (era * 400 + yoe + jan_feb m - jan_feb m) with (era * 400 + yoe) by lia.
    destruct (divmod_split era 400 yoe ltac:(lia)) as [-> ->].
    unfold m. rewrite mp_of_month_of_mp, Hd by done.
    pose proof (Z.div_mod z' 146097 ltac:(lia)). unfold era, z' in *. lia.
Qed.

(** [$month] of any date is a month number,
    1 to 12. *)
Theorem month_of_date_range ms : 1 <= month_of_date ms <= 12.
Proof.
  unfold month_of_date. pose proof (days_civil_roundtrip (ms / ms_per_day)) as H.
  destruct (civil_from_days _) as [[y m] d]. destruct H as [Hv _].
  exact (valid_date_month _ _ _ Hv).
Qed.

Lemma month_of_date_of y m d t :
  valid_date y m d = true -> 0 <= t < ms_per_day -> month_of_date (date_of y m d t) = m.
Proof.
  intros Hv Ht. unfold month_of_date, date_of.
  destruct (divmod_split (days_from_civil y m d) ms_per_day t Ht) as [-> _].
  by rewrite civil_days_roundtrip.
Qed.

(** [$month] of any instant of a valid date
    [y]-[m]-[d] is [m], in every year: a month filter does not depend on
    the year. *)
Theorem month_of_date_date_of y m d t :
  valid_date y m d = true -> 0 <= t < ms_per_day -> month_of_date (date_of y m d t) = m.
Proof. apply month_of_date_of. Qed.

Lemma civil_from_days_from_civil_witness :
  valid_date 2024 2 29 = true /\ civil_from_days (days_from_civil 2024 2 29) = (2024, 2, 29).
Proof. split; [reflexivity | apply civil_from_days_from_civil; reflexivity]. Defined.

Lemma month_of_date_date_of_witness :
  valid_date 1999 3 31 = true /\ (0 <= 3600000 < ms_per_day) /\
  month_of_date (date_of 1999 3 31 3600000) = 3.
Proof.
  split; [reflexivity|]. split; [unfold ms_per_day; lia|].
  apply month_of_date_date_of; [reflexivity | unfold ms_per_day; lia].
Defined.

End Calendar.

(** ** The month index of [new Date(`${month} 1, 2000`)]

    V8's legacy date parser splits the string into words, numbers and
    punctuation.  A word is a month name when its first three letters,
    lower-cased, are the first three letters of an English month: longer
    words are accepted for month names only, so ["Mar"], ["march"] and
    ["Marzipan"] all name March.  The rest of the string, [" 1, 2000"],
    supplies the day and the year.  A word that names no month is
    ignored, the two numbers then read as month 1 and day 2000, and the
    date is invalid: [getMonth()] is [NaN].  The model covers month
    strings made of ASCII letters, which includes every value of the
    front end's drop-down; strings with digits, blanks or punctuation go
    through more of V8's parser and are not modelled (they are read as an
    invalid date here). *)
Module MonthParse.

(** The [months] array of [App.jsx], the values the drop-down sends. *)
Definition months : list string :=
  ["January"; "February"; "March"; "April"; "May"; "June"; "July";
   "August"; "September"; "October"; "November"; "December"].

Definition month_keywords : list string :=
  ["jan"; "feb"; "mar"; "apr"; "may"; "jun"; "jul"; "aug"; "sep"; "oct"; "nov"; "dec"].

Fixpoint all_letters (s : string) : bool :=
  match s with
  | EmptyString => true
  | String c s' => is_letter c && all_letters s'
  end.

Fixpoint index_of (k : string) (l : list string) : option Z :=
  match l with
  | [] => None
  | x :: l' => if String.eqb k x then Some 0 else option_map Z.succ (index_of k l')
  end.

(** V8's reading of [`${w} 1, 2000`] for a word [w] of ASCII letters
    (the legacy parser of [src/date/dateparser-inl.h]): a word whose
    three-letter prefix, in lower case, is a month keyword is that month
    (a word longer than its keyword is allowed for month names only);
    any other word is a garbage word, skipped before the first number,
    and the numbers [1, 2000] alone make no valid date. *)
Definition word_month (w : string) : option Z :=
  if (3 <=? String.length w)%nat then index_of (lower_string (substring 0 3 w)) month_keywords
  else None.

(** [new Date(s)] on a string outside ECMAScript's date format falls
    back on implementation heuristics; V8's reads numbers, signs, time
    zones and punctuation ([new Date("3 1, 2000")] is the 1st of March).
    The model covers the strings that are one word of ASCII letters,
    those the drop-down sends, and takes V8's reading of any other
    string as a parameter: the month index 0-11 it gives, or [None] for
    an invalid date.  Every theorem holds whatever that reading is. *)
Class LegacyDateParse := {
  legacy_month : string -> option Z;
  legacy_month_range s k : legacy_month s = Some k -> 0 <= k <= 11
}.

(** A reading that finds no month in a string that is not a word, for
    the examples, whose month strings are all words. *)
Definition legacy_invalid : LegacyDateParse.
Proof. refine {| legacy_month _ := None |}. done. Defined.

(** [getMonth()] of [new Date(`${month} 1, 2000`)]: [Some] index 0-11,
    or [None] for the [NaN] of an invalid date. *)
Definition month_index `{LegacyDateParse} (month : string) : option Z :=
  if all_letters month then word_month month else legacy_month month.

Lemma all_letters_lower s : all_letters (lower_string s) = all_letters s.
Proof. induction s as [|c s IH]; simpl; [done|]. by rewrite is_letter_to_lower, IH. Qed.

Lemma substring_lower n s : substring 0 n (lower_string s) = lower_string (substring 0 n s).
Proof.
  revert s. induction n as [|n IH]; intros [|c s]; simpl; try done. by rewrite IH.
Qed.

Lemma all_letters_substring n s : all_letters s = true -> all_letters (substring 0 n s) = true.
Proof.
  revert s. induction n as [|n IH]; intros [|c s]; simpl; try done.
  rewrite !andb_true_iff. intros [? ?]. split; [done|]. by apply IH.
Qed.

Lemma length_substring n s : (n <= String.length s)%nat -> String.length (substring 0 n s) = n.
Proof.
  revert s. induction n as [|n IH]; intros [|c s]; simpl; try (done || lia).
  intros Hle. rewrite IH; lia.
Qed.

Lemma substring_substring n s : substring 0 n (substring 0 n s) = substring 0 n s.
Proof.
  revert s. induction n as [|n IH]; intros [|c s]; simpl; try done. by rewrite IH.
Qed.

Lemma index_of_range k l i : index_of k l = Some i -> 0 <= i < Z.of_nat (length l).
Proof.
  revert i. induction l as [|x l IH]; intros i; simpl; [done|].
  destruct (String.eqb k x).
  - intros [= <-]. lia.
  - destruct (index_of k l) as [j|] eqn:E; simpl; [|done].
    intros [= <-]. specialize (IH j eq_refl). lia.
Qed.

Section Reading.

Context {LD : LegacyDateParse}.

Lemma month_index_nth i name :
  months !! i = Some name -> month_index name = Some (Z.of_nat i).
Proof.
  do 12 (destruct i as [|i]; [simpl; intros [= <-]; reflexivity|]). done.
Qed.

(** A month string that parses gives an index in
    [0, 11], so [monthIndex + 1] is a month number. *)
Theorem month_index_range s k : month_index s = Some k -> 0 <= k <= 11.
Proof.
  unfold month_index, word_month. destruct (all_letters s); [|apply legacy_month_range].
  destruct (_ <=? _)%nat; [|done]. intros Hk. apply index_of_range in Hk. simpl in Hk. lia.
Qed.


(** The month parse of a word ignores case: ["MARCH"], ["march"] and
    ["March"] select the same month. *)
Theorem month_index_lower s : all_letters s = true -> month_index (lower_string s) = month_index s.
Proof.
  intros Hl. unfold month_index, word_month. rewrite all_letters_lower, Hl, length_lower, substring_lower, lower_string_idem.
  done.
Qed.

(** Only the first three letters of a month word count: a word of at
    least three letters names the month its prefix names, so ["Mar"]
    and ["Marzipan"] both select March. *)
Theorem month_index_prefix s :
  all_letters s = true -> (3 <= String.length s)%nat ->
  month_index s = month_index (substring 0 3 s).
Proof.
  intros Hl Hn. unfold month_index, word_month.
  rewrite Hl, all_letters_substring, length_substring, substring_substring by done.
  destruct (String.length s) as [|[|[|n]]]; simpl; done || lia.
Qed.

End Reading.

End MonthParse.
