(* ===== verification/JsRuntime.v ===== *)
(** * JsRuntime: the JavaScript number functions the server calls

    [parseFloat(searchText)] (server.js line 65) turns the search text
    into the number the price branch of the [$or] compares with.  Per
    ECMAScript, [parseFloat] skips leading white space, then reads the
    longest prefix that is a [StrDecimalLiteral]: an optional sign, then
    [Infinity] or a decimal mantissa with an optional exponent.  Nothing
    after that prefix matters, so ["42abc"] gives [42]; a string with no
    such prefix gives [NaN].

    [Math.ceil(totalTransactions / perPage)] (line 86) is a division of
    numbers: by zero it is [Infinity] (or [NaN] for [0/0]).

    Numbers are modelled by [jsnum]: [NaN], a signed infinity, or a finite
    value as an exact rational; the rounding of a decimal to the nearest
    double and the overflow of huge exponents to [Infinity] are not
    modelled. *)

From S2P Require Import Prelude.
From Stdlib Require Import DecimalString.

Open Scope Z_scope.

Inductive jsnum : Type :=
| JNaN
| JInfinity (negative : bool)
| JFinite (q : Q).

(** Equality of numbers by value: finite numbers compare as rationals,
    so [JFinite (1#2)] and [JFinite (2#4)] are the same number.  It is
    coarser than [=] and is the equality Mongo applies to numbers. *)
Definition jsnum_equiv (a b : jsnum) : Prop :=
  match a, b with
  | JFinite x, JFinite y => (x == y)%Q
  | JNaN, JNaN => True
  | JInfinity s1, JInfinity s2 => s1 = s2
  | _, _ => False
  end.

Infix "≃" := jsnum_equiv (at level 70) : txn_scope.
Open Scope txn_scope.

#[export] Instance jsnum_equiv_Equivalence : Equivalence jsnum_equiv.
Proof.
  split.
  - intros []; simpl; done || reflexivity.
  - intros [] []; simpl; intros; done || by symmetry.
  - intros [|s1|x] [|s2|y] [|s3|z]; simpl; intros; try done.
    + congruence.
    + by transitivity y.
Qed.

Module ParseFloat.

(** StrWhiteSpaceChar on one-byte characters: TAB, LF, VT, FF, CR, SP
    and NBSP. *)
Definition is_js_space (c : ascii) : bool :=
  let n := nat_of_ascii c in
  ((9 <=? n) && (n <=? 13))%nat || (n =? 32)%nat || (n =? 160)%nat.

Fixpoint trim_start (s : string) : string :=
  match s with
  | String c s' => if is_js_space c then trim_start s' else s
  | EmptyString => EmptyString
  end.

Definition digit_value (c : ascii) : option Z :=
  let n := Z.of_nat (nat_of_ascii c) in
  if (48 <=? n) && (n <=? 57) then Some (n - 48) else None.

(** The maximal run of decimal digits at the head of [s], and the rest. *)
Fixpoint read_digits (s : string) : list Z * string :=
  match s with
  | String c s' =>
      match digit_value c with
      | Some d => let '(ds, r) := read_digits s' in (d :: ds, r)
      | None => ([], s)
      end
  | EmptyString => ([], EmptyString)
  end.

Definition digits_to_Z (ds : list Z) : Z := fold_left (fun acc d => acc * 10 + d) ds 0.

Definition read_sign (s : string) : Z * string :=
  match s with
  | String "+" s' => (1, s')
  | String "-" s' => (-1, s')
  | _ => (1, s)
  end.

Definition is_exponent_mark (c : ascii) : bool := (c =? "e")%char || (c =? "E")%char.

(** [ExponentPart]: [e] or [E], an optional sign, at least one digit.
    Without a digit the mark is not part of the literal. *)
Definition read_exponent (s : string) : option Z :=
  match s with
  | String c s' =>
      if is_exponent_mark c then
        let '(sg, s'') := read_sign s' in
        match read_digits s'' with
        | ([], _) => None
        | (ds, _) => Some (sg * digits_to_Z ds)
        end
      else None
  | EmptyString => None
  end.

(** Integer part, fractional part and the rest after them. *)
Definition read_mantissa (s : string) : list Z * list Z * string :=
  let '(ip, s1) := read_digits s in
  match s1 with
  | String "." s2 => let '(fp, s3) := read_digits s2 in (ip, fp, s3)
  | _ => (ip, [], s1)
  end.

Definition parseFloat (input : string) : jsnum :=
  let '(sg, s) := read_sign (trim_start input) in
  if String.prefix "Infinity" s then JInfinity (sg <? 0)
  else
    let '(ip, fp, rest) := read_mantissa s in
    match ip, fp with
    | [], [] => JNaN
    | _, _ =>
        let e := match read_exponent rest with Some e => e | None => 0 end in
        JFinite (inject_Z (sg * digits_to_Z (ip ++ fp)) * Qpower (inject_Z 10) (e - Z.of_nat (length fp)))
    end.

(** *** Lemmas on the reader *)

Definition digit_head (s : string) : bool :=
  match s with
  | String c _ => has_value (digit_value c)
  | EmptyString => false
  end.

Fixpoint all_digits (s : string) : bool :=
  match s with
  | String c s' => has_value (digit_value c) && all_digits s'
  | EmptyString => true
  end.

Fixpoint digit_values (s : string) : list Z :=
  match s with
  | String c s' => match digit_value c with Some d => d :: digit_values s' | None => [] end
  | EmptyString => []
  end.

Lemma read_digits_app ds rest :
  all_digits ds = true -> digit_head rest = false ->
  read_digits (ds ++ rest)%string = (digit_values ds, rest).
Proof.
  induction ds as [|c ds IH]; simpl.
  - intros _. destruct rest as [|c rest]; simpl; [done|].
    destruct (digit_value c); done.
  - destruct (digit_value c); simpl; [|done]. intros Hd Hr. by rewrite IH.
Qed.

(** A string that starts with a digit is its own trimmed, unsigned form
    and is no [Infinity]. *)
Lemma digit_start_prefix c s :
  digit_value c <> None ->
  trim_start (String c s) = String c s /\ read_sign (String c s) = (1, String c s) /\
  String.prefix "Infinity" (String c s) = false.
Proof. destruct c as [[] [] [] [] [] [] [] []]; cbv; done. Qed.

Lemma digit_values_nil ds : all_digits ds = true -> ds <> EmptyString -> digit_values ds <> [].
Proof.
  destruct ds as [|c ds]; simpl; [done|]. destruct (digit_value c); done.
Qed.

Lemma read_mantissa_int ds rest :
  all_digits ds = true -> digit_head rest = false -> (forall r, rest <> String "." r) ->
  read_mantissa (ds ++ rest)%string = (digit_values ds, [], rest).
Proof.
  intros Hd Hh Hdot. unfold read_mantissa. rewrite read_digits_app by done.
  destruct rest as [|c r]; [done|].
  destruct c as [[] [] [] [] [] [] [] []]; try done. by destruct (Hdot r).
Qed.

Lemma read_mantissa_frac ip fp rest :
  all_digits ip = true -> all_digits fp = true -> digit_head rest = false ->
  read_mantissa (ip ++ String "." (fp ++ rest))%string = (digit_values ip, digit_values fp, rest).
Proof.
  intros Hi Hf Hh. unfold read_mantissa. rewrite read_digits_app by done. simpl.
  by rewrite read_digits_app.
Qed.

Lemma parseFloat_digit_start c s :
  digit_value c <> None ->
  parseFloat (String c s) =
    let '(ip, fp, rest) := read_mantissa (String c s) in
    match ip, fp with
    | [], [] => JNaN
    | _, _ =>
        let e := match read_exponent rest with Some e => e | None => 0 end in
        JFinite (inject_Z (1 * digits_to_Z (ip ++ fp)) * Qpower (inject_Z 10) (e - Z.of_nat (length fp)))
    end.
Proof.
  intros Hc. unfold parseFloat. destruct (digit_start_prefix c s Hc) as (-> & -> & ->). done.
Qed.

(** A search text made of digits followed by
    anything that does not continue a number literal (no digit, no
    decimal point, no exponent) is read as the integer of its digits:
    ["42abc"] is [42]. *)
Theorem parseFloat_integer ds rest :
  all_digits ds = true -> ds <> EmptyString -> digit_head rest = false ->
  (forall r, rest <> String "." r) -> read_exponent rest = None ->
  parseFloat (ds ++ rest)%string ≃ JFinite (inject_Z (digits_to_Z (digit_values ds))).
Proof.
  intros Hd Hne Hh Hdot He.
  destruct ds as [|c ds']; [done|].
  assert (Hc : digit_value c <> None) by (simpl in Hd; destruct (digit_value c); done).
  change (String c ds' ++ rest)%string with (String c (ds' ++ rest)%string).
  rewrite parseFloat_digit_start by done.
  change (String c (ds' ++ rest)%string) with (String c ds' ++ rest)%string.
  rewrite read_mantissa_int, He by done.
  pose proof (digit_values_nil _ Hd Hne) as Hnil.
  destruct (digit_values (String c ds')) as [|d ds]; [done|]. simpl.
  rewrite app_nil_r, Z.mul_1_l, Qmult_1_r. reflexivity.
Qed.


(** Digits, a decimal point and digits, followed
    by anything that continues no number literal, are read as the decimal
    number they write: ["12.50 kg"] is [12.5]. *)
Theorem parseFloat_decimal ip fp rest :
  all_digits ip = true -> ip <> EmptyString -> all_digits fp = true ->
  digit_head rest = false -> read_exponent rest = None ->
  parseFloat (ip ++ String "." (fp ++ rest))%string ≃
    JFinite (inject_Z (digits_to_Z (digit_values ip ++ digit_values fp)) *
             Qpower (inject_Z 10) (- Z.of_nat (length (digit_values fp)))).
Proof.
  intros Hi Hne Hf Hh He.
  destruct ip as [|c ip']; [done|].
  assert (Hc : digit_value c <> None) by (simpl in Hi; destruct (digit_value c); done).
  change (String c ip' ++ String "." (fp ++ rest))%string with (String c (ip' ++ String "." (fp ++ rest))%string).
  rewrite parseFloat_digit_start by done.
  change (String c (ip' ++ String "." (fp ++ rest))%string) with (String c ip' ++ String "." (fp ++ rest))%string.
  rewrite read_mantissa_frac, He by done.
  pose proof (digit_values_nil _ Hi Hne) as Hnil.
  destruct (digit_values (String c ip')) as [|d ds]; [done|]. simpl.
  rewrite Z.mul_1_l. reflexivity.
Qed.


(** A search text whose first non-blank character can
    start no number literal (not a digit, a point, a sign or the [I] of
    [Infinity]) is [NaN]: ["abc"] never yields a price. *)
Theorem parseFloat_NaN s c r :
  trim_start s = String c r -> digit_value c = None ->
  c <> "."%char -> c <> "+"%char -> c <> "-"%char -> c <> "I"%char ->
  parseFloat s = JNaN.
Proof.
  intros Ht Hd Hdot Hp Hm HI. unfold parseFloat. rewrite Ht.
  unfold read_mantissa.
  destruct c as [[] [] [] [] [] [] [] []]; try (cbv in Hd; discriminate); simpl in *; congruence.
Qed.


End ParseFloat.

(** [String(n)] of an integer-valued number: its decimal digits, with a
    minus sign when negative. *)
Definition int_to_string (z : Z) : string := NilZero.string_of_int (Z.to_int z).

Module MathCeil.

(** [Math.ceil(a / b)] for an integer count [a >= 0] and an integer [b]. *)
Definition ceil_div (a : nat) (b : Z) : jsnum :=
  if b =? 0 then (if (a =? 0)%nat then JNaN else JInfinity false)
  else JFinite (inject_Z (Qceiling (inject_Z (Z.of_nat a) / inject_Z b))).

(** The JSON text of a number: [JSON.stringify] writes [null] for [NaN]
    and the infinities. *)
Definition json_number (n : jsnum) : option Q :=
  match n with JFinite q => Some q | _ => None end.

Lemma ceil_neg_div a b : 0 < b -> - ((- a) / b) = (a + b - 1) / b.
Proof.
  intros Hb. pose proof (Z.div_mod (- a) b ltac:(lia)). pose proof (Z.mod_pos_bound (- a) b Hb).
  apply (Z.div_unique _ _ _ (b - 1 - (- a) mod b)); [lia | nia].
Qed.

(** For a positive divisor, [Math.ceil] of the
    floating division is the integer ceiling division
    [(a + b - 1) / b]. *)
Theorem ceil_div_pos a b :
  0 < b -> ceil_div a b = JFinite (inject_Z ((Z.of_nat a + b - 1) / b)).
Proof.
  intros Hb. unfold ceil_div. destruct b as [|p|p]; try lia. simpl.
  rewrite <- ceil_neg_div by lia. unfold Qceiling, Qfloor. simpl.
  by rewrite Z.mul_1_r.
Qed.


End MathCeil.

(** ** Strings: [includes] and [Number.prototype.toString] *)

Module JsString.

(** [s.includes(t)]: [t] occurs in [s] at some position. *)
Definition includes (s t : string) : bool := has_value (String.index 0 t s).

(** [includes] is the occurrence of [t] as a substring of [s]. *)
Lemma includes_spec s t :
  includes s t = true <-> exists i, substring i (String.length t) s = t.
Proof.
  unfold includes. destruct (String.index 0 t s) as [m|] eqn:E; simpl.
  - split; [intros _; exists m; by apply (index_correct1 0 m) | done].
  - split; [done|]. intros [i Hi]. exfalso.
    destruct t as [|c t'].
    + apply index_correct4 in E. lia.
    + apply (index_correct3 0 i _ _ E); [done | lia | done].
Qed.

Fixpoint zeros (n : nat) : string :=
  match n with O => EmptyString | S n' => String "0" (zeros n') end.

(** The least number of decimal places, from [k] on and below
    [k + fuel], at which [q] is an integer. *)
Fixpoint dec_places (fuel k : nat) (q : Q) : option nat :=
  match fuel with
  | O => None
  | S fuel' =>
      if (Qnum q * 10 ^ Z.of_nat k) mod Zpos (Qden q) =? 0 then Some k
      else dec_places fuel' (S k) q
  end.

(** [String(x)] for a number with a decimal expansion of at most 20
    places, below [1e21]: the sign, the integer part and, when there is
    one, the fractional part without trailing zeros.  A number that is
    not such a decimal is printed with its first 20 places, where
    JavaScript prints the shortest decimal that reads back as the same
    double. *)
Definition number_to_string (q : Q) : string :=
  let k := default 20%nat (dec_places 21 0 q) in
  let n := (Qnum q * 10 ^ Z.of_nat k) / Zpos (Qden q) in
  let a := Z.abs n in
  let frac := int_to_string (a mod 10 ^ Z.of_nat k) in
  ((if Z.ltb n 0 then "-" else "") ++ int_to_string (a / 10 ^ Z.of_nat k) ++
   match k with
   | O => ""
   | _ => "." ++ zeros (k - String.length frac) ++ frac
   end)%string.

End JsString.
