(* ===== verification/Coercion.v ===== *)
(** * Coercion: the numbers the handlers read from the query string

    Express hands the handlers [req.query] with every value a string.
    [/transactions] (server.js 56-57, 84-86) uses [page] and [perPage]
    in three ways:

    - [(page - 1) * perPage] and [totalTransactions / perPage] convert
      them with [ToNumber] (ECMAScript StringToNumber): the whole string,
      white space around it aside, must be a numeric literal, decimal
      with an optional sign and exponent, [Infinity], or a [0x]/[0o]/[0b]
      integer; an empty or blank string is [0]; anything else is [NaN];
    - [.limit(perPage)] receives the string, which Mongoose casts with
      [Number], the same conversion;
    - the answer reports [parseInt(page)] and [parseInt(perPage)]:
      [parseInt] skips leading white space, reads a sign, a [0x] prefix
      and then the longest run of digits, ignoring what follows, and is
      [NaN] without a digit.

    [StringToNumber.to_number] and [ParseInt.parse_int] model the two
    conversions on one-byte strings ([None] is [NaN] for [parse_int]).
    The theorems: both read back the integer that [String(n)] prints
    (the round trip the dashboard relies on when axios sends [page]),
    and they disagree on other spellings: ["1e1"] is [10] for one and
    [1] for the other. *)

From Stdlib Require Import DecimalString DecimalZ.
From Stdlib Require Qcanon.
From S2P Require Import Prelude JsRuntime.

Local Open Scope Z_scope.

(** ** Strings of digits *)

Module Digits.

Import ParseFloat.

(** A digit of base 2 to 36: [0-9], then the letters in either case. *)
Definition base_digit_value (c : ascii) : option Z :=
  let n := Z.of_nat (nat_of_ascii c) in
  if (48 <=? n) && (n <=? 57) then Some (n - 48)
  else if (97 <=? n) && (n <=? 122) then Some (n - 87)
  else if (65 <=? n) && (n <=? 90) then Some (n - 55)
  else None.

Definition digit_in (b : Z) (c : ascii) : option Z :=
  match base_digit_value c with
  | Some v => if v <? b then Some v else None
  | None => None
  end.

(** The maximal run of base-[b] digits at the head of [s], and the rest. *)
Fixpoint read_base_digits (b : Z) (s : string) : list Z * string :=
  match s with
  | String c s' =>
      match digit_in b c with
      | Some d => let '(ds, r) := read_base_digits b s' in (d :: ds, r)
      | None => ([], s)
      end
  | EmptyString => ([], EmptyString)
  end.

Definition digits_value (b : Z) (ds : list Z) : Z := fold_left (fun acc d => acc * b + d) ds 0.

(** The digits [String(n)] prints for a [Decimal.uint]. *)
Fixpoint uint_digits (d : Decimal.uint) : list Z :=
  match d with
  | Decimal.Nil => []
  | Decimal.D0 d => 0 :: uint_digits d
  | Decimal.D1 d => 1 :: uint_digits d
  | Decimal.D2 d => 2 :: uint_digits d
  | Decimal.D3 d => 3 :: uint_digits d
  | Decimal.D4 d => 4 :: uint_digits d
  | Decimal.D5 d => 5 :: uint_digits d
  | Decimal.D6 d => 6 :: uint_digits d
  | Decimal.D7 d => 7 :: uint_digits d
  | Decimal.D8 d => 8 :: uint_digits d
  | Decimal.D9 d => 9 :: uint_digits d
  end.

Lemma digit_in_10 c : digit_in 10 c = digit_value c.
Proof. destruct c as [[] [] [] [] [] [] [] []]; reflexivity. Qed.

Lemma read_base_digits_10 s : read_base_digits 10 s = read_digits s.
Proof.
  induction s as [|c s IH]; simpl; [done|]. rewrite digit_in_10.
  destruct (digit_value c); [by rewrite IH | done].
Qed.

Lemma digits_value_10 ds : digits_value 10 ds = digits_to_Z ds.
Proof. reflexivity. Qed.

Lemma of_uint_acc_digits d acc :
  Zpos (Pos.of_uint_acc d acc) = fold_left (fun a x => a * 10 + x) (uint_digits d) (Zpos acc).
Proof.
  revert acc. induction d as [|d IH|d IH|d IH|d IH|d IH|d IH|d IH|d IH|d IH|d IH]; intros acc;
    simpl; rewrite ?IH; f_equal; rewrite ?Pos2Z.inj_add, ?Pos2Z.inj_mul; lia.
Qed.

Lemma of_uint_digits d : Z.of_uint d = digits_to_Z (uint_digits d).
Proof.
  unfold Z.of_uint, digits_to_Z.
  induction d as [|d IH|d IH|d IH|d IH|d IH|d IH|d IH|d IH|d IH|d IH]; simpl;
    rewrite ?of_uint_acc_digits; try done.
Qed.

Lemma string_of_uint_digits d :
  all_digits (NilEmpty.string_of_uint d) = true /\
  digit_values (NilEmpty.string_of_uint d) = uint_digits d.
Proof.
  induction d as [|d IH|d IH|d IH|d IH|d IH|d IH|d IH|d IH|d IH|d IH]; simpl;
    try destruct IH as [-> ->]; done.
Qed.

(** [String(n)] of a [uint]: digits only, at least one, worth the
    number. *)
Lemma nilzero_digits d :
  let s := NilZero.string_of_uint d in
  all_digits s = true /\ s <> EmptyString /\ digits_to_Z (digit_values s) = Z.of_uint d.
Proof.
  destruct d; simpl; [done|..];
    destruct (string_of_uint_digits d) as [Ha Hv];
    rewrite ?Ha, ?Hv, of_uint_digits; done.
Qed.

(** A digit is neither white space nor the letter of a [0x], [0o] or
    [0b] prefix. *)
Lemma digit_char c :
  has_value (digit_value c) = true ->
  is_js_space c = false /\ ((c =? "x") || (c =? "X"))%char = false /\
  ((c =? "o") || (c =? "O"))%char = false /\ ((c =? "b") || (c =? "B"))%char = false.
Proof. intros H. destruct c as [[] [] [] [] [] [] [] []]; done. Qed.

Lemma all_digits_cons c s :
  all_digits (String c s) = true -> has_value (digit_value c) = true /\ all_digits s = true.
Proof. simpl. by intros [? ?]%andb_prop. Qed.

Lemma trim_start_digits s : all_digits s = true -> trim_start s = s.
Proof.
  destruct s as [|c s]; [done|]. intros [Hc _]%all_digits_cons.
  simpl. by rewrite (proj1 (digit_char c Hc)).
Qed.

Lemma read_sign_digits s : all_digits s = true -> read_sign s = (1, s).
Proof.
  destruct s as [|c s]; [done|]. intros [Hc _]%all_digits_cons.
  destruct c as [[] [] [] [] [] [] [] []]; done.
Qed.

Lemma read_digits_all s : all_digits s = true -> read_digits s = (digit_values s, EmptyString).
Proof.
  intros Hs. rewrite <- (string_app_nil_r s) at 1. by apply read_digits_app.
Qed.

End Digits.

(** ** [ToNumber] of a string *)

Module StringToNumber.

Import ParseFloat Digits.

Fixpoint trim_end (s : string) : string :=
  match s with
  | EmptyString => EmptyString
  | String c s' =>
      let r := trim_end s' in
      if is_js_space c && String.eqb r "" then EmptyString else String c r
  end.

(** StringToNumber ignores white space on both sides. *)
Definition trim (s : string) : string := trim_end (trim_start s).

(** [ExponentPart] and what follows it. *)
Definition read_exponent_rest (s : string) : option (Z * string) :=
  match s with
  | String c s' =>
      if is_exponent_mark c then
        let '(sg, s'') := read_sign s' in
        match read_digits s'' with
        | ([], _) => None
        | (ds, r) => Some (sg * digits_to_Z ds, r)
        end
      else None
  | EmptyString => None
  end.

(** The value of a decimal literal with digits [ip . fp] and exponent [e]. *)
Definition mantissa_value (ip fp : list Z) (e : Z) : Q :=
  inject_Z (digits_to_Z (ip ++ fp)) * Qpower (inject_Z 10) (e - Z.of_nat (length fp)).

(** [StrUnsignedDecimalLiteral] other than [Infinity], spanning all of [s]. *)
Definition unsigned_decimal (s : string) : option Q :=
  let '(ip, fp, rest) := read_mantissa s in
  match ip, fp with
  | [], [] => None
  | _, _ =>
      match rest with
      | EmptyString => Some (mantissa_value ip fp 0)
      | _ =>
          match read_exponent_rest rest with
          | Some (e, EmptyString) => Some (mantissa_value ip fp e)
          | _ => None
          end
      end
  end.

(** [NonDecimalIntegerLiteral]: [0x], [0o] or [0b] in either case, then
    at least one digit of that base and nothing else. *)
Definition non_decimal (s : string) : option Z :=
  match s with
  | String "0" (String c rest) =>
      let base := if (c =? "x")%char || (c =? "X")%char then 16
                  else if (c =? "o")%char || (c =? "O")%char then 8
                  else if (c =? "b")%char || (c =? "B")%char then 2
                  else 0 in
      if base =? 0 then None
      else
        match read_base_digits base rest with
        | (d :: ds, EmptyString) => Some (digits_value base (d :: ds))
        | _ => None
        end
  | _ => None
  end.

Definition to_number (str : string) : jsnum :=
  let s := trim str in
  match s with
  | EmptyString => JFinite 0
  | _ =>
      match non_decimal s with
      | Some z => JFinite (inject_Z z)
      | None =>
          let '(sg, u) := read_sign s in
          if String.eqb u "Infinity" then JInfinity (sg <? 0)
          else
            match unsigned_decimal u with
            | Some q => JFinite (inject_Z sg * q)
            | None => JNaN
            end
      end
  end.

(** The integer a number is, if it is one. *)
Definition as_integer (n : jsnum) : option Z :=
  match n with
  | JFinite q => if (Zpos (Qden (Qred q)) =? 1) then Some (Qnum (Qred q)) else None
  | _ => None
  end.

Lemma trim_end_digits s : all_digits s = true -> trim_end s = s.
Proof.
  induction s as [|c s IH]; [done|]. intros [Hc Hs]%all_digits_cons.
  simpl. by rewrite IH, (proj1 (digit_char c Hc)).
Qed.

Lemma non_decimal_digits s : all_digits s = true -> non_decimal s = None.
Proof.
  destruct s as [|c0 s]; [done|]. intros [_ Hs]%all_digits_cons.
  destruct c0 as [[] [] [] [] [] [] [] []]; try done.
  destruct s as [|c1 s]; [done|]. apply all_digits_cons in Hs as [Hc1 _].
  destruct (digit_char c1 Hc1) as (_ & Hx & Ho & Hb). simpl. by rewrite Hx, Ho, Hb.
Qed.

(** A string of digits is the decimal literal of its digits. *)
Lemma unsigned_decimal_digits s :
  all_digits s = true -> s <> EmptyString ->
  unsigned_decimal s = Some (mantissa_value (digit_values s) [] 0).
Proof.
  intros Hs Hne. unfold unsigned_decimal.
  rewrite <- (string_app_nil_r s) at 1. rewrite read_mantissa_int by (done || by intros r).
  pose proof (digit_values_nil s Hs Hne). by destruct (digit_values s).
Qed.

Lemma infinity_not_digits s : all_digits s = true -> String.eqb s "Infinity" = false.
Proof. intros Hs. destruct (String.eqb_spec s "Infinity") as [->|]; [discriminate | done]. Qed.

Lemma mantissa_value_int sg ds :
  (inject_Z sg * mantissa_value ds [] 0)%Q = inject_Z (sg * digits_to_Z ds).
Proof.
  unfold mantissa_value, Qmult, inject_Z. rewrite app_nil_r. simpl. f_equal. lia.
Qed.

(** A signed string of digits: [ToNumber] is its integer. *)
Lemma to_number_digits s (sg : bool) :
  all_digits s = true -> s <> EmptyString ->
  to_number (if sg then String "-" s else s) =
  JFinite (inject_Z ((if sg then -1 else 1) * digits_to_Z (digit_values s))).
Proof.
  intros Hs Hne. unfold to_number, trim.
  destruct sg.
  - simpl. rewrite trim_end_digits by done. simpl.
    by rewrite infinity_not_digits, unsigned_decimal_digits, mantissa_value_int.
  - rewrite trim_start_digits, trim_end_digits, non_decimal_digits, read_sign_digits by done.
    destruct s as [|c s']; [done|]. cbv zeta.
    by rewrite infinity_not_digits, unsigned_decimal_digits, mantissa_value_int.
Qed.

Lemma as_integer_inject_Z z : as_integer (JFinite (inject_Z z)) = Some z.
Proof.
  unfold as_integer. rewrite Qcanon.Qred_identity by (simpl; apply Z.gcd_1_r). done.
Qed.

End StringToNumber.

(** ** [parseInt] of a string, without radix *)

Module ParseInt.

Import ParseFloat Digits.

Definition parse_int (input : string) : option Z :=
  let '(sg, s1) := read_sign (trim_start input) in
  let '(base, s2) :=
    match s1 with
    | String "0" (String c r) => if (c =? "x")%char || (c =? "X")%char then (16, r) else (10, s1)
    | _ => (10, s1)
    end in
  match read_base_digits base s2 with
  | ([], _) => None
  | (ds, _) => Some (sg * digits_value base ds)
  end.

Lemma parse_int_digits s (sg : bool) :
  all_digits s = true -> s <> EmptyString ->
  parse_int (if sg then String "-" s else s) = Some ((if sg then -1 else 1) * digits_to_Z (digit_values s)).
Proof.
  intros Hs Hne. unfold parse_int.
  assert (Hb : match s with
               | String "0" (String c r) => if (c =? "x")%char || (c =? "X")%char then (16, r) else (10, s)
               | _ => (10, s)
               end = (10, s)).
  { destruct s as [|c0 s']; [done|]. apply all_digits_cons in Hs as [_ Hs'].
    destruct c0 as [[] [] [] [] [] [] [] []]; try done.
    destruct s' as [|c1 r]; [done|]. apply all_digits_cons in Hs' as [Hc1 _].
    by rewrite (proj1 (proj2 (digit_char c1 Hc1))). }
  destruct sg; [simpl | rewrite trim_start_digits, read_sign_digits by done]; rewrite Hb;
    rewrite read_base_digits_10, read_digits_all by done;
    pose proof (digit_values_nil s Hs Hne); by destruct (digit_values s).
Qed.

End ParseInt.

(** ** [String(n)] read back *)

Lemma int_to_string_cases z :
  exists u, Z.of_uint u = Z.abs z /\
            int_to_string z = if (z <? 0) then String "-" (NilZero.string_of_uint u) else NilZero.string_of_uint u.
Proof.
  pose proof (DecimalZ.of_to z) as E. unfold int_to_string.
  destruct z as [|p|p]; [exists (Decimal.D0 Decimal.Nil) | exists (Pos.to_uint p) | exists (Pos.to_uint p)];
    cbn [Z.to_int Z.of_int] in E; (split; [|reflexivity]); simpl Z.abs; lia.
Qed.

Lemma int_to_string_read z :
  StringToNumber.to_number (int_to_string z) = JFinite (inject_Z z) /\
  ParseInt.parse_int (int_to_string z) = Some z.
Proof.
  destruct (int_to_string_cases z) as (u & Hu & ->).
  destruct (Digits.nilzero_digits u) as (Hs & Hne & Hv).
  rewrite StringToNumber.to_number_digits, ParseInt.parse_int_digits, Hv, Hu by done.
  destruct (Z.ltb_spec z 0); split; do 2 f_equal; lia.
Qed.

(** A number printed by [String(n)], as
    axios prints the [page] of the dashboard into the query string, is
    read back as that number both by [ToNumber], which the handler's
    arithmetic and [.limit] apply, and by [parseInt], which the answer
    reports. *)
Theorem query_number_roundtrip z :
  StringToNumber.to_number (int_to_string z) = JFinite (inject_Z z) /\
  ParseInt.parse_int (int_to_string z) = Some z.
Proof. apply int_to_string_read. Qed.

(** The two readings part on other spellings of a number: an exponent
    ends [parseInt]'s digits, and [0b]/[0o] are no prefix for it. *)
Example to_number_parse_int_differ :
  StringToNumber.to_number "1e1" = JFinite 10 /\ ParseInt.parse_int "1e1" = Some 1 /\
  StringToNumber.to_number "0b10" = JFinite 2 /\ ParseInt.parse_int "0b10" = Some 0 /\
  StringToNumber.to_number " " = JFinite 0 /\ ParseInt.parse_int " " = None.
Proof. vm_compute. repeat split. Qed.
