(* ===== verification/Promises.v ===== *)
(** * Promises: [Promise.all] over promises that settle in any order

    [/barchart] (server.js 131-137) starts ten [countDocuments] calls at
    once and waits for them with [Promise.all].  The calls settle in an
    order the program does not control.  [Promise.all] keeps one slot per
    promise: a fulfilment fills its slot, and the combined promise
    fulfils with the slots, in the order of the array, as soon as the
    last one is filled; the first rejection rejects it, and later
    settlements are ignored.

    [settle] runs that protocol over the order in which the promises
    settle; [promise_all] is the array-order reading used by the
    handlers.  [settle_any_order] shows that they agree for every order
    when the rejections, if any, all carry the same reason, which is the
    case of the store calls of [/barchart]. *)

From S2P Require Import Prelude.

Module PromiseAll.

Section Settle.

Context {A E : Type}.

(** The results in the order of the promises, or the first rejection in
    that order. *)
Definition promise_all (rs : list (result A E)) : result (list A) E :=
  fold_right (fun r acc => res_bind r (fun a => res_map (cons a) acc)) (Ok []) rs.

(** The values of the slots, when every slot is filled. *)
Fixpoint all_some (slots : list (option A)) : option (list A) :=
  match slots with
  | [] => Some []
  | o :: slots' =>
      match o, all_some slots' with
      | Some a, Some vs => Some (a :: vs)
      | _, _ => None
      end
  end.

(** [settle rs slots order]: the promises of [rs] settle in the order
    [order] (their indices); [None] while the combined promise is still
    pending. *)
Fixpoint settle (rs : list (result A E)) (slots : list (option A)) (order : list nat)
    : option (result (list A) E) :=
  match order with
  | [] => None
  | i :: order' =>
      match rs !! i with
      | Some (Err e) => Some (Err e)
      | Some (Ok a) =>
          let slots' := <[i := Some a]> slots in
          match all_some slots' with
          | Some vs => Some (Ok vs)
          | None => settle rs slots' order'
          end
      | None => settle rs slots order'
      end
  end.

(** [Promise.all(rs)] when its promises settle in the order [order]; an
    empty array fulfils at once. *)
Definition promise_all_settled (rs : list (result A E)) (order : list nat) : option (result (list A) E) :=
  match rs with
  | [] => Some (Ok [])
  | _ => settle rs (replicate (length rs) None) order
  end.

(** ** The slots *)

Lemma all_some_map slots vs : all_some slots = Some vs -> slots = Some <$> vs.
Proof.
  revert vs. induction slots as [|o slots IH]; intros vs H; simpl in H.
  - by injection H as <-.
  - destruct o as [a|], (all_some slots) as [ws|] eqn:Hs; try discriminate.
    injection H as <-. simpl. f_equal. by apply IH.
Qed.

Lemma all_some_empty slots j : slots !! j = Some None -> all_some slots = None.
Proof.
  revert j. induction slots as [|o slots IH]; intros [|j] H; simpl in *; try discriminate.
  - by injection H as ->.
  - rewrite (IH j H). by destruct o.
Qed.

Lemma all_some_None slots : all_some slots = None -> exists j, slots !! j = Some None.
Proof.
  induction slots as [|o slots IH]; simpl; [discriminate|].
  destruct o as [a|]; [|intros _; by exists 0%nat].
  destruct (all_some slots); [discriminate|]. intros _.
  destruct IH as [j Hj]; [done|]. by exists (S j).
Qed.

(** Slots that are all filled with values that agree with [vs] hold
    exactly [vs]. *)
Lemma filled_slots (vs ws : list A) :
  length ws = length vs ->
  (forall j v, (Some <$> ws) !! j = Some (Some v) -> vs !! j = Some v) -> ws = vs.
Proof.
  intros Hlen Hagree. apply list_eq. intros j.
  destruct (ws !! j) as [w|] eqn:Hw.
  - symmetry. apply Hagree. by rewrite list_lookup_fmap, Hw.
  - apply lookup_ge_None in Hw. symmetry. apply lookup_ge_None. lia.
Qed.

Lemma lookup_insert_empty (slots : list (option A)) i a j :
  (<[i := Some a]> slots) !! j = Some None -> j <> i /\ slots !! j = Some None.
Proof.
  intros H. destruct (decide (j = i)) as [->|Hne].
  - exfalso. destruct (decide (i < length slots)%nat).
    + rewrite list_lookup_insert_eq in H by done. discriminate.
    + rewrite list_insert_ge, lookup_ge_None_2 in H by lia. discriminate.
  - by rewrite list_lookup_insert_ne in H.
Qed.

(** ** Every promise fulfils *)

Lemma settle_ok vs slots order :
  length slots = length vs ->
  (forall j v, slots !! j = Some (Some v) -> vs !! j = Some v) ->
  (forall j, slots !! j = Some None -> In j order) ->
  (exists j, slots !! j = Some None) ->
  settle (Ok <$> vs) slots order = Some (Ok vs).
Proof.
  revert slots. induction order as [|i order IH]; intros slots Hlen Hfill Hempty [j Hj].
  { by apply Hempty in Hj. }
  simpl. rewrite list_lookup_fmap. destruct (vs !! i) as [v|] eqn:Hv; simpl.
  - assert (Hfill' : forall k w, (<[i := Some v]> slots) !! k = Some (Some w) -> vs !! k = Some w).
    { intros k w Hk. destruct (decide (k = i)) as [->|Hne].
      - destruct (decide (i < length slots)%nat).
        + rewrite list_lookup_insert_eq in Hk by done. by injection Hk as <-.
        + rewrite list_insert_ge in Hk by lia. by apply Hfill.
      - rewrite list_lookup_insert_ne in Hk by done. by apply Hfill. }
    destruct (all_some (<[i := Some v]> slots)) as [ws|] eqn:Ha.
    + apply all_some_map in Ha. do 2 f_equal. apply filled_slots.
      * rewrite <- (length_fmap Some ws), <- Ha, length_insert. done.
      * rewrite <- Ha. exact Hfill'.
    + apply IH; [by rewrite length_insert | exact Hfill' | |by apply all_some_None].
      intros k Hk. apply lookup_insert_empty in Hk as [Hne Hk]. by destruct (Hempty k Hk).
  - apply IH; [done | done | |by exists j].
    intros k Hk. destruct (Hempty k Hk) as [<-|]; [|done]. exfalso.
    apply lookup_ge_None in Hv. apply lookup_lt_Some in Hk. lia.
Qed.

(** ** A promise rejects *)

Lemma settle_err rs e slots order :
  length slots = length rs ->
  (forall j e', rs !! j = Some (Err e') -> slots !! j = Some None) ->
  (exists j, rs !! j = Some (Err e) /\ In j order) ->
  (forall e', In (Err e') rs -> e' = e) ->
  settle rs slots order = Some (Err e).
Proof.
  revert slots. induction order as [|i order IH]; intros slots Hlen Herr [j [Hj Hin]] Hsame.
  { done. }
  simpl. destruct (rs !! i) as [[a|e']|] eqn:Hi.
  - assert (Hji : j <> i) by (intros ->; congruence).
    rewrite (all_some_empty _ j) by (rewrite list_lookup_insert_ne by done; by apply (Herr j e)).
    apply IH; [by rewrite length_insert | | |done].
    + intros k e'' Hk. rewrite list_lookup_insert_ne by (intros ->; congruence). by apply (Herr k e'').
    + exists j. split; [done|]. by destruct Hin as [->|].
  - f_equal. f_equal. apply Hsame. by apply list_elem_of_lookup_2 in Hi; apply list_elem_of_In.
  - apply IH; [done | done | |done].
    exists j. split; [done|]. destruct Hin as [->|]; [congruence | done].
Qed.

Lemma promise_all_fmap_Ok vs : promise_all (Ok <$> vs) = Ok vs.
Proof.
  unfold promise_all. induction vs as [|v vs IH]; [done|]. rewrite fmap_cons. simpl. by rewrite IH.
Qed.

Lemma promise_all_Err rs e :
  (exists j, rs !! j = Some (Err e)) -> (forall e', In (Err e') rs -> e' = e) ->
  promise_all rs = Err e.
Proof.
  induction rs as [|r rs IH]; intros [j Hj] Hsame; [done|]. simpl.
  destruct r as [a|e'].
  - destruct j as [|j]; [discriminate|]. simpl.
    rewrite IH; [done | by exists j | intros e'' H; apply Hsame; by right].
  - simpl. f_equal. apply Hsame. by left.
Qed.

Definition is_ok (r : result A E) : bool := match r with Ok _ => true | Err _ => false end.

Lemma all_ok_fmap (rs : list (result A E)) :
  forallb is_ok rs = true ->
  exists vs, rs = Ok <$> vs.
Proof.
  induction rs as [|[a|e] rs IH]; simpl; [by exists []| |discriminate].
  intros H. destruct (IH H) as [vs ->]. by exists (a :: vs).
Qed.

Lemma some_err (rs : list (result A E)) :
  forallb is_ok rs = false ->
  exists j e, rs !! j = Some (Err e).
Proof.
  induction rs as [|[a|e] rs IH]; simpl; [discriminate| |by exists 0%nat, e].
  intros H. destruct (IH H) as (j & e & Hj). by exists (S j), e.
Qed.

(** Whatever the order in which the promises settle, [Promise.all]
    gives the array-order result: the values in the order of the array
    when all fulfil, the common reason when some reject for the same
    reason. *)
Lemma settle_any_order rs order :
  order ≡ₚ seq 0 (length rs) ->
  (forall e e', In (Err e) rs -> In (Err e') rs -> e = e') ->
  promise_all_settled rs order = Some (promise_all rs).
Proof.
  intros Hperm Hsame.
  assert (Hin : forall j, (j < length rs)%nat -> In j order).
  { intros j Hj. apply (Permutation_in j (Permutation_sym Hperm)). apply in_seq. lia. }
  destruct rs as [|r0 rs0] eqn:Hrs; [done|].
  assert (Hpos : (0 < length rs)%nat) by (rewrite Hrs; simpl; lia).
  unfold promise_all_settled. cbn beta iota. rewrite <- Hrs in *. clear Hrs.
  destruct (forallb is_ok rs) eqn:Hok.
  - destruct (all_ok_fmap rs Hok) as [vs ->]. rewrite promise_all_fmap_Ok.
    rewrite length_fmap in Hin, Hpos |- *. apply settle_ok.
    + by rewrite length_replicate.
    + intros j v Hj. rewrite lookup_replicate in Hj. naive_solver.
    + intros j Hj. apply Hin. apply lookup_replicate in Hj. lia.
    + exists 0%nat. by apply lookup_replicate.
  - destruct (some_err rs Hok) as (j & e & Hj).
    assert (Hsame' : forall e', In (Err e') rs -> e' = e)
      by (intros e' He'; apply Hsame; [done | apply list_elem_of_In; by eapply list_elem_of_lookup_2]).
    rewrite (promise_all_Err rs e) by eauto. apply settle_err; [by rewrite length_replicate | | |done].
    + intros k e' Hk. apply lookup_replicate. split; [done|]. by apply lookup_lt_Some in Hk.
    + exists j. split; [done|]. apply Hin. by apply lookup_lt_Some in Hj.
Qed.

End Settle.

End PromiseAll.
