(* ===== verification/Regex.v ===== *)
(** * Regex: the pattern matching behind [{ $regex: searchText, $options: 'i' }]

    The listing handler (server.js lines 63-64) passes the user's search
    text to MongoDB as a PCRE pattern, not as a literal: [a.c] matches
    ["abc"], and a text that is not a valid pattern, such as ["("], makes
    the query fail.  [$regex] succeeds on a field when the pattern
    matches some substring of it ([RegExp.test] semantics).

    [parse_regex] reads the subset of PCRE syntax the model covers:
    literals, [.], [^], [$], groups ([(...)] and [(?:...)]), [|], the quantifiers [*], [+] and
    [?] (with a lazy [?] suffix, which does not change whether a match
    exists), bracket classes with ranges, negation and POSIX classes,
    and the escapes
    [\d \w \s \D \W \S \n \t \r \f] and escaped punctuation, and the counted
    quantifiers [{n}], [{n,}] and [{n,m}], which it expands into copies
    of the piece ([counted]); a [{] that starts no such quantifier is a
    literal, as in PCRE.  It returns [RxSyntax] where PCRE reports a
    compile error (unbalanced parentheses, an unterminated class, a
    quantifier with nothing to repeat or after another quantifier, a
    trailing backslash, a class range out of order or from a class
    escape such as [[\d-z]], a count above 65535
    or [{n,m}] with [m < n]) and [RxUnsupported] for valid PCRE the model
    does not cover ([(?...)] groups other than the non-capturing
    [(?:...)], which reads as a group, possessive quantifiers,
    back-references, other lettered escapes).  Inside a class it reads
    the POSIX classes [[:name:]] and [[:^name:]] of PCRE's fourteen names
    (ASCII tables; under [i], [lower] and [upper] read as [alpha]), and
    reports PCRE's errors around them: a POSIX class outside a class, a
    collating element [[.x.]] or [[=x=]], an unknown name, a range to or
    from a POSIX class; PCRE's lookahead [check_posix_syntax] decides
    when [[:] opens one, and a [[] it rejects is a literal.  The parser
    reads the pattern one character at a time with an explicit stack of
    open groups, so it is structurally recursive and total.

    [regex_test] decides a match with Brzozowski derivatives.  The
    anchors are zero-width: [^] holds at the start of the subject and
    [$] at its end or before a final newline, so [nullable] and [deriv]
    take the context of the current position.  With [icase] (the [i]
    option) letters compare without regard to case. *)

From S2P Require Import Prelude.

Module Regex.

(** The POSIX classes of PCRE, in the order of its table. *)
Inductive posix : Type :=
| PAlpha | PLower | PUpper | PAlnum | PAscii | PBlank | PCntrl
| PDigit | PGraph | PPrint | PPunct | PSpace | PWord | PXdigit.

Inductive class_item : Type :=
| CChar (c : ascii)
| CRange (lo hi : ascii)
| CDigit
| CWord
| CSpace
| CPosix (negated : bool) (p : posix).

Inductive regex : Type :=
| RVoid
| REps
| RChar (c : ascii)
| RAny
| RClass (negated : bool) (items : list class_item)
| RBol
| REol
| RCat (r1 r2 : regex)
| RAlt (r1 r2 : regex)
| RStar (r : regex).

Inductive regex_error : Type :=
| RxSyntax
| RxUnsupported.

(** ** Characters *)

Definition to_upper (c : ascii) : ascii :=
  if (97 <=? nat_of_ascii c)%nat && (nat_of_ascii c <=? 122)%nat
  then ascii_of_nat (nat_of_ascii c - 32) else c.

Definition in_range (lo hi c : ascii) : bool :=
  (nat_of_ascii lo <=? nat_of_ascii c)%nat && (nat_of_ascii c <=? nat_of_ascii hi)%nat.

Definition is_digit (c : ascii) : bool := in_range "0" "9" c.
Definition is_word (c : ascii) : bool := is_letter c || is_digit c || (c =? "_")%char.
Definition is_space (c : ascii) : bool :=
  ((9 <=? nat_of_ascii c) && (nat_of_ascii c <=? 13))%nat || (nat_of_ascii c =? 32)%nat.

(** PCRE's default character tables: ASCII only. *)
Definition posix_match (p : posix) (c : ascii) : bool :=
  let n := nat_of_ascii c in
  match p with
  | PAlpha => is_letter c
  | PLower => in_range "a" "z" c
  | PUpper => in_range "A" "Z" c
  | PAlnum => is_letter c || is_digit c
  | PAscii => (n <? 128)%nat
  | PBlank => (n =? 32)%nat || (n =? 9)%nat
  | PCntrl => (n <? 32)%nat || (n =? 127)%nat
  | PDigit => is_digit c
  | PGraph => (33 <=? n)%nat && (n <=? 126)%nat
  | PPrint => (32 <=? n)%nat && (n <=? 126)%nat
  | PPunct => (33 <=? n)%nat && (n <=? 126)%nat && negb (is_letter c || is_digit c)
  | PSpace => is_space c
  | PWord => is_word c
  | PXdigit => is_digit c || in_range "A" "F" c || in_range "a" "f" c
  end.

Definition posix_name (name : string) : option posix :=
  match name with
  | "alpha" => Some PAlpha | "lower" => Some PLower | "upper" => Some PUpper
  | "alnum" => Some PAlnum | "ascii" => Some PAscii | "blank" => Some PBlank
  | "cntrl" => Some PCntrl | "digit" => Some PDigit | "graph" => Some PGraph
  | "print" => Some PPrint | "punct" => Some PPunct | "space" => Some PSpace
  | "word" => Some PWord | "xdigit" => Some PXdigit
  | _ => None
  end%string.

(** Under the [i] option PCRE reads [[:lower:]] and [[:upper:]] as
    [[:alpha:]]. *)
Definition posix_fold (icase : bool) (p : posix) : posix :=
  match p with
  | PLower | PUpper => if icase then PAlpha else p
  | _ => p
  end.

Definition item_match (it : class_item) (c : ascii) : bool :=
  match it with
  | CChar d => (c =? d)%char
  | CRange lo hi => in_range lo hi c
  | CDigit => is_digit c
  | CWord => is_word c
  | CSpace => is_space c
  | CPosix neg p => xorb neg (posix_match p c)
  end.

(** Under the [i] option a character is in a class when it or its other
    case is; a POSIX class is taken as it is, after [posix_fold]. *)
Definition class_match (icase : bool) (items : list class_item) (c : ascii) : bool :=
  existsb (fun it =>
             match it with
             | CPosix neg p => xorb neg (posix_match (posix_fold icase p) c)
             | _ => item_match it c || (icase && (item_match it (to_lower c) || item_match it (to_upper c)))
             end) items.

Definition char_match (icase : bool) (d c : ascii) : bool :=
  if icase then (to_lower c =? to_lower d)%char else (c =? d)%char.

Definition newline : ascii := ascii_of_nat 10.

(** ** Parsing *)

(** The state of one open group: its finished alternatives, the pieces
    of the current alternative (last first), and whether the last piece
    was just quantified ([QJust]) or had its lazy suffix ([QLazy]). *)
Inductive qstate : Type := QNone | QJust | QLazy.

Record frame : Type := mkFrame {
  f_alts : list regex;
  f_seq : list regex;
  f_q : qstate
}.

Definition empty_frame : frame := mkFrame [] [] QNone.

Fixpoint seq_regex (ps : list regex) : regex :=
  match ps with
  | [] => REps
  | [p] => p
  | p :: ps' => RCat p (seq_regex ps')
  end.

Fixpoint alt_regex (rs : list regex) : regex :=
  match rs with
  | [] => RVoid
  | [r] => r
  | r :: rs' => RAlt r (alt_regex rs')
  end.

Definition close_frame (fr : frame) : regex :=
  alt_regex (rev (seq_regex (rev (f_seq fr)) :: f_alts fr)).

Definition push_piece (fr : frame) (p : regex) : frame :=
  mkFrame (f_alts fr) (p :: f_seq fr) QNone.

Definition new_alt (fr : frame) : frame :=
  mkFrame (seq_regex (rev (f_seq fr)) :: f_alts fr) [] QNone.

Definition is_anchor (r : regex) : bool :=
  match r with RBol | REol => true | _ => false end.

Definition apply_quant (q : ascii) (p : regex) : regex :=
  if (q =? "*")%char then RStar p
  else if (q =? "+")%char then RCat p (RStar p)
  else RAlt p REps.

(** A quantifier character [*], [+] or [?] after the pieces of [fr]. *)
Definition quantify (fr : frame) (q : ascii) : result frame regex_error :=
  match f_q fr with
  | QJust =>
      if (q =? "?")%char then Ok (mkFrame (f_alts fr) (f_seq fr) QLazy)
      else if (q =? "+")%char then Err RxUnsupported
      else Err RxSyntax
  | QLazy => Err RxSyntax
  | QNone =>
      match f_seq fr with
      | [] => Err RxSyntax
      | p :: ps =>
          if is_anchor p then Err RxUnsupported
          else Ok (mkFrame (f_alts fr) (apply_quant q p :: ps) QJust)
      end
  end.

Definition is_quantifier (c : ascii) : bool :=
  (c =? "*")%char || (c =? "+")%char || (c =? "?")%char.

Definition is_alnum (c : ascii) : bool := is_letter c || is_digit c.

(** An escape outside a class. *)
Definition escape (e : ascii) : result regex regex_error :=
  if (e =? "d")%char then Ok (RClass false [CDigit])
  else if (e =? "D")%char then Ok (RClass true [CDigit])
  else if (e =? "w")%char then Ok (RClass false [CWord])
  else if (e =? "W")%char then Ok (RClass true [CWord])
  else if (e =? "s")%char then Ok (RClass false [CSpace])
  else if (e =? "S")%char then Ok (RClass true [CSpace])
  else if (e =? "n")%char then Ok (RChar newline)
  else if (e =? "t")%char then Ok (RChar (ascii_of_nat 9))
  else if (e =? "r")%char then Ok (RChar (ascii_of_nat 13))
  else if (e =? "f")%char then Ok (RChar (ascii_of_nat 12))
  else if is_alnum e then Err RxUnsupported
  else Ok (RChar e).

(** An escape inside a class. *)
Definition class_escape (e : ascii) : result class_item regex_error :=
  if (e =? "d")%char then Ok CDigit
  else if (e =? "w")%char then Ok CWord
  else if (e =? "s")%char then Ok CSpace
  else if (e =? "n")%char then Ok (CChar newline)
  else if (e =? "t")%char then Ok (CChar (ascii_of_nat 9))
  else if (e =? "r")%char then Ok (CChar (ascii_of_nat 13))
  else if (e =? "f")%char then Ok (CChar (ascii_of_nat 12))
  else if is_alnum e then Err RxUnsupported
  else Ok (CChar e).

(** ** Counted repetition *)

(** The bounds of [{n}], [{n,}] and [{n,m}]. *)
Inductive bound : Type :=
| Exactly
| AtLeast
| UpTo (m : nat).

(** [r{n}] is [n] copies of [r]; [r{n,}] adds [r*]; [r{n,m}] adds
    [m - n] optional copies. *)
Definition counted (p : regex) (n : nat) (b : bound) : regex :=
  seq_regex (repeat p n ++ match b with
                           | Exactly => []
                           | AtLeast => [RStar p]
                           | UpTo m => repeat (RAlt p REps) (m - n)
                           end).

(** A [{] read outside a class: the frame before it, and the digits
    read since, those of the minimum and, after a comma, those of the
    maximum.  Until a [}] closes a valid quantifier these characters are
    literal pieces, as PCRE reads a [{] that starts no quantifier. *)
Record brace : Type := mkBrace {
  b_saved : frame;
  b_min : list Z;
  b_max : option (list Z)
}.

Definition nonempty {A} (l : list A) : bool := match l with [] => false | _ => true end.

Definition count_value (ds : list Z) : Z := fold_left (fun a d => (a * 10 + d)%Z) ds 0%Z.

(** PCRE's limits: each number at most 65535, and [n <= m]. *)
Definition count_bound (lo : list Z) (hi : option (list Z)) : result (nat * bound) regex_error :=
  let n := count_value lo in
  if (65535 <? n)%Z then Err RxSyntax
  else
    match hi with
    | None => Ok (Z.to_nat n, Exactly)
    | Some [] => Ok (Z.to_nat n, AtLeast)
    | Some ms =>
        let m := count_value ms in
        if (65535 <? m)%Z || (m <? n)%Z then Err RxSyntax else Ok (Z.to_nat n, UpTo (Z.to_nat m))
    end.

(** A counted quantifier after the pieces of [fr]; like [*] it needs a
    piece that is not already quantified. *)
Definition quantify_count (fr : frame) (n : nat) (b : bound) : result frame regex_error :=
  match f_q fr with
  | QJust | QLazy => Err RxSyntax
  | QNone =>
      match f_seq fr with
      | [] => Err RxSyntax
      | p :: ps =>
          if is_anchor p then Err RxUnsupported
          else Ok (mkFrame (f_alts fr) (counted p n b :: ps) QJust)
      end
  end.

(** A digit or a comma that continues an open [{]. *)
Definition brace_step (br : option brace) (c : ascii) : option brace :=
  match br with
  | Some b =>
      if is_digit c then
        let d := (Z.of_nat (nat_of_ascii c) - 48)%Z in
        match b_max b with
        | None => Some (mkBrace (b_saved b) (b_min b ++ [d]) None)
        | Some ms => Some (mkBrace (b_saved b) (b_min b) (Some (ms ++ [d])))
        end
      else if (c =? ",")%char && nonempty (b_min b) && negb (has_value (b_max b)) then
        Some (mkBrace (b_saved b) (b_min b) (Some []))
      else None
  | None => None
  end.

(** Any other character outside a class: the [}] that closes an open
    [{] with at least one digit, a quantifier, or a literal. *)
Definition plain_char (br : option brace) (fr : frame) (c : ascii) : result frame regex_error :=
  match br with
  | Some b =>
      if (c =? "}")%char && nonempty (b_min b) then
        res_bind (count_bound (b_min b) (b_max b)) (fun nb => quantify_count (b_saved b) (fst nb) (snd nb))
      else if is_quantifier c then quantify fr c
      else Ok (push_piece fr (RChar c))
  | None => if is_quantifier c then quantify fr c else Ok (push_piece fr (RChar c))
  end.

(** Outside a class (with the [{] being read, if any), inside a class
    (items last first; [first] while no item has been read, where [\]]
    is a literal), or after [lo-] inside a class.  A [-] after a class
    escape or a POSIX class is a literal before the closing [\]] and
    PCRE2's "invalid range" otherwise. *)
Inductive pmode : Type :=
| MNormal (br : option brace)
| MClass (negated : bool) (items : list class_item) (first : bool)
| MRange (negated : bool) (items : list class_item) (lo : ascii)
| MPosix (negated : bool) (items : list class_item) (pneg : bool) (name : list ascii).

(** A [[] followed by [:], [.] or [=] that PCRE takes for a POSIX class or
    a collating element. *)
Definition posix_start (t : ascii) : bool := (t =? ":")%char || (t =? ".")%char || (t =? "=")%char.

(** PCRE's [check_posix_syntax]: after the opening [t], the terminator
    [t\]] comes before any [\]] or [[t], an escaped [\]] or backslash
    skipped. *)
Fixpoint posix_syntax (t : ascii) (s : string) : bool :=
  match s with
  | String a s1 =>
      match s1 with
      | String b s2 =>
          if (a =? "\")%char && ((b =? "]")%char || (b =? "\")%char) then posix_syntax t s2
          else if ((a =? "[")%char && (b =? t)%char) || (a =? "]")%char then false
          else if (a =? t)%char && (b =? "]")%char then true
          else posix_syntax t s1
      | EmptyString => false
      end
  | EmptyString => false
  end.

Definition close_class (neg : bool) (items : list class_item) : regex :=
  RClass neg (rev items).

Fixpoint parse_go (fr : frame) (stack : list frame) (m : pmode) (s : string)
    : result regex regex_error :=
  match m with
  | MNormal br =>
      match s with
      | EmptyString =>
          match stack with
          | [] => Ok (close_frame fr)
          | _ => Err RxSyntax
          end
      | String "\" EmptyString => Err RxSyntax
      | String "\" (String e s') =>
          match escape e with
          | Ok p => parse_go (push_piece fr p) stack (MNormal None) s'
          | Err err => Err err
          end
      | String "(" (String "?" (String ":" s')) => parse_go empty_frame (fr :: stack) (MNormal None) s'
      | String "(" (String "?" _) => Err RxUnsupported
      | String "(" s' => parse_go empty_frame (fr :: stack) (MNormal None) s'
      | String ")" s' =>
          match stack with
          | [] => Err RxSyntax
          | parent :: stack' => parse_go (push_piece parent (close_frame fr)) stack' (MNormal None) s'
          end
      | String "|" s' => parse_go (new_alt fr) stack (MNormal None) s'
      | String "[" s1 =>
          match s1 with
          | String t s2 =>
              if posix_start t && posix_syntax t s2 then Err RxSyntax
              else if (t =? "^")%char then parse_go fr stack (MClass true [] true) s2
              else parse_go fr stack (MClass false [] true) s1
          | EmptyString => parse_go fr stack (MClass false [] true) s1
          end
      | String "{" s' => parse_go (push_piece fr (RChar "{")) stack (MNormal (Some (mkBrace fr [] None))) s'
      | String "." s' => parse_go (push_piece fr RAny) stack (MNormal None) s'
      | String "^" s' => parse_go (push_piece fr RBol) stack (MNormal None) s'
      | String "$" s' => parse_go (push_piece fr REol) stack (MNormal None) s'
      | String c s' =>
          match brace_step br c with
          | Some b' => parse_go (push_piece fr (RChar c)) stack (MNormal (Some b')) s'
          | None =>
              match plain_char br fr c with
              | Ok fr' => parse_go fr' stack (MNormal None) s'
              | Err err => Err err
              end
          end
      end
  | MClass neg items first =>
      match s with
      | EmptyString => Err RxSyntax
      | String "]" s' =>
          if first then parse_go fr stack (MClass neg (CChar "]" :: items) false) s'
          else parse_go (push_piece fr (close_class neg items)) stack (MNormal None) s'
      | String "[" s1 =>
          match s1 with
          | String t s2 =>
              if posix_start t && posix_syntax t s2 then
                if (t =? ":")%char then
                  match s2 with
                  | String "^" s3 => parse_go fr stack (MPosix neg items true []) s3
                  | _ => parse_go fr stack (MPosix neg items false []) s2
                  end
                else Err RxSyntax
              else parse_go fr stack (MClass neg (CChar "[" :: items) false) s1
          | EmptyString => parse_go fr stack (MClass neg (CChar "[" :: items) false) s1
          end
      | String "\" EmptyString => Err RxSyntax
      | String "\" (String e s') =>
          match class_escape e with
          | Ok it => parse_go fr stack (MClass neg (it :: items) false) s'
          | Err err => Err err
          end
      | String "-" s' =>
          match first, items with
          | false, CChar lo :: items' => parse_go fr stack (MRange neg items' lo) s'
          | false, (CDigit | CWord | CSpace | CPosix _ _) :: _ =>
              match s' with
              | String "]" _ | EmptyString => parse_go fr stack (MClass neg (CChar "-" :: items) false) s'
              | _ => Err RxSyntax
              end
          | _, _ => parse_go fr stack (MClass neg (CChar "-" :: items) false) s'
          end
      | String c s' => parse_go fr stack (MClass neg (CChar c :: items) false) s'
      end
  | MRange neg items lo =>
      match s with
      | EmptyString => Err RxSyntax
      | String "]" s' =>
          parse_go (push_piece fr (close_class neg (CChar "-" :: CChar lo :: items))) stack (MNormal None) s'
      | String "\" _ => Err RxUnsupported
      | String "[" s1 =>
          match s1 with
          | String t s2 =>
              if posix_start t && posix_syntax t s2 then Err RxSyntax
              else if (nat_of_ascii lo <=? nat_of_ascii "[")%nat
              then parse_go fr stack (MClass neg (CRange lo "[" :: items) false) s1
              else Err RxSyntax
          | EmptyString =>
              if (nat_of_ascii lo <=? nat_of_ascii "[")%nat
              then parse_go fr stack (MClass neg (CRange lo "[" :: items) false) s1
              else Err RxSyntax
          end
      | String hi s' =>
          if (nat_of_ascii lo <=? nat_of_ascii hi)%nat
          then parse_go fr stack (MClass neg (CRange lo hi :: items) false) s'
          else Err RxSyntax
      end
  | MPosix neg items pneg name =>
      match s with
      | String ":" (String "]" s') =>
          match posix_name (string_of_list_ascii (rev name)) with
          | Some p => parse_go fr stack (MClass neg (CPosix pneg p :: items) false) s'
          | None => Err RxSyntax
          end
      | String c s' => parse_go fr stack (MPosix neg items pneg (c :: name)) s'
      | EmptyString => Err RxSyntax
      end
  end.

Definition parse_regex (pattern : string) : result regex regex_error :=
  parse_go empty_frame [] (MNormal None) pattern.

(** ** Matching *)

(** The context of a position: at the start of the subject, and where
    [$] holds (at the end or before a final newline). *)
Record pos_ctx : Type := mkCtx { at_start : bool; at_end : bool }.

Definition ctx_of (first : bool) (rest : string) : pos_ctx :=
  mkCtx first (match rest with
               | EmptyString => true
               | String c EmptyString => (c =? newline)%char
               | _ => false
               end).

Definition alt (r1 r2 : regex) : regex :=
  match r1, r2 with
  | RVoid, _ => r2
  | _, RVoid => r1
  | _, _ => RAlt r1 r2
  end.

Definition cat (r1 r2 : regex) : regex :=
  match r1, r2 with
  | RVoid, _ => RVoid
  | _, RVoid => RVoid
  | REps, _ => r2
  | _, REps => r1
  | _, _ => RCat r1 r2
  end.

Fixpoint nullable (k : pos_ctx) (r : regex) : bool :=
  match r with
  | RVoid | RChar _ | RAny | RClass _ _ => false
  | REps | RStar _ => true
  | RBol => at_start k
  | REol => at_end k
  | RCat r1 r2 => nullable k r1 && nullable k r2
  | RAlt r1 r2 => nullable k r1 || nullable k r2
  end.

Fixpoint deriv (icase : bool) (k : pos_ctx) (c : ascii) (r : regex) : regex :=
  match r with
  | RVoid | REps | RBol | REol => RVoid
  | RChar d => if char_match icase d c then REps else RVoid
  | RAny => if (c =? newline)%char then RVoid else REps
  | RClass neg items => if xorb neg (class_match icase items c) then REps else RVoid
  | RCat r1 r2 =>
      alt (cat (deriv icase k c r1) r2) (if nullable k r1 then deriv icase k c r2 else RVoid)
  | RAlt r1 r2 => alt (deriv icase k c r1) (deriv icase k c r2)
  | RStar r1 => cat (deriv icase k c r1) (RStar r1)
  end.

(** [acc] holds the residuals of the matches started so far; a new
    match may start at every position. *)
Fixpoint search_go (icase : bool) (r : regex) (first : bool) (acc : regex) (w : string) : bool :=
  let acc' := alt acc r in
  let k := ctx_of first w in
  if nullable k acc' then true
  else
    match w with
    | EmptyString => false
    | String c w' => search_go icase r false (deriv icase k c acc') w'
    end.

Definition regex_test (icase : bool) (r : regex) (w : string) : bool :=
  search_go icase r true RVoid w.

(** ** Declarative semantics

    [rmatch w r i j]: [r] matches the characters of [w] from position
    [i] up to [j], with [^] and [$] read at their absolute positions.
    The pattern matches [w] when it matches between some two
    positions. *)
Section Semantics.

Variable icase : bool.
Variable w : string.

Definition eol_at (i : nat) : Prop :=
  i = String.length w \/ (S i = String.length w /\ String.get i w = Some newline).

Inductive rmatch : regex -> nat -> nat -> Prop :=
| m_eps i : (i <= String.length w)%nat -> rmatch REps i i
| m_char d i c : String.get i w = Some c -> char_match icase d c = true -> rmatch (RChar d) i (S i)
| m_any i c : String.get i w = Some c -> (c =? newline)%char = false -> rmatch RAny i (S i)
| m_class neg items i c :
    String.get i w = Some c -> xorb neg (class_match icase items c) = true ->
    rmatch (RClass neg items) i (S i)
| m_bol : rmatch RBol 0 0
| m_eol i : eol_at i -> rmatch REol i i
| m_cat r1 r2 i j k : rmatch r1 i j -> rmatch r2 j k -> rmatch (RCat r1 r2) i k
| m_altl r1 r2 i j : rmatch r1 i j -> rmatch (RAlt r1 r2) i j
| m_altr r1 r2 i j : rmatch r2 i j -> rmatch (RAlt r1 r2) i j
| m_star0 r i : (i <= String.length w)%nat -> rmatch (RStar r) i i
| m_star r i j k : rmatch r i j -> rmatch (RStar r) j k -> rmatch (RStar r) i k.

Definition regex_matches (r : regex) : Prop := exists i j, rmatch r i j.

Fixpoint drop (n : nat) (s : string) : string :=
  match n, s with
  | O, _ => s
  | S n', String _ s' => drop n' s'
  | S _, EmptyString => EmptyString
  end.

Lemma get_lt i c : String.get i w = Some c -> (i < String.length w)%nat.
Proof.
  generalize w. clear w. induction i as [|i IH]; intros [|c' s]; simpl; try done.
  - lia.
  - intros H. apply IH in H. lia.
Qed.

Lemma rmatch_bounds r i j : rmatch r i j -> (i <= j <= String.length w)%nat.
Proof.
  induction 1; try (apply get_lt in H; lia); try lia.
  unfold eol_at in H. lia.
Qed.

Lemma drop_get i c : String.get i w = Some c -> drop i w = String c (drop (S i) w).
Proof.
  generalize w. clear w. induction i as [|i IH]; intros [|c' s]; simpl; try done.
  - by intros [= ->].
  - apply IH.
Qed.

Lemma drop_empty i : (i <= String.length w)%nat -> drop i w = EmptyString <-> i = String.length w.
Proof.
  generalize w. clear w. induction i as [|i IH]; intros [|c s]; simpl; try (split; done || lia).
  intros Hle. rewrite IH by lia. lia.
Qed.

Lemma drop_last i c : drop i w = String c EmptyString ->
  S i = String.length w /\ String.get i w = Some c.
Proof.
  generalize w. clear w. induction i as [|i IH]; intros [|c' s]; simpl; try done.
  - intros [= -> ->]. done.
  - intros H. destruct (IH s H) as [? ?]. split; [lia | done].
Qed.

Lemma drop_last_inv i c : S i = String.length w -> String.get i w = Some c ->
  drop i w = String c EmptyString.
Proof.
  intros Hlen Hget. rewrite (drop_get _ _ Hget). f_equal. apply drop_empty; lia.
Qed.

(** The context [search_go] computes at position [i] is the context of
    that position. *)
Lemma ctx_at_end i : (i <= String.length w)%nat ->
  at_end (ctx_of (i =? 0)%nat (drop i w)) = true <-> eol_at i.
Proof.
  intros Hle. unfold eol_at. simpl.
  destruct (drop i w) as [|c [|c' s]] eqn:E.
  - apply drop_empty in E; [|done]. split; [by left | done].
  - destruct (drop_last _ _ E) as [Hlen Hget]. split.
    + intros Hc. apply Ascii.eqb_eq in Hc. subst. right. done.
    + intros [Hl | [_ Hg]]; [lia|]. rewrite Hget in Hg. injection Hg as ->.
      apply Ascii.eqb_refl.
  - split; [done|]. intros [Hl | [Hl Hg]].
    + apply drop_empty in Hl; [congruence | lia].
    + rewrite (drop_last_inv _ _ Hl Hg) in E. done.
Qed.

Lemma rmatch_void i j : ~ rmatch RVoid i j.
Proof. inversion 1. Qed.

Lemma rmatch_eps i j : rmatch REps i j <-> i = j /\ (i <= String.length w)%nat.
Proof. split; [inversion 1; subst; done | intros [-> ?]; by constructor]. Qed.

Lemma rmatch_alt r1 r2 i j : rmatch (alt r1 r2) i j <-> rmatch r1 i j \/ rmatch r2 i j.
Proof.
  unfold alt. split.
  - destruct r1, r2; try (intros; by left); try (intros; by right);
      inversion 1; subst; auto.
  - intros [H|H]; destruct r1, r2; try done;
      try (by apply m_altl); try (by apply m_altr);
      by apply rmatch_void in H.
Qed.

Lemma rmatch_cat r1 r2 i k :
  rmatch (cat r1 r2) i k <-> exists j, rmatch r1 i j /\ rmatch r2 j k.
Proof.
  assert (Hc : rmatch (RCat r1 r2) i k <-> exists j, rmatch r1 i j /\ rmatch r2 j k).
  { split; [inversion 1; subst; eauto | intros (j & ? & ?); econstructor; eauto]. }
  unfold cat. destruct r1, r2; try exact Hc;
    split; try (intros H; by apply rmatch_void in H);
    try (intros (j & H1 & H2); by apply rmatch_void in H1 || apply rmatch_void in H2);
    try (intros H; exists i; split; [apply rmatch_eps; split; [done|];
                                   pose proof (rmatch_bounds _ _ _ H); lia | done]);
    try (intros H; eexists; split; [exact H|]; apply rmatch_eps; split; [done|];
         pose proof (rmatch_bounds _ _ _ H); lia);
    intros (j & H1 & H2); apply rmatch_eps in H1 || apply rmatch_eps in H2;
    destruct_and!; by subst.
Qed.

Local Abbreviation ctx_at i := (ctx_of (i =? 0)%nat (drop i w)).

(** [nullable] decides the empty match at a position. *)
Lemma nullable_spec r i :
  (i <= String.length w)%nat -> nullable (ctx_at i) r = true <-> rmatch r i i.
Proof.
  intros Hle. induction r; cbn [nullable].
  - split; [done | intros H; by apply rmatch_void in H].
  - split; [intros _; by constructor | done].
  - split; [done | inversion 1; lia].
  - split; [done | inversion 1; lia].
  - split; [done | inversion 1; lia].
  - split.
    + intros H. apply Nat.eqb_eq in H. subst. constructor.
    + inversion 1. done.
  - rewrite ctx_at_end by done. split; [by constructor | by inversion 1].
  - rewrite andb_true_iff, IHr1, IHr2. split.
    + intros [? ?]. econstructor; eauto.
    + inversion 1; subst.
      match goal with H1 : rmatch r1 i ?j, H2 : rmatch r2 ?j i |- _ =>
        pose proof (rmatch_bounds _ _ _ H1); pose proof (rmatch_bounds _ _ _ H2) end.
      assert (j = i) by lia. subst. done.
  - rewrite orb_true_iff, IHr1, IHr2. split.
    + intros [?|?]; [by apply m_altl | by apply m_altr].
    + inversion 1; subst; auto.
  - split; [intros _; by constructor | done].
Qed.

(** A match of a starred pattern over a non-empty span starts with a
    non-empty match of the pattern. *)
Lemma star_nonempty r i k :
  rmatch (RStar r) i k -> (i < k)%nat ->
  exists j, (i < j)%nat /\ rmatch r i j /\ rmatch (RStar r) j k.
Proof.
  intros H. remember (RStar r) as rs eqn:Ers. revert r Ers.
  induction H; intros r' Ers Hlt; try discriminate; injection Ers as ->.
  - lia.
  - destruct (Nat.eq_dec i j) as [->|Hne].
    + by apply IHrmatch2.
    + pose proof (rmatch_bounds _ _ _ H). exists j. split; [lia | done].
Qed.

Lemma rmatch_single (P : ascii -> bool) r i k c :
  String.get i w = Some c ->
  (forall j, rmatch r i j <-> exists c', String.get i w = Some c' /\ P c' = true /\ j = S i) ->
  (rmatch (if P c then REps else RVoid) (S i) k <-> rmatch r i k /\ (i < k)%nat).
Proof.
  intros Hget Hr. rewrite Hr. pose proof (get_lt _ _ Hget).
  destruct (P c) eqn:E.
  - rewrite rmatch_eps. split.
    + intros [<- _]. split; [|lia]. eexists; eauto.
    + intros [(c' & Hc' & _ & ->) _]. split; [done | lia].
  - split; [intros H'; by apply rmatch_void in H'|].
    intros [(c' & Hc' & HP & ->) _]. congruence.
Qed.

(** The derivative at a position matches exactly the rests of the
    non-empty matches from that position. *)
Lemma deriv_spec r i k c :
  String.get i w = Some c ->
  rmatch (deriv icase (ctx_at i) c r) (S i) k <-> rmatch r i k /\ (i < k)%nat.
Proof.
  intros Hget. pose proof (get_lt _ _ Hget) as Hlt.
  revert k. induction r; intros k; simpl.
  - split; [intros H; by apply rmatch_void in H | intros [H _]; by apply rmatch_void in H].
  - split; [intros H; by apply rmatch_void in H | intros [H ?]; inversion H; lia].
  - apply (rmatch_single (fun c' => char_match icase c0 c')); [done|].
    intros j. split; [inversion 1; subst; eauto | intros (c' & ? & ? & ->); econstructor; eauto].
  - replace (if (c =? newline)%char then RVoid else REps)
      with (if negb (c =? newline)%char then REps else RVoid) by (by destruct (c =? newline)%char).
    apply (rmatch_single (fun c' => negb (c' =? newline)%char)); [done|].
    intros j. split.
    + inversion 1; subst. eexists; split; [eauto|]. split; [|done].
      by apply negb_true_iff.
    + intros (c' & ? & ? & ->). econstructor; eauto. by apply negb_true_iff.
  - apply (rmatch_single (fun c' => xorb negated (class_match icase items c'))); [done|].
    intros j. split; [inversion 1; subst; eauto | intros (c' & ? & ? & ->); econstructor; eauto].
  - split; [intros H; by apply rmatch_void in H | intros [H ?]; inversion H; lia].
  - split; [intros H; by apply rmatch_void in H | intros [H ?]; inversion H; lia].
  - rewrite rmatch_alt, rmatch_cat. split.
    + intros [(j & H1 & H2) | H].
      * apply IHr1 in H1 as [H1 ?]. split; [econstructor; eauto|].
        pose proof (rmatch_bounds _ _ _ H2). lia.
      * destruct (nullable _ r1) eqn:En; [|by apply rmatch_void in H].
        apply nullable_spec in En; [|lia]. apply IHr2 in H as [H ?].
        split; [econstructor; eauto | done].
    + intros [H Hik]. inversion H; subst.
      match goal with H1 : rmatch r1 i ?j, H2 : rmatch r2 ?j k |- _ => rename H1 into Hm1; rename H2 into Hm2 end.
      destruct (Nat.eq_dec i j) as [<-|Hne].
      * right. assert (En : nullable (ctx_at i) r1 = true) by (apply nullable_spec; [lia | done]).
        rewrite En. by apply IHr2.
      * left. pose proof (rmatch_bounds _ _ _ Hm1). exists j. split; [apply IHr1; split; [done | lia] | done].
  - rewrite rmatch_alt, IHr1, IHr2. split.
    + intros [[H ?] | [H ?]]; split; try done; [by apply m_altl | by apply m_altr].
    + intros [H ?]. inversion H; subst; auto.
  - rewrite rmatch_cat. split.
    + intros (j & H1 & H2). apply IHr in H1 as [H1 ?]. split; [econstructor; eauto|].
      pose proof (rmatch_bounds _ _ _ H2). lia.
    + intros [H Hik]. destruct (star_nonempty _ _ _ H Hik) as (j & ? & H1 & H2).
      exists j. split; [apply IHr; split; [done | lia] | done].
Qed.

Lemma drop_cons i c s' : drop i w = String c s' -> String.get i w = Some c /\ drop (S i) w = s'.
Proof.
  generalize w. clear w. induction i as [|i IH]; intros [|c0 s0]; simpl; try done.
  - intros [= -> ->]. split; [done|]. destruct s'; done.
  - apply IH.
Qed.

(** The loop of [search_go]: [acc] holds the rests of the matches that
    started before position [i], and the search succeeds when some match
    ends at or after [i]. *)
Lemma search_go_spec r s : forall i acc,
  drop i w = s -> (i <= String.length w)%nat ->
  (forall k, (i <= k)%nat -> rmatch acc i k <-> exists i0, (i0 < i)%nat /\ rmatch r i0 k) ->
  search_go icase r (i =? 0)%nat acc s = true <-> exists i0 j, (i <= j)%nat /\ rmatch r i0 j.
Proof.
  induction s as [|c s' IH]; intros i acc Hdrop Hle Hinv; cbn [search_go]; cbv zeta.
  - rewrite <- Hdrop.
    transitivity (nullable (ctx_at i) (alt acc r) = true); [by destruct (nullable _ _)|].
    rewrite nullable_spec, rmatch_alt, Hinv by lia.
    apply drop_empty in Hdrop; [|done]. split.
    + intros [(i0 & _ & H) | H]; eauto.
    + intros (i0 & j & Hj & H). pose proof (rmatch_bounds _ _ _ H).
      assert (j = i) by lia. subst j. destruct (Nat.lt_ge_cases i0 i); [left; eauto|].
      right. by replace i0 with i in H by lia.
  - destruct (drop_cons _ _ _ Hdrop) as [Hget Hdrop'].
    pose proof (get_lt _ _ Hget) as Hlt.
    rewrite <- Hdrop.
    destruct (nullable _ (alt acc r)) eqn:En.
    + split; [intros _|done]. apply nullable_spec in En; [|lia].
      apply rmatch_alt in En as [En|En].
      * apply Hinv in En as (i0 & _ & Hm); [|lia]. eauto.
      * eauto.
    + replace false with (S i =? 0)%nat by done.
      rewrite (IH (S i)); [| done | lia |].
      * split.
        -- intros (i0 & j & ? & H). exists i0, j. split; [lia | done].
        -- intros (i0 & j & Hj & H). destruct (Nat.eq_dec i j) as [<-|Hne].
           ++ exfalso. assert (Hn : rmatch (alt acc r) i i).
              { apply rmatch_alt. destruct (Nat.lt_ge_cases i0 i).
                - left. apply Hinv; [lia|]. eauto.
                - right. pose proof (rmatch_bounds _ _ _ H). by replace i0 with i in H by lia. }
              apply nullable_spec in Hn; [congruence | lia].
           ++ exists i0, j. split; [lia | done].
      * intros k Hk. rewrite deriv_spec, rmatch_alt by done.
        rewrite Hinv by lia. split.
        -- intros [[(i0 & ? & H) | H] ?]; [exists i0 | exists i]; split; (lia || done).
        -- intros (i0 & ? & H). split; [|lia].
           destruct (Nat.eq_dec i0 i) as [->|Hne]; [by right|]. left. exists i0. split; [lia | done].
Qed.

End Semantics.

Lemma regex_test_spec icase r w :
  regex_test icase r w = true <-> regex_matches icase w r.
Proof.
  unfold regex_test, regex_matches. change true with (0 =? 0)%nat at 1.
  rewrite (search_go_spec icase w r w 0 RVoid); [| done | lia |].
  - split; intros (i0 & j & H); [destruct H as [_ H]|]; exists i0, j; [done|]. split; [lia | done].
  - intros k _. split; [intros H; by apply rmatch_void in H | intros (i0 & ? & _); lia].
Qed.

(** The derivative search of [regex_test] decides
    the declarative semantics: it answers [true] exactly when the pattern
    matches the subject between some two positions. *)
Theorem regex_test_correct icase r w :
  regex_test icase r w = true <-> regex_matches icase w r.
Proof. apply regex_test_spec. Qed.

(** ** Patterns without metacharacters *)

Definition is_meta (c : ascii) : bool :=
  existsb (fun m => (c =? m)%char)
    ["\"; "^"; "$"; "."; "|"; "?"; "*"; "+"; "("; ")"; "["; "]"; "{"; "}"]%char.

Fixpoint is_plain (p : string) : bool :=
  match p with
  | EmptyString => true
  | String c p' => negb (is_meta c) && is_plain p'
  end.

Fixpoint lit_pieces (p : string) : list regex :=
  match p with
  | EmptyString => []
  | String c p' => RChar c :: lit_pieces p'
  end.

Lemma parse_go_plain p fr stack :
  is_plain p = true ->
  parse_go fr stack (MNormal None) p =
  parse_go (mkFrame (f_alts fr) (rev (lit_pieces p) ++ f_seq fr)
              (if p is EmptyString then f_q fr else QNone)) stack (MNormal None) EmptyString.
Proof.
  revert fr. induction p as [|c p IH]; intros fr Hp.
  - by destruct fr.
  - simpl in Hp. apply andb_true_iff in Hp as [Hc Hp].
    transitivity (parse_go (push_piece fr (RChar c)) stack (MNormal None) p).
    { destruct c as [[] [] [] [] [] [] [] []]; try discriminate Hc; reflexivity. }
    rewrite IH by done. simpl. rewrite <- app_assoc. by destruct p.
Qed.

Lemma parse_plain p :
  is_plain p = true -> parse_regex p = Ok (seq_regex (lit_pieces p)).
Proof.
  intros Hp. unfold parse_regex. rewrite parse_go_plain by done.
  simpl. unfold close_frame. simpl. by rewrite app_nil_r, rev_involutive.
Qed.

Lemma rmatch_seq_cons icase w x xs i k :
  rmatch icase w (seq_regex (x :: xs)) i k <->
  exists j, rmatch icase w x i j /\ rmatch icase w (seq_regex xs) j k.
Proof.
  destruct xs as [|y ys]; simpl.
  - split.
    + intros H. exists k. split; [done|]. apply rmatch_eps.
      pose proof (rmatch_bounds _ _ _ _ _ H). split; [done | lia].
    + intros (j & H & Heps). apply rmatch_eps in Heps as [-> _]. done.
  - split; [inversion 1; subst; eauto | intros (j & ? & ?); econstructor; eauto].
Qed.

(** ** What a counted repetition matches *)

Lemma rmatch_seq_app icase w xs ys i k :
  rmatch icase w (seq_regex (xs ++ ys)) i k <->
  exists j, rmatch icase w (seq_regex xs) i j /\ rmatch icase w (seq_regex ys) j k.
Proof.
  revert i. induction xs as [|x xs IH]; intros i; simpl app.
  - split.
    + intros H. exists i. split; [|done]. apply rmatch_eps.
      pose proof (rmatch_bounds _ _ _ _ _ H). split; [done | lia].
    + intros (j & Heps & H). by apply rmatch_eps in Heps as [-> _].
  - setoid_rewrite rmatch_seq_cons. setoid_rewrite IH. firstorder eauto.
Qed.

Lemma rmatch_pow_add icase w p n k i j :
  rmatch icase w (seq_regex (repeat p (n + k))) i j <->
  exists m, rmatch icase w (seq_regex (repeat p n)) i m /\ rmatch icase w (seq_regex (repeat p k)) m j.
Proof. by rewrite repeat_app, rmatch_seq_app. Qed.

Lemma rmatch_pow_zero icase w p i j :
  rmatch icase w (seq_regex (repeat p 0)) i j <-> i = j /\ (i <= String.length w)%nat.
Proof. apply rmatch_eps. Qed.

(** [r*] matches exactly the finite concatenations of [r]. *)
Lemma rmatch_star_pow icase w p i j :
  rmatch icase w (RStar p) i j <-> exists k, rmatch icase w (seq_regex (repeat p k)) i j.
Proof.
  split.
  - intros H. remember (RStar p) as r eqn:Er.
    induction H as [| | | | | | | | |r i Hle|r i m j Hp _ _ IH]; try discriminate; injection Er as <-.
    + exists 0%nat. by apply rmatch_pow_zero.
    + destruct (IH eq_refl) as [k Hk]. exists (S k). apply rmatch_seq_cons. eauto.
  - intros [k Hk]. revert i Hk. induction k as [|k IH]; intros i Hk.
    + apply rmatch_pow_zero in Hk as [-> ?]. by constructor.
    + apply rmatch_seq_cons in Hk as (m & Hp & Hr). econstructor; [exact Hp | by apply IH].
Qed.

(** [d] optional copies of [r] match [k] copies for any [k <= d]. *)
Lemma rmatch_opt_pow icase w p d i j :
  rmatch icase w (seq_regex (repeat (RAlt p REps) d)) i j <->
  exists k, (k <= d)%nat /\ rmatch icase w (seq_regex (repeat p k)) i j.
Proof.
  revert i. induction d as [|d IH]; intros i.
  - split; [intros H; exists 0%nat; split; [lia | done]|].
    intros (k & Hk & H). by replace k with 0%nat in H by lia.
  - cbn [repeat]. rewrite rmatch_seq_cons. split.
    + intros (m & Ha & Hr). apply IH in Hr as (k & Hk & Hr).
      inversion Ha as [| | | | | | |r1 r2 i' j' Hp|r1 r2 i' j' He| |]; subst.
      * exists (S k). split; [lia|]. apply rmatch_seq_cons. eauto.
      * apply rmatch_eps in He as [-> _]. exists k. split; [lia | done].
    + intros ([|k] & Hk & H).
      * apply rmatch_pow_zero in H as [-> Hle]. exists j. split.
        -- apply m_altr. by apply rmatch_eps.
        -- apply IH. exists 0%nat. split; [lia|]. by apply rmatch_pow_zero.
      * apply rmatch_seq_cons in H as (m & Hp & Hr). exists m. split; [by apply m_altl|].
        apply IH. exists k. split; [lia | done].
Qed.

(** The numbers of copies a bound allows; [UpTo m] needs [n <= m],
    which [count_bound] checks. *)
Definition bound_ok (n : nat) (b : bound) : Prop :=
  match b with UpTo m => (n <= m)%nat | _ => True end.

Definition within (n : nat) (b : bound) (k : nat) : Prop :=
  (n <= k)%nat /\ match b with Exactly => k = n | AtLeast => True | UpTo m => (k <= m)%nat end.

Lemma counted_pow icase w p n b i j :
  bound_ok n b ->
  rmatch icase w (counted p n b) i j <->
  exists k, within n b k /\ rmatch icase w (seq_regex (repeat p k)) i j.
Proof.
  intros Hb. unfold counted, within. rewrite rmatch_seq_app.
  assert (Hsplit : forall k, (n <= k)%nat ->
            rmatch icase w (seq_regex (repeat p k)) i j <->
            exists m, rmatch icase w (seq_regex (repeat p n)) i m /\
                      rmatch icase w (seq_regex (repeat p (k - n))) m j)
    by (intros k Hk; rewrite <- rmatch_pow_add; by replace (n + (k - n))%nat with k by lia).
  split.
  - intros (m & Hn & Hrest). destruct b as [| |mx]; simpl in Hrest.
    + apply rmatch_eps in Hrest as [-> _]. exists n. split; [lia | done].
    + apply rmatch_star_pow in Hrest as [k Hk]. exists (n + k)%nat. split; [lia|].
      apply rmatch_pow_add. eauto.
    + apply rmatch_opt_pow in Hrest as (k & Hk & Hr). exists (n + k)%nat. split; [simpl in Hb; lia|].
      apply rmatch_pow_add. eauto.
  - intros (k & [Hk Hkb] & H). apply Hsplit in H as (m & Hn & Hr); [|done].
    exists m. split; [done|]. destruct b as [| |mx]; simpl.
    + subst k. rewrite Nat.sub_diag in Hr. exact Hr.
    + apply rmatch_star_pow. eauto.
    + apply rmatch_opt_pow. exists (k - n)%nat. split; [lia | done].
Qed.

Lemma get_lower i w : String.get i (lower_string w) = option_map to_lower (String.get i w).
Proof.
  revert w. induction i as [|i IH]; intros [|c w]; simpl; try done.
Qed.

Lemma substring_get i n w c :
  String.get i w = Some c -> substring i (S n) w = String c (substring (S i) n w).
Proof.
  revert w. induction i as [|i IH]; intros [|c' w]; simpl; try done.
  - intros [= ->]. by destruct n.
  - intros H. rewrite (IH w H). by destruct i.
Qed.

Lemma substring_short i n w : (String.length w <= i)%nat -> substring i (S n) w = EmptyString.
Proof.
  revert w. induction i as [|i IH]; intros [|c w]; simpl; try (done || lia).
  intros H. apply IH. lia.
Qed.

Lemma length_lower_string w : String.length (lower_string w) = String.length w.
Proof. induction w as [|c w IH]; simpl; [done | by rewrite IH]. Qed.

Lemma substring_zero i s : substring i 0 s = EmptyString.
Proof. revert s. induction i as [|i IH]; intros [|c s]; simpl; try done. Qed.

Lemma length_substring_le i n s : (String.length (substring i n s) <= String.length s - i)%nat.
Proof.
  revert i n. induction s as [|c s IH]; intros [|i] [|n]; simpl; try lia.
  - specialize (IH 0%nat n). lia.
  - apply IH.
  - apply IH.
Qed.

(** A literal occurs at position [i], case ignored. *)
Lemma rmatch_lit w p i j :
  rmatch true w (seq_regex (lit_pieces p)) i j <->
  j = (i + String.length p)%nat /\ (j <= String.length w)%nat /\
  substring i (String.length p) (lower_string w) = lower_string p.
Proof.
  revert i. induction p as [|c p IH]; intros i; cbn [lit_pieces String.length lower_string].
  - simpl seq_regex. rewrite rmatch_eps, substring_zero. split.
    + intros [-> H]. split; [lia|]. split; [lia | done].
    + intros (-> & H & _). split; lia.
  - rewrite rmatch_seq_cons. split.
    + intros (k & Hc & Hrest). inversion Hc; subst.
      apply IH in Hrest as (-> & Hle & Hsub).
      match goal with Hg : String.get i w = Some ?c0, Hm : char_match true c ?c0 = true |- _ =>
        rename Hg into Hget; rename Hm into Hmatch end.
      split; [lia|]. split; [done|].
      rewrite (substring_get _ _ _ (to_lower c0)) by (rewrite get_lower, Hget; done).
      rewrite Hsub. simpl in Hmatch. apply Ascii.eqb_eq in Hmatch. by rewrite Hmatch.
    + intros (-> & Hle & Hsub).
      destruct (String.get i w) as [c0|] eqn:Hget.
      * rewrite (substring_get _ _ _ (to_lower c0)) in Hsub by (rewrite get_lower, Hget; done).
        injection Hsub as Hc Hsub. exists (S i). split.
        -- econstructor; [done|]. simpl. by rewrite Hc, Ascii.eqb_refl.
        -- apply IH. split; [lia|]. split; [lia | done].
      * rewrite substring_short in Hsub; [done|]. rewrite length_lower_string.
        destruct (Nat.lt_ge_cases i (String.length w)) as [Hlt|]; [|done].
        exfalso. revert Hget Hlt. clear. revert w. induction i as [|i IH]; intros [|c w]; simpl;
          try (done || lia). intros Hg Hl. apply (IH w); [done | lia].
Qed.

Lemma plain_search_iff p w :
  is_plain p = true ->
  exists r, parse_regex p = Ok r /\
    (regex_test true r w = true <->
     exists i, substring i (String.length p) (lower_string w) = lower_string p).
Proof.
  intros Hp. exists (seq_regex (lit_pieces p)). split; [by apply parse_plain|].
  rewrite regex_test_spec. unfold regex_matches. split.
  - intros (i & j & H). apply rmatch_lit in H as (_ & _ & H). eauto.
  - intros (i & H). destruct p as [|c p'].
    { exists 0%nat, 0%nat. apply rmatch_lit. simpl. rewrite substring_zero. split; [done|]. split; [lia | done]. }
    exists i, (i + String.length (String c p'))%nat. apply rmatch_lit.
    split; [done|]. split; [|done].
    destruct (Nat.le_gt_cases (i + String.length (String c p')) (String.length w)) as [|Hgt]; [done|].
    exfalso. pose proof (length_substring_le i (String.length (String c p')) (lower_string w)) as Hlen.
    rewrite H, !length_lower_string in Hlen. simpl in *. lia.
Qed.

(** A search text with no regular-expression
    metacharacter is a valid pattern, and it matches a field exactly
    when it occurs in the field with case ignored, as the spec's "title
    contains the text case-insensitively" says. *)
Theorem plain_search_contains p w :
  is_plain p = true ->
  exists r, parse_regex p = Ok r /\
    (regex_test true r w = true <->
     exists i, substring i (String.length p) (lower_string w) = lower_string p).
Proof. apply plain_search_iff. Qed.

Lemma plain_search_contains_witness :
  is_plain "shirt" = true /\
  parse_regex "shirt" = Ok (seq_regex (lit_pieces "shirt")) /\
  regex_test true (seq_regex (lit_pieces "shirt")) "Mens Casual SHIRT" = true.
Proof.
  split; [reflexivity|]. split; [reflexivity|].
  destruct (plain_search_contains "shirt" "Mens Casual SHIRT" eq_refl) as (r & Hr & Hiff).
  vm_compute in Hr. injection Hr as <-. apply Hiff. exists 12%nat. reflexivity.
Defined.

(** A counted quantifier matches what PCRE's
    [{n}], [{n,}] and [{n,m}] match: the concatenations of [k] copies of
    the repeated piece, for exactly the [k] the bounds allow. *)
Theorem counted_repetition icase w p n b i j :
  bound_ok n b ->
  rmatch icase w (counted p n b) i j <->
  exists k, within n b k /\ rmatch icase w (seq_regex (repeat p k)) i j.
Proof. apply counted_pow. Qed.

(** [a{2,3}] parses to the counted repetition, which matches the two
    [a]s of ["baab"] between positions 1 and 3. *)
Lemma counted_repetition_witness :
  parse_regex "a{2,3}" = Ok (counted (RChar "a") 2 (UpTo 3)) /\
  bound_ok 2 (UpTo 3) /\
  (rmatch true "baab" (counted (RChar "a") 2 (UpTo 3)) 1 3 <->
   exists k, within 2 (UpTo 3) k /\ rmatch true "baab" (seq_regex (repeat (RChar "a") k)) 1 3).
Proof.
  split; [reflexivity|]. split; [simpl; lia|].
  apply counted_repetition. simpl. lia.
Defined.

(** ** POSIX classes *)

(** [[[:digit:]]] and [[[:space:]]] are [\d] and [\s], and [[[:word:]]]
    is [\w], with or without the [i] option. *)
Lemma posix_escapes icase c :
  class_match icase [CPosix false PDigit] c = class_match icase [CDigit] c /\
  class_match icase [CPosix false PSpace] c = class_match icase [CSpace] c /\
  class_match icase [CPosix false PWord] c = class_match icase [CWord] c.
Proof. destruct icase, c as [[] [] [] [] [] [] [] []]; split_and!; reflexivity. Qed.

(** Under the [i] option [[[:upper:]]] and [[[:lower:]]] match every
    letter, and [[[:^lower:]]] no letter, as PCRE's conversion to
    [[:alpha:]] makes them. *)
Lemma posix_case_fold c :
  class_match true [CPosix false PUpper] c = is_letter c /\
  class_match true [CPosix false PLower] c = is_letter c /\
  class_match true [CPosix true PLower] c = negb (is_letter c).
Proof. destruct c as [[] [] [] [] [] [] [] []]; split_and!; reflexivity. Qed.

(** PCRE's errors around POSIX classes: one outside a class, a
    collating element, an unknown name, and a range to or from a POSIX
    class or a class escape; a [[:] without its terminator is a
    literal. *)
Example posix_parse :
  parse_regex "[[:alpha:]_]" = Ok (RClass false [CPosix false PAlpha; CChar "_"]) /\
  parse_regex "[[:^digit:]-]" = Ok (RClass false [CPosix true PDigit; CChar "-"]) /\
  parse_regex "[:alpha:]" = Err RxSyntax /\ parse_regex "[[.a.]]" = Err RxSyntax /\
  parse_regex "[[:Alpha:]]" = Err RxSyntax /\ parse_regex "[[:digit:]-z]" = Err RxSyntax /\
  parse_regex "[a-[:digit:]]" = Err RxSyntax /\
  parse_regex "[\d-z]" = Err RxSyntax /\ parse_regex "[\w-]" = Ok (RClass false [CWord; CChar "-"]) /\
  parse_regex "[[:a]" = Ok (RClass false [CChar "["; CChar ":"; CChar "a"]).
Proof. split_and!; reflexivity. Qed.

End Regex.
