(* ===== verification/Query.v ===== *)
(** * Query: MongoDB filter documents and the record store

    The handlers build their filters as JavaScript objects and merge
    fragments with the object spread [{...a, ...b}] (server.js lines 73,
    74, 106, 107 and 133).  A filter is modelled as the list of its
    properties in insertion order; [spread] is the spread: a key already
    present keeps its position and takes the new value, a new key is
    appended.  [doc_matches] is MongoDB's reading of a filter: a document
    matches when every top-level property matches, [$or] when one branch
    matches, [$expr] by evaluating the expression, and a field condition
    on the field's value.

    The store is the [MongoStore] interface: the four calls the handlers
    make ([countDocuments], [find().skip().limit()] and the two
    [aggregate] pipelines).  [MongoStoreSpec] states what Mongoose and
    MongoDB do on a collection: for [countDocuments] and [find] Mongoose
    first casts the filter against the schema ([castable]), and its
    [castNumber] refuses the [NaN] of [{ price: parseFloat(text) }] with
    a [CastError]; aggregation pipelines are sent uncast.  MongoDB then
    answers from the documents that match, fails when the connection is
    down or a [$regex] does not compile, refuses a negative [skip], and
    groups in an unspecified order.  The comparison inside [$expr] is
    taken as MongoDB evaluates it, uncast, as Mongoose releases before
    the casting of [$expr] send it.  The handlers of
    [Listing] and [Aggregation] are proved against these laws;
    [Collection] is a store that satisfies them. *)

From S2P Require Import Prelude Transaction JsRuntime Regex.

Module Query.

Import Regex.

(** ** Filter documents *)

Inductive cond : Type :=
| CondRegex (pattern options : string)    (** [{ $regex: p, $options: o }] *)
| CondEqNum (v : jsnum)                   (** a number as the value: equality *)
| CondEqBool (b : bool)                   (** a boolean as the value: equality *)
| CondRange (gte lt : jsnum).             (** [{ $gte: a, $lt: b }] *)

Inductive qvalue : Type :=
| VCond (c : cond)
| VOr (branches : list (list (string * qvalue)))
| VMonthEq (rhs : jsnum).                 (** [{ $eq: [{ $month: "$dateOfSale" }, rhs] }] *)

Definition query : Type := list (string * qvalue).

(** The value of a property of a document, as BSON types it. *)
Inductive bval : Type :=
| BStr (s : string)
| BNum (q : Q)
| BBool (b : bool)
| BDate (ms : Z).

Definition get_field (d : Data) (k : string) : option bval :=
  if String.eqb k "title" then Some (BStr (title d))
  else if String.eqb k "description" then Some (BStr (description d))
  else if String.eqb k "category" then Some (BStr (category d))
  else if String.eqb k "image" then Some (BStr (image d))
  else if String.eqb k "price" then Some (BNum (price d))
  else if String.eqb k "id" then Some (BNum (inject_Z (id d)))
  else if String.eqb k "sold" then Some (BBool (sold d))
  else if String.eqb k "dateOfSale" then Some (BDate (dateOfSale d))
  else None.

(** ** The object spread *)

Fixpoint set_key (q : query) (k : string) (v : qvalue) : query :=
  match q with
  | [] => [(k, v)]
  | (k', v') :: q' => if String.eqb k k' then (k, v) :: q' else (k', v') :: set_key q' k v
  end.

Definition spread (a b : query) : query :=
  fold_left (fun acc kv => set_key acc (fst kv) (snd kv)) b a.

(** ** Matching *)

(** The [i] option; the handlers pass no other. *)
Definition options_icase (o : string) : option bool :=
  if String.eqb o "i" then Some true
  else if String.eqb o "" then Some false
  else None.

(** Numbers compare by value; [NaN] equals no price. *)
Definition num_eq (q : Q) (v : jsnum) : bool :=
  match v with JFinite x => Qeq_bool q x | _ => false end.

Lemma Qeq_bool_compat a b c e : (a == b)%Q -> (c == e)%Q -> Qeq_bool a c = Qeq_bool b e.
Proof.
  intros H1 H2. destruct (Qeq_bool a c) eqn:E1, (Qeq_bool b e) eqn:E2; try done; qbool.
  - exfalso. apply E2. by rewrite <- H1, <- H2.
  - exfalso. apply E1. by rewrite H1, H2.
Qed.

(** Equality with a number only depends on the values compared. *)
#[export] Instance num_eq_proper : Proper (Qeq ==> jsnum_equiv ==> eq) num_eq.
Proof.
  intros q1 q2 Hq [|s1|x] [|s2|y] Hv; simpl in *; try done. by apply Qeq_bool_compat.
Qed.

Definition num_ge (q : Q) (v : jsnum) : bool :=
  match v with
  | JFinite x => Qle_bool x q
  | JInfinity neg => neg
  | JNaN => false
  end.

Definition num_lt (q : Q) (v : jsnum) : bool :=
  match v with
  | JFinite x => Qltb q x
  | JInfinity neg => negb neg
  | JNaN => false
  end.

Definition cond_matches (fv : option bval) (c : cond) : bool :=
  match c, fv with
  | CondRegex p o, Some (BStr s) =>
      match parse_regex p, options_icase o with
      | Ok r, Some ic => regex_test ic r s
      | _, _ => false
      end
  | CondEqNum v, Some (BNum q) => num_eq q v
  | CondEqBool b, Some (BBool b') => Bool.eqb b b'
  | CondRange lo hi, Some (BNum q) => num_ge q lo && num_lt q hi
  | _, _ => false
  end.

(** [$month] of the document's [dateOfSale] equals the right-hand side
    when that is a finite number with the same value. *)
Definition month_eq (d : Data) (rhs : jsnum) : bool :=
  num_eq (inject_Z (Calendar.month_of_date (dateOfSale d))) rhs.

Fixpoint qv_matches (d : Data) (k : string) (v : qvalue) : bool :=
  match v with
  | VCond c => cond_matches (get_field d k) c
  | VOr bs => existsb (fun b => forallb (fun kv => qv_matches d (fst kv) (snd kv)) b) bs
  | VMonthEq rhs => month_eq d rhs
  end.

Definition doc_matches (q : query) (d : Data) : bool :=
  forallb (fun kv => qv_matches d (fst kv) (snd kv)) q.

(** ** Errors *)

(** A store call fails when the connection is down, when a [$regex]
    does not compile, on a negative [skip], or when Mongoose cannot
    cast the filter to the schema's types; [Unmodelled] marks a
    pattern in PCRE syntax that the regular-expression model does not
    cover, for which the model gives no answer. *)
Inductive store_error : Type :=
| StoreUnavailable
| BadRegex
| NegativeSkip
| CastError
| Unmodelled.

Definition cond_check (c : cond) : result unit store_error :=
  match c with
  | CondRegex p o =>
      match options_icase o, parse_regex p with
      | None, _ => Err Unmodelled
      | Some _, Ok _ => Ok tt
      | Some _, Err RxSyntax => Err BadRegex
      | Some _, Err RxUnsupported => Err Unmodelled
      end
  | _ => Ok tt
  end.

Fixpoint qv_check (v : qvalue) : result unit store_error :=
  match v with
  | VCond c => cond_check c
  | VOr bs =>
      fold_right (fun b acc =>
        res_bind (fold_right (fun kv acc' => res_bind (qv_check (snd kv)) (fun _ => acc')) (Ok tt) b)
                 (fun _ => acc)) (Ok tt) bs
  | VMonthEq _ => Ok tt
  end.

(** MongoDB parses the whole filter, regular expressions included,
    before it reads a document. *)
Definition query_check (q : query) : result unit store_error :=
  fold_right (fun kv acc => res_bind (qv_check (snd kv)) (fun _ => acc)) (Ok tt) q.

(** ** Casting to the schema *)

(** [castNumber] (Mongoose's [lib/cast/number.js]) asserts
    [!isNaN(val)]: a [NaN] compared with a [Number] path is a
    [CastError]; [Infinity] passes. *)
Definition num_castable (v : jsnum) : bool :=
  match v with JNaN => false | _ => true end.

Definition cond_castable (c : cond) : bool :=
  match c with
  | CondEqNum v => num_castable v
  | CondRange lo hi => num_castable lo && num_castable hi
  | _ => true
  end.

(** Mongoose casts every condition, in the branches of [$or] too. *)
Fixpoint qv_castable (v : qvalue) : bool :=
  match v with
  | VCond c => cond_castable c
  | VOr bs => forallb (forallb (fun kv => qv_castable (snd kv))) bs
  | VMonthEq _ => true
  end.

Definition castable (q : query) : bool := forallb (fun kv => qv_castable (snd kv)) q.

(** What [countDocuments] and [find] check before they read a document:
    the cast by Mongoose, then the parse by MongoDB. *)
Definition filter_check (q : query) : result unit store_error :=
  if castable q then query_check q else Err CastError.

Lemma filter_check_ok q : filter_check q = Ok tt <-> castable q = true /\ query_check q = Ok tt.
Proof. unfold filter_check. destruct (castable q); naive_solver. Qed.

Lemma castable_app a b : castable (a ++ b) = castable a && castable b.
Proof. unfold castable. apply forallb_app. Qed.

(** ** Cursor limits *)

(** [limit(n)]: [0] is no limit, a negative [n] returns [|n|] documents
    in a single batch. *)
Definition apply_limit {A} (n : Z) (l : list A) : list A :=
  if n =? 0 then l else firstn (Z.to_nat (Z.abs n)) l.

(** ** Grouping *)

(** [$group] by a key with a [$sum: 1] counter, keys in order of first
    occurrence. *)
Fixpoint group_add (k : string) (gs : list (string * nat)) : list (string * nat) :=
  match gs with
  | [] => [(k, 1%nat)]
  | (k', n) :: gs' => if String.eqb k k' then (k', S n) :: gs' else (k', n) :: group_add k gs'
  end.

Definition group_count (ks : list string) : list (string * nat) :=
  fold_left (fun gs k => group_add k gs) ks [].

(** ** Spread of disjoint fragments *)

Definition keys (q : query) : list string := map fst q.

Lemma doc_matches_app q1 q2 d : doc_matches (q1 ++ q2) d = doc_matches q1 d && doc_matches q2 d.
Proof. unfold doc_matches. by rewrite forallb_app. Qed.

Lemma set_key_fresh q k v : ~ In k (keys q) -> set_key q k v = q ++ [(k, v)].
Proof.
  induction q as [|[k' v'] q IH]; simpl; [done|]. intros Hk.
  destruct (String.eqb_spec k k') as [->|Hne]; [tauto|]. rewrite IH; [done | tauto].
Qed.

Lemma keys_app q1 q2 : keys (q1 ++ q2) = keys q1 ++ keys q2.
Proof. apply map_app. Qed.

(** Merging fragments with no key in common keeps every property, so the
    merged filter is the conjunction of the fragments. *)
Lemma spread_disjoint a b d :
  (forall k, In k (keys b) -> ~ In k (keys a)) -> NoDup (keys b) ->
  doc_matches (spread a b) d = doc_matches a d && doc_matches b d.
Proof.
  revert a. induction b as [|[k v] b IH]; intros a Hdisj Hnd; simpl.
  - unfold spread. simpl. by rewrite andb_true_r.
  - unfold spread. simpl. fold (spread (set_key a k v) b).
    inversion Hnd as [|? ? Hk Hnd']; subst.
    rewrite set_key_fresh by (apply Hdisj; simpl; by left).
    rewrite IH; [| | done].
    + rewrite doc_matches_app. unfold doc_matches at 2 4. simpl. by rewrite !andb_true_r, andb_assoc.
    + intros k' Hk'. rewrite keys_app. intros Hin.
      apply in_app_iff in Hin as [Ha | [<- | []]]; [|by apply Hk, list_elem_of_In].
      by apply (Hdisj k'); [simpl; right|].
Qed.

(** ** The store interface *)

Class MongoStore (S : Type) := {
  countDocuments : S -> query -> result nat store_error;
  find_skip_limit : S -> query -> Z -> Z -> result (list Data) store_error;
  aggregate_sum_price : S -> query -> result (list Q) store_error;
  aggregate_count_by_category : S -> query -> result (list (string * nat)) store_error
}.

(** The documents of the collection that match a filter, in the
    collection's natural order. *)
Definition matching (q : query) (docs : list Data) : list Data := List.filter (doc_matches q) docs.

(** [$group: { _id: null, totalAmount: { $sum: "$price" } }] yields no
    group at all on an empty input. *)
Definition total_of (ms : list Data) : list Q :=
  match ms with
  | [] => []
  | _ => [qsum (map price ms)]
  end.

Class MongoStoreSpec (S : Type) `{MongoStore S} := {
  documents : S -> list Data;
  connected : S -> bool;
  countDocuments_spec s q :
    countDocuments s q =
      if castable q then
        if connected s then res_map (fun _ => length (matching q (documents s))) (query_check q)
        else Err StoreUnavailable
      else Err CastError;
  find_spec s q k n :
    find_skip_limit s q k n =
      if castable q then
        if connected s then
          res_bind (query_check q) (fun _ =>
            if k <? 0 then Err NegativeSkip
            else Ok (apply_limit n (skipn (Z.to_nat k) (matching q (documents s)))))
        else Err StoreUnavailable
      else Err CastError;
  sum_spec s q :
    aggregate_sum_price s q =
      if connected s then res_map (fun _ => total_of (matching q (documents s))) (query_check q)
      else Err StoreUnavailable;
  group_err s q e :
    aggregate_count_by_category s q = Err e <->
      (connected s = false /\ e = StoreUnavailable) \/ (connected s = true /\ query_check q = Err e);
  group_ok s q gs :
    aggregate_count_by_category s q = Ok gs ->
    gs ≡ₚ group_count (map category (matching q (documents s)))
}.

(** ** A collection *)

Record Collection : Type := mkCollection {
  coll_docs : list Data;
  coll_up : bool
}.

#[export] Instance Collection_store : MongoStore Collection := {
  countDocuments c q :=
    if castable q then
      if coll_up c then res_map (fun _ => length (matching q (coll_docs c))) (query_check q)
      else Err StoreUnavailable
    else Err CastError;
  find_skip_limit c q k n :=
    if castable q then
      if coll_up c then
        res_bind (query_check q) (fun _ =>
          if k <? 0 then Err NegativeSkip
          else Ok (apply_limit n (skipn (Z.to_nat k) (matching q (coll_docs c)))))
      else Err StoreUnavailable
    else Err CastError;
  aggregate_sum_price c q :=
    if coll_up c then res_map (fun _ => total_of (matching q (coll_docs c))) (query_check q)
    else Err StoreUnavailable;
  aggregate_count_by_category c q :=
    if coll_up c then res_map (fun _ => group_count (map category (matching q (coll_docs c)))) (query_check q)
    else Err StoreUnavailable
}.

#[export, refine] Instance Collection_store_spec : MongoStoreSpec Collection := {
  documents := coll_docs;
  connected := coll_up
}.
Proof.
  - done.
  - done.
  - done.
  - intros c q e. simpl. destruct (coll_up c); [|naive_solver].
    destruct (query_check q); simpl; naive_solver.
  - intros c q gs. simpl. destruct (coll_up c); [|done].
    destruct (query_check q); simpl; [|done]. intros [= <-]. done.
Defined.

End Query.
