(* ===== verification/Predicates.v ===== *)
(** * Predicates: the filters the handlers build

    [buildDateQuery] (server.js lines 45-52) turns the [month] query
    parameter into an [$expr] comparing [$month] of [dateOfSale] with the
    parsed month index plus one; an absent or empty month gives the empty
    filter.  [searchQuery] (lines 59-68) turns [searchText] into an [$or]
    of two case-insensitive [$regex] conditions on [title] and
    [description] and a price equality with [parseFloat(searchText)].
    [listing_filter] is the filter of [/transactions] (lines 73-74),
    [{...searchQuery, ...dateQuery}].

    The theorems say what these filters select: the month filter is the
    calendar month of the sale in any year, a month V8 reads as an
    invalid date selects nothing, the search selects by substring or by
    price, and the merge of the two fragments is their conjunction.  The
    filters are defined for any reading [LD] of the month strings that
    are not words. *)

From S2P Require Import Prelude Transaction JsRuntime Regex Query.

Module Predicates.

Import Query Regex.

Section Filters.

Context {LD : MonthParse.LegacyDateParse}.

(** [if (!month) return {};]: the parameter is absent or empty. *)
Definition falsy (s : option string) : bool :=
  match s with
  | None => true
  | Some t => String.eqb t ""
  end.

(** [monthIndex + 1], where [monthIndex] is [NaN] for an invalid date. *)
Definition month_number (month : string) : jsnum :=
  match MonthParse.month_index month with
  | Some k => JFinite (inject_Z (k + 1))
  | None => JNaN
  end.

Definition buildDateQuery (month : option string) : query :=
  match month with
  | Some m => if falsy month then [] else [("$expr", VMonthEq (month_number m))]
  | None => []
  end.

Definition searchQuery (searchText : option string) : query :=
  match searchText with
  | Some t =>
      if falsy searchText then []
      else [("$or", VOr [[("title", VCond (CondRegex t "i"))];
                         [("description", VCond (CondRegex t "i"))];
                         [("price", VCond (CondEqNum (ParseFloat.parseFloat t)))]])]
  | None => []
  end.

Definition listing_filter (searchText month : option string) : query :=
  spread (spread [] (searchQuery searchText)) (buildDateQuery month).

(** The fields a search text looks at, as [$regex] with [i] reads them. *)
Definition text_match (t : string) (field : string) : bool :=
  match parse_regex t with
  | Ok r => regex_test true r field
  | Err _ => false
  end.

(** ** Lemmas *)

Lemma doc_matches_single k v d : doc_matches [(k, v)] d = qv_matches d k v.
Proof. unfold doc_matches. simpl. by rewrite andb_true_r. Qed.

Lemma search_matches t d :
  t <> EmptyString ->
  doc_matches (searchQuery (Some t)) d =
    text_match t (title d) || text_match t (description d) ||
    num_eq (price d) (ParseFloat.parseFloat t).
Proof.
  intros Ht. unfold searchQuery, falsy. destruct (String.eqb_spec t "") as [->|_]; [done|].
  rewrite doc_matches_single. simpl. rewrite !andb_true_r, orb_false_r, orb_assoc.
  unfold text_match. by destruct (parse_regex t).
Qed.

Lemma date_matches m d :
  m <> EmptyString ->
  doc_matches (buildDateQuery (Some m)) d = month_eq d (month_number m).
Proof.
  intros Hm. unfold buildDateQuery, falsy. destruct (String.eqb_spec m "") as [->|_]; [done|].
  by rewrite doc_matches_single.
Qed.

Lemma keys_buildDateQuery m : keys (buildDateQuery m) = [] \/ keys (buildDateQuery m) = ["$expr"].
Proof. unfold buildDateQuery. destruct m as [m|]; [destruct (falsy _)|]; auto. Qed.

Lemma keys_searchQuery t : keys (searchQuery t) = [] \/ keys (searchQuery t) = ["$or"].
Proof. unfold searchQuery. destruct t as [t|]; [destruct (falsy _)|]; auto. Qed.

Lemma spread_searchQuery t : spread [] (searchQuery t) = searchQuery t.
Proof. unfold searchQuery. destruct t as [t|]; [destruct (falsy _)|]; done. Qed.

Lemma NoDup_keys_small (l : list string) : l = [] \/ (exists k, l = [k]) -> NoDup l.
Proof. intros [-> | [k ->]]; [constructor | apply NoDup_singleton]. Qed.

(** The merge appends the date fragment to the search fragment. *)
Lemma listing_filter_app searchText month :
  listing_filter searchText month = searchQuery searchText ++ buildDateQuery month.
Proof.
  unfold listing_filter. rewrite spread_searchQuery.
  destruct (keys_buildDateQuery month) as [E|E].
  - destruct (buildDateQuery month); [|discriminate]. by rewrite app_nil_r.
  - unfold buildDateQuery in *. destruct month as [m|]; [|discriminate].
    destruct (falsy (Some m)); [discriminate|].
    unfold spread. simpl. apply set_key_fresh.
    destruct (keys_searchQuery searchText) as [E'|E']; rewrite E'; simpl; intuition discriminate.
Qed.

(** Mongoose casts the date fragment without error: [$expr] is sent
    uncast. *)
Lemma castable_date month : castable (buildDateQuery month) = true.
Proof. unfold buildDateQuery. destruct month as [m|]; [destruct (falsy _)|]; done. Qed.

(** The search fragment casts exactly when [parseFloat] of the text is
    not [NaN]. *)
Lemma castable_search t :
  t <> EmptyString -> castable (searchQuery (Some t)) = num_castable (ParseFloat.parseFloat t).
Proof.
  intros Ht. unfold searchQuery, falsy. destruct (String.eqb_spec t "") as [->|_]; [done|].
  unfold castable. simpl. by rewrite !andb_true_r.
Qed.

Lemma Qeq_bool_inject_Z a b : Qeq_bool (inject_Z a) (inject_Z b) = (a =? b)%Z.
Proof.
  destruct (Z.eqb_spec a b) as [->|Hne].
  - apply Qeq_bool_refl.
  - apply Qeq_bool_false. intros H. apply Hne. by apply inject_Z_injective.
Qed.

Lemma month_index_nonempty m k : MonthParse.month_index m = Some k -> m <> EmptyString.
Proof. by intros H ->. Qed.

Lemma listing_filter_conj searchText month d :
  doc_matches (listing_filter searchText month) d =
  doc_matches (searchQuery searchText) d && doc_matches (buildDateQuery month) d.
Proof.
  unfold listing_filter. rewrite spread_searchQuery. apply spread_disjoint.
  - intros k Hk Hk'.
    destruct (keys_buildDateQuery month) as [E|E]; rewrite E in Hk; [done|].
    destruct (keys_searchQuery searchText) as [E'|E']; rewrite E' in Hk'; [done|].
    destruct Hk as [<-|[]]. destruct Hk' as [Hk'|[]]. discriminate.
  - apply NoDup_keys_small. destruct (keys_buildDateQuery month) as [E|E]; rewrite E; eauto.
Qed.

(** The filter of [/transactions],
    [{...searchQuery, ...dateQuery}], selects exactly the documents that
    both fragments select: the two fragments never share a key. *)
Theorem listing_filter_and searchText month d :
  doc_matches (listing_filter searchText month) d =
  doc_matches (searchQuery searchText) d && doc_matches (buildDateQuery month) d.
Proof. apply listing_filter_conj. Qed.

Lemma date_filter_month m k d :
  MonthParse.month_index m = Some k ->
  doc_matches (buildDateQuery (Some m)) d = (Calendar.month_of_date (dateOfSale d) =? k + 1)%Z.
Proof.
  intros Hk. rewrite date_matches by (eapply month_index_nonempty; eauto).
  unfold month_eq, month_number. rewrite Hk. simpl. apply Qeq_bool_inject_Z.
Qed.

(** [C5] For a month name that parses to
    index [k], the month filter selects a transaction exactly when
    [$month] of its [dateOfSale] is [k + 1]. *)
Theorem month_filter_selects_month m k d :
  MonthParse.month_index m = Some k ->
  doc_matches (buildDateQuery (Some m)) d = (Calendar.month_of_date (dateOfSale d) =? k + 1)%Z.
Proof. apply date_filter_month. Qed.

(** The month filter does not look at
    the year: a sale on any valid date of the selected month, in any year
    and at any time of that day, is selected. *)
Theorem month_filter_year_independent m k y dd t d :
  MonthParse.month_index m = Some k ->
  Calendar.valid_date y (k + 1) dd = true -> (0 <= t < Calendar.ms_per_day)%Z ->
  dateOfSale d = Calendar.date_of y (k + 1) dd t ->
  doc_matches (buildDateQuery (Some m)) d = true.
Proof.
  intros Hk Hv Ht Hd. rewrite (date_filter_month _ _ _ Hk), Hd.
  rewrite Calendar.month_of_date_of by done. apply Z.eqb_refl.
Qed.

(** [C32] A non-empty month string that names
    no month gives [NaN] as the month number, and the filter then selects
    no transaction at all: an invalid month is not rejected, it silently
    empties every result. *)
Theorem month_filter_invalid_empty m d :
  m <> EmptyString -> MonthParse.month_index m = None ->
  doc_matches (buildDateQuery (Some m)) d = false.
Proof.
  intros Hm Hk. rewrite date_matches by done. unfold month_eq, month_number. by rewrite Hk.
Qed.

(** Without a month, or with an empty one, the
    date filter is empty and selects every transaction. *)
Theorem no_month_selects_all month d :
  falsy month = true -> doc_matches (buildDateQuery month) d = true.
Proof. unfold buildDateQuery. destruct month as [m|]; [|done]. intros ->. done. Qed.


(** A search text whose first non-blank
    character can start no number never selects by price: only the title
    and the description are searched. *)
Theorem search_text_no_price t c r d :
  t <> EmptyString -> ParseFloat.trim_start t = String c r -> ParseFloat.digit_value c = None ->
  c <> "."%char -> c <> "+"%char -> c <> "-"%char -> c <> "I"%char ->
  doc_matches (searchQuery (Some t)) d = text_match t (title d) || text_match t (description d).
Proof.
  intros Ht Htrim Hd Hdot Hp Hm HI. rewrite search_matches by done.
  rewrite (ParseFloat.parseFloat_NaN t c r) by done. apply orb_false_r.
Qed.

End Filters.

(** ** Witnesses *)

#[local] Existing Instance MonthParse.legacy_invalid.

Lemma month_filter_selects_month_witness :
  MonthParse.month_index "March" = Some 2%Z /\
  doc_matches (buildDateQuery (Some "March"))
    (mkData 1 "t" 10 "d" "c" "i" true (Calendar.date_of 2022 3 15 0)) = true.
Proof.
  split; [reflexivity|].
  rewrite (month_filter_selects_month "March" 2); [|reflexivity]. vm_compute. reflexivity.
Defined.

Lemma month_filter_year_independent_witness :
  MonthParse.month_index "March" = Some 2%Z /\
  Calendar.valid_date 1999 3 31 = true /\ (0 <= 0 < Calendar.ms_per_day)%Z /\
  dateOfSale (mkData 1 "t" 10 "d" "c" "i" true (Calendar.date_of 1999 3 31 0)) = Calendar.date_of 1999 3 31 0 /\
  doc_matches (buildDateQuery (Some "March")) (mkData 1 "t" 10 "d" "c" "i" true (Calendar.date_of 1999 3 31 0)) = true.
Proof.
  split; [reflexivity|]. split; [reflexivity|]. split; [unfold Calendar.ms_per_day; lia|].
  split; [reflexivity|].
  apply (month_filter_year_independent "March" 2 1999 31 0); [reflexivity | reflexivity | unfold Calendar.ms_per_day; lia | reflexivity].
Defined.

Lemma month_filter_invalid_empty_witness :
  "Foo" <> EmptyString /\ MonthParse.month_index "Foo" = None /\
  doc_matches (buildDateQuery (Some "Foo")) (mkData 1 "t" 10 "d" "c" "i" true 0) = false.
Proof.
  split; [done|]. split; [reflexivity|]. apply month_filter_invalid_empty; [done | reflexivity].
Defined.


Lemma search_text_no_price_witness :
  doc_matches (searchQuery (Some "abc")) (mkData 7 "Laptop" 42 "fast" "electronics" "i" false 0) =
  text_match "abc" "Laptop" || text_match "abc" "fast".
Proof. apply (search_text_no_price "abc" "a" "bc"); reflexivity || discriminate. Defined.

End Predicates.
