(* ===== verification/Listing.v ===== *)
(** * Listing: the [GET /transactions] handler (server.js lines 55-92)

    The handler reads [page] (default 1), [perPage] (default 10),
    [searchText] and [month]; computes [skip = (page - 1) * perPage];
    counts the documents matching [{...searchQuery, ...dateQuery}];
    fetches them with [.skip(skip).limit(perPage)]; answers 404 when the
    page is empty and otherwise the page with [page], [perPage] and
    [totalPages = Math.ceil(totalTransactions / perPage)].  Any failure of
    the store is caught and answered with a 500: among them Mongoose's
    [CastError] on the [{ price: NaN }] of a search text that starts no
    number, which makes every such search a 500.

    [page] and [perPage] are the integers the handler computes with;
    [Request] reads them from the query strings ([ToNumber], and
    [parseInt] for the reported page) and runs this handler on them.
    The handler is written against the [MongoStore] interface and its
    theorems use only the laws of [MongoStoreSpec]. *)

From S2P Require Import Prelude Transaction JsRuntime Regex Query Predicates.

Module Listing.

Import Query Predicates.

(** ** Responses *)

Inductive response (A : Type) : Type :=
| R200 (body : A)
| R404 (message : string)
| R500 (message : string)
| RUnmodelled.
Arguments R200 {A} _.
Arguments R404 {A} _.
Arguments R500 {A} _.
Arguments RUnmodelled {A}.

(** [catch (err) { res.status(500)... }]; a pattern outside the regular
    expression model gives no answer. *)
Definition catch_error {A} (msg : string) (e : store_error) : response A :=
  match e with
  | Unmodelled => RUnmodelled
  | _ => R500 msg
  end.

Record ListingBody : Type := mkListing {
  transactions : list Data;
  page : Z;
  perPage : Z;
  totalPages : option Q      (** [null] when [Math.ceil] gives [NaN] or [Infinity] *)
}.

Record ListingParams : Type := mkParams {
  p_page : option Z;
  p_perPage : option Z;
  p_searchText : option string;
  p_month : option string
}.

Definition DEFAULT_PAGE : Z := 1.
Definition DEFAULT_PER_PAGE : Z := 10.

Definition with_default (d : Z) (o : option Z) : Z :=
  match o with Some v => v | None => d end.

Section Handler.

Context {St : Type} `{MongoStoreSpec St}.
Context {LD : MonthParse.LegacyDateParse}.

Definition get_transactions (s : St) (params : ListingParams) : response ListingBody :=
  let page := with_default DEFAULT_PAGE (p_page params) in
  let perPage := with_default DEFAULT_PER_PAGE (p_perPage params) in
  let skip := ((page - 1) * perPage)%Z in
  let filter := listing_filter (p_searchText params) (p_month params) in
  match countDocuments s filter with
  | Err e => catch_error "Error retrieving transactions" e
  | Ok totalTransactions =>
      match find_skip_limit s filter skip perPage with
      | Err e => catch_error "Error retrieving transactions" e
      | Ok txs =>
          if (length txs =? 0)%nat then R404 "No transactions found"
          else R200 (mkListing txs page perPage
                       (MathCeil.json_number (MathCeil.ceil_div totalTransactions perPage)))
      end
  end.

(** A 200 answer reports the page and [perPage] it computed with. *)
Lemma get_transactions_R200_fields s params b :
  get_transactions s params = R200 b ->
  page b = with_default DEFAULT_PAGE (p_page params) /\
  perPage b = with_default DEFAULT_PER_PAGE (p_perPage params).
Proof.
  unfold get_transactions, catch_error.
  repeat case_match; intros; simplify_eq; done.
Qed.

(** ** Reference: the page a listing should show *)

(** The [perPage] matches after the first [(page - 1) * perPage]. *)
Definition page_items (ms : list Data) (page perPage : Z) : list Data :=
  firstn (Z.to_nat perPage) (skipn (Z.to_nat ((page - 1) * perPage)) ms).

(** ** Lemmas *)

Lemma apply_limit_pos {A} (n : Z) (l : list A) : (0 < n)%Z -> apply_limit n l = firstn (Z.to_nat n) l.
Proof. intros Hn. unfold apply_limit. destruct (Z.eqb_spec n 0); [lia|]. by rewrite Z.abs_eq by lia. Qed.

Lemma find_ok s q k n :
  connected s = true -> filter_check q = Ok tt -> (0 <= k)%Z ->
  find_skip_limit s q k n = Ok (apply_limit n (skipn (Z.to_nat k) (matching q (documents s)))).
Proof.
  intros Hc [Hcast Hq]%filter_check_ok Hk. rewrite find_spec, Hcast, Hc, Hq. simpl.
  destruct (Z.ltb_spec k 0); [lia | done].
Qed.

Lemma count_ok s q :
  connected s = true -> filter_check q = Ok tt ->
  countDocuments s q = Ok (length (matching q (documents s))).
Proof. intros Hc [Hcast Hq]%filter_check_ok. by rewrite countDocuments_spec, Hcast, Hc, Hq. Qed.

(** A count that succeeds had a filter that casts and compiles. *)
Lemma count_Ok_check s q n : countDocuments s q = Ok n -> filter_check q = Ok tt.
Proof.
  rewrite countDocuments_spec, filter_check_ok.
  destruct (castable q), (connected s), (query_check q) as [[]|]; done.
Qed.

(** A count on a filter Mongoose cannot cast fails with [CastError],
    whatever the state of the connection. *)
Lemma count_cast_error s q : castable q = false -> countDocuments s q = Err CastError.
Proof. intros Hq. by rewrite countDocuments_spec, Hq. Qed.

(** A 200 answer of [/transactions] comes from a filter that casts and
    compiles. *)
Lemma get_transactions_R200_check s params b :
  get_transactions s params = R200 b ->
  filter_check (listing_filter (p_searchText params) (p_month params)) = Ok tt.
Proof.
  unfold get_transactions, catch_error.
  destruct (countDocuments s _) eqn:E; [intros _; by eapply count_Ok_check|]. by destruct e.
Qed.

Lemma page_items_empty ms page perPage :
  (1 <= page)%Z -> (1 <= perPage)%Z ->
  page_items ms page perPage = [] <-> (Z.of_nat (length ms) <= (page - 1) * perPage)%Z.
Proof.
  intros Hp Hpp. unfold page_items. rewrite <- length_zero_iff_nil, length_firstn_skipn.
  assert (Ho : (0 <= (page - 1) * perPage)%Z) by nia. revert Ho. generalize ((page - 1) * perPage)%Z. lia.
Qed.

Lemma query_check_app a b :
  query_check (a ++ b) = res_bind (query_check a) (fun _ => query_check b).
Proof.
  induction a as [|kv a IH]; simpl; [done|]. rewrite IH. by destruct (qv_check (snd kv)).
Qed.

Lemma res_bind_unit {E} (r : result unit E) : res_bind r (fun _ => Ok tt) = r.
Proof. by destruct r as [[]|]. Qed.

(** The date fragment has no regular expression: the listing filter
    compiles when the search fragment does. *)
Lemma query_check_listing searchText month :
  query_check (listing_filter searchText month) = query_check (searchQuery searchText).
Proof.
  rewrite listing_filter_app, query_check_app.
  unfold buildDateQuery. destruct month as [m|]; [destruct (falsy _)|]; simpl; apply res_bind_unit.
Qed.

(** ... and it casts when the search fragment does. *)
Lemma castable_listing searchText month :
  castable (listing_filter searchText month) = castable (searchQuery searchText).
Proof. by rewrite listing_filter_app, castable_app, castable_date, andb_true_r. Qed.

Lemma filter_check_listing searchText month :
  filter_check (listing_filter searchText month) = filter_check (searchQuery searchText).
Proof. unfold filter_check. by rewrite castable_listing, query_check_listing. Qed.

Lemma transactions_answer s params :
  let pg := with_default DEFAULT_PAGE (p_page params) in
  let pp := with_default DEFAULT_PER_PAGE (p_perPage params) in
  let ms := matching (listing_filter (p_searchText params) (p_month params)) (documents s) in
  connected s = true ->
  filter_check (listing_filter (p_searchText params) (p_month params)) = Ok tt ->
  (1 <= pg)%Z -> (1 <= pp)%Z ->
  get_transactions s params =
    match page_items ms pg pp with
    | [] => R404 "No transactions found"
    | items => R200 (mkListing items pg pp (Some (inject_Z ((Z.of_nat (length ms) + pp - 1) / pp))))
    end.
Proof.
  intros pg pp ms Hc Hq Hpg Hpp. unfold get_transactions. fold pg pp.
  rewrite count_ok, find_ok by (done || nia).
  rewrite apply_limit_pos by lia. fold ms. fold (page_items ms pg pp).
  rewrite MathCeil.ceil_div_pos by lia.
  destruct (page_items ms pg pp); done.
Qed.




(** [C3] A 200 answer carries
    [min(perPage, total - offset)] transactions and [totalPages] equal
    to the ceiling of [total / perPage], as the spec states. *)
Theorem get_transactions_sizes s params body :
  let pg := with_default DEFAULT_PAGE (p_page params) in
  let pp := with_default DEFAULT_PER_PAGE (p_perPage params) in
  let n := length (matching (listing_filter (p_searchText params) (p_month params)) (documents s)) in
  connected s = true ->
  query_check (listing_filter (p_searchText params) (p_month params)) = Ok tt ->
  (1 <= pg)%Z -> (1 <= pp)%Z ->
  get_transactions s params = R200 body ->
  length (transactions body) = Nat.min (Z.to_nat pp) (n - Z.to_nat ((pg - 1) * pp)) /\
  totalPages body = Some (inject_Z ((Z.of_nat n + pp - 1) / pp)) /\
  (0 < (Z.of_nat n + pp - 1) / pp)%Z.
Proof.
  intros pg pp n Hc _ Hpg Hpp HR. pose proof (get_transactions_R200_check _ _ _ HR) as Hq.
  revert HR. rewrite transactions_answer by done. fold pg pp.
  destruct (page_items _ pg pp) as [|t ts] eqn:E; [done|]. intros [= <-]. cbn [transactions totalPages].
  assert (Hne : page_items (matching (listing_filter (p_searchText params) (p_month params)) (documents s)) pg pp <> [])
    by (rewrite E; done).
  rewrite page_items_empty in Hne by done. fold n in Hne.
  split; [|split; [done|]].
  - rewrite <- E. unfold page_items. by rewrite length_firstn_skipn.
  - apply Z.div_str_pos. nia.
Qed.

(** When the store is unreachable [/transactions] answers 500. *)
Lemma get_transactions_down s params :
  connected s = false -> get_transactions s params = R500 "Error retrieving transactions".
Proof.
  intros Hc. unfold get_transactions. rewrite countDocuments_spec, Hc. by destruct (castable _).
Qed.

Lemma nonpositive_page_answer s params :
  let pg := with_default DEFAULT_PAGE (p_page params) in
  let pp := with_default DEFAULT_PER_PAGE (p_perPage params) in
  connected s = true ->
  query_check (listing_filter (p_searchText params) (p_month params)) = Ok tt ->
  (pg <= 0)%Z -> (1 <= pp)%Z ->
  get_transactions s params = R500 "Error retrieving transactions".
Proof.
  intros pg pp Hc Hq Hpg Hpp. unfold get_transactions. fold pg pp.
  destruct (castable (listing_filter (p_searchText params) (p_month params))) eqn:Hcast;
    [|by rewrite count_cast_error].
  rewrite count_ok by (done || by apply filter_check_ok). rewrite find_spec, Hcast, Hc, Hq. simpl.
  destruct (Z.ltb_spec ((pg - 1) * pp) 0); [done | nia].
Qed.

(** A page number of zero or
    below makes the skip negative, which MongoDB refuses: the handler
    answers 500 instead of validating the parameter. *)
Theorem get_transactions_nonpositive_page s params :
  let pg := with_default DEFAULT_PAGE (p_page params) in
  let pp := with_default DEFAULT_PER_PAGE (p_perPage params) in
  connected s = true ->
  query_check (listing_filter (p_searchText params) (p_month params)) = Ok tt ->
  (pg <= 0)%Z -> (1 <= pp)%Z ->
  get_transactions s params = R500 "Error retrieving transactions".
Proof. apply nonpositive_page_answer. Qed.





(** [C13] A search text that [parseFloat] reads as [NaN], such as
    ["shirt"], puts [{ price: NaN }] in the [$or] of the filter.
    Mongoose's cast refuses it with a [CastError] before anything is sent
    to MongoDB, and [/transactions] answers 500, whatever the store, the
    page and the month: the text is never searched in the titles and
    descriptions, where the spec only leaves out the price branch. *)
Theorem get_transactions_search_NaN s params t :
  p_searchText params = Some t -> t <> EmptyString -> ParseFloat.parseFloat t = JNaN ->
  get_transactions s params = R500 "Error retrieving transactions".
Proof.
  intros Hst Hne Hnan. unfold get_transactions.
  rewrite count_cast_error; [done|].
  rewrite castable_listing, Hst. unfold searchQuery, falsy.
  destruct (String.eqb_spec t "") as [|_]; [done|]. unfold castable. simpl. by rewrite Hnan.
Qed.

Definition listed_items (r : response ListingBody) : list Data :=
  match r with R200 b => transactions b | _ => [] end.

Lemma pages_concat {A} (l : list A) (k m : nat) :
  concat (map (fun i => firstn k (skipn (i * k) l)) (seq 0 m)) = firstn (m * k) l.
Proof.
  induction m as [|m IH]; [done|].
  rewrite seq_S, map_app, concat_app, IH. simpl. rewrite app_nil_r.
  rewrite take_take_drop. f_equal. lia.
Qed.


End Handler.

#[local] Existing Instance MonthParse.legacy_invalid.

Definition two_shirts : Collection :=
  mkCollection [mkData 1 "Shirt" 20 "cotton" "clothing" "i" true 0;
                mkData 2 "Shirt" 30 "linen" "clothing" "i" false 0] true.


Lemma get_transactions_sizes_witness :
  let body := mkListing [mkData 2 "Shirt" 30 "linen" "clothing" "i" false 0] 2 1 (Some (inject_Z 2)) in
  let n := length (matching (listing_filter None None) (documents two_shirts)) in
  get_transactions two_shirts (mkParams (Some 2%Z) (Some 1%Z) None None) = R200 body /\
  length (transactions body) = Nat.min (Z.to_nat 1) (n - Z.to_nat ((2 - 1) * 1)) /\
  totalPages body = Some (inject_Z ((Z.of_nat n + 1 - 1) / 1)) /\
  (0 < (Z.of_nat n + 1 - 1) / 1)%Z.
Proof.
  intros body n.
  assert (E : get_transactions two_shirts (mkParams (Some 2%Z) (Some 1%Z) None None) = R200 body)
    by (vm_compute; reflexivity).
  split; [exact E|].
  exact (get_transactions_sizes two_shirts (mkParams (Some 2%Z) (Some 1%Z) None None) body
           eq_refl eq_refl ltac:(cbn; lia) ltac:(cbn; lia) E).
Defined.


Lemma get_transactions_nonpositive_page_witness :
  let c := mkCollection [mkData 1 "Shirt" 20 "cotton" "clothing" "i" true 0] true in
  connected c = true /\ query_check (listing_filter None None) = Ok tt /\
  get_transactions c (mkParams (Some 0%Z) None None None) = R500 "Error retrieving transactions".
Proof.
  intros c. split; [reflexivity|]. split; [reflexivity|].
  apply (get_transactions_nonpositive_page c (mkParams (Some 0%Z) None None None));
    [reflexivity | reflexivity | cbn; unfold DEFAULT_PAGE, DEFAULT_PER_PAGE; lia | cbn; unfold DEFAULT_PAGE, DEFAULT_PER_PAGE; lia].
Defined.



Lemma get_transactions_search_NaN_witness :
  get_transactions two_shirts (mkParams None None (Some "shirt") (Some "March")) =
  R500 "Error retrieving transactions".
Proof. apply (get_transactions_search_NaN _ _ "shirt"); [reflexivity | discriminate | reflexivity]. Defined.


End Listing.
