(* ===== verification/PredicateSpec.v ===== *)
(** * PredicateSpec: the predicates of the spec and the filters that refine them

    The spec describes the filter of a request as a predicate over
    records: the identity predicate, the month predicate ("[dateOfSale]
    falls in that calendar month in any year", one of the twelve English
    month names), the search predicate ("title contains the text
    case-insensitively, or description does, or price equals the numeric
    interpretation of the text") and their conjunction; its section on
    redesign names exactly this tagged type.  [pred] and [eval] are that
    abstract specification, with [request_pred] the predicate of a
    request's [searchText] and [month].

    [listing_filter_refines] states that on every request where the
    spec's words and the code's behaviour are both defined, the Mongo
    filter built by server.js ([listing_filter], through [searchQuery]
    and [buildDateQuery]) selects exactly the records the spec's
    predicate accepts; [listing_refines_spec] lifts it to the handler:
    [/transactions] answers the page of the records the spec's predicate
    accepts.  The hypothesis [valid_request] names the domain: a month
    that is one of the twelve names, and a search text with no
    regular-expression metacharacter that is a numeral, so that
    [parseFloat] gives a number Mongoose can cast.  Outside it the code
    departs from the spec, as the findings record: a text that is no
    number makes the handler answer 500 ([Listing]). *)

From S2P Require Import Prelude Transaction JsRuntime Regex Query Predicates Listing.

Module PredicateSpec.

Import Query Predicates Listing.

(** ** The abstract predicates *)

Inductive pred : Type :=
| PAll
| PMonth (n : Z)
| PSearch (t : string)
| PAnd (p q : pred).

(** "contains the text case-insensitively" *)
Definition contains_ci (field t : string) : bool :=
  JsString.includes (lower_string field) (lower_string t).

(** The text before the first point, and the text after it if there is
    one. *)
Fixpoint split_dot (s : string) : string * option string :=
  match s with
  | EmptyString => (EmptyString, None)
  | String c s' =>
      if (c =? ".")%char then (EmptyString, Some s')
      else let '(a, b) := split_dot s' in (String c a, b)
  end.

(** The numeric interpretation of a text: a decimal numeral, digits with
    an optional point followed by digits. *)
Definition spec_number (t : string) : option Q :=
  match split_dot t with
  | (ip, None) =>
      if ParseFloat.all_digits ip && negb (String.eqb ip "") then
        Some (inject_Z (ParseFloat.digits_to_Z (ParseFloat.digit_values ip)))
      else None
  | (ip, Some fp) =>
      if ParseFloat.all_digits ip && ParseFloat.all_digits fp && negb (String.eqb ip "") && negb (String.eqb fp "") then
        Some (inject_Z (ParseFloat.digits_to_Z (ParseFloat.digit_values ip ++ ParseFloat.digit_values fp)) *
              Qpower (inject_Z 10) (- Z.of_nat (length (ParseFloat.digit_values fp))))%Q
      else None
  end.

Fixpoint eval (p : pred) (d : Data) : bool :=
  match p with
  | PAll => true
  | PMonth n => (Calendar.month_of_date (dateOfSale d) =? n)%Z
  | PSearch t =>
      contains_ci (title d) t || contains_ci (description d) t ||
      match spec_number t with Some v => Qeq_bool (price d) v | None => false end
  | PAnd p q => eval p d && eval q d
  end.

Fixpoint position (m : string) (l : list string) : option nat :=
  match l with
  | [] => None
  | x :: l' => if String.eqb m x then Some 0%nat else option_map S (position m l')
  end.

(** The month number of one of the twelve names, case-sensitive. *)
Definition spec_month (m : string) : option Z :=
  option_map (fun i => Z.of_nat i + 1)%Z (position m MonthParse.months).

(** The predicate of a request; an unknown month, which the spec leaves
    undefined, is taken as a month number no date has. *)
Definition request_pred (searchText month : option string) : pred :=
  PAnd (match searchText with
        | Some t => if String.eqb t "" then PAll else PSearch t
        | None => PAll
        end)
       (match month with
        | Some m => if String.eqb m "" then PAll else PMonth (default 0%Z (spec_month m))
        | None => PAll
        end).

(** ** The domain where the spec and the code are both defined *)

Definition search_text_ok (t : string) : bool :=
  Regex.is_plain t && has_value (spec_number t).

Definition valid_request (searchText month : option string) : bool :=
  match searchText with None => true | Some t => String.eqb t "" || search_text_ok t end &&
  match month with None => true | Some m => String.eqb m "" || has_value (spec_month m) end.

(** ** Lemmas *)


Lemma split_dot_none s a : split_dot s = (a, None) -> s = a.
Proof.
  revert a. induction s as [|c s IH]; simpl; intros a H; [by injection H as <-|].
  destruct (c =? ".")%char; [discriminate|].
  destruct (split_dot s) as [a' b] eqn:E. injection H as <- ->. by rewrite (IH a').
Qed.

Lemma split_dot_some s a b : split_dot s = (a, Some b) -> s = (a ++ String "." b)%string.
Proof.
  revert a. induction s as [|c s IH]; simpl; intros a H; [discriminate|].
  destruct (Ascii.eqb_spec c ".") as [->|_]; [by injection H as <- <-|].
  destruct (split_dot s) as [a' b'] eqn:E. injection H as <- ->. by rewrite (IH a').
Qed.

(** A decimal numeral is read by [parseFloat] as its value. *)
Lemma spec_number_parseFloat t v : spec_number t = Some v -> ParseFloat.parseFloat t ≃ JFinite v.
Proof.
  unfold spec_number. destruct (split_dot t) as [ip [fp|]] eqn:E.
  - apply split_dot_some in E as ->.
    destruct (ParseFloat.all_digits ip) eqn:Hi, (ParseFloat.all_digits fp) eqn:Hf,
      (String.eqb_spec ip ""), (String.eqb_spec fp ""); try discriminate.
    intros [= <-]. rewrite <- (string_app_nil_r fp) at 1.
    by apply ParseFloat.parseFloat_decimal.
  - apply split_dot_none in E as ->.
    destruct (ParseFloat.all_digits ip) eqn:Hi, (String.eqb_spec ip ""); try discriminate.
    intros [= <-]. rewrite <- (string_app_nil_r ip) at 1.
    apply ParseFloat.parseFloat_integer; [done | done | done | intros r; discriminate | done].
Qed.

Lemma price_refines t q :
  search_text_ok t = true ->
  num_eq q (ParseFloat.parseFloat t) =
  match spec_number t with Some v => Qeq_bool q v | None => false end.
Proof.
  unfold search_text_ok. rewrite andb_true_iff. intros [_ Hn].
  destruct (spec_number t) as [v|] eqn:E; [|discriminate].
  by rewrite (spec_number_parseFloat t v E).
Qed.

(** A plain search text selects by case-insensitive substring. *)
Lemma text_match_plain t w : Regex.is_plain t = true -> text_match t w = contains_ci w t.
Proof.
  intros Hp. destruct (Regex.plain_search_iff t w Hp) as (r & Hr & Hiff).
  unfold text_match, contains_ci. rewrite Hr. apply Bool.eq_iff_eq_true.
  by rewrite Hiff, JsString.includes_spec, length_lower.
Qed.

Lemma search_refines t d :
  t <> EmptyString -> search_text_ok t = true ->
  doc_matches (searchQuery (Some t)) d = eval (PSearch t) d.
Proof.
  intros Hne Hok. rewrite search_matches by done. simpl.
  assert (Hp : Regex.is_plain t = true) by (unfold search_text_ok in Hok; apply andb_prop in Hok; tauto).
  by rewrite !text_match_plain, price_refines by done.
Qed.

Section Refinement.

Context {St : Type} `{MSS : MongoStoreSpec St}.
Context {LD : MonthParse.LegacyDateParse}.

Lemma position_lookup m l i : position m l = Some i -> l !! i = Some m.
Proof.
  revert i. induction l as [|x l IH]; simpl; intros i; [discriminate|].
  destruct (String.eqb_spec m x) as [->|_]; [by intros [= <-]|].
  destruct (position m l) as [j|] eqn:E; simpl; [|discriminate]. intros [= <-]. simpl. by apply IH.
Qed.

Lemma month_refines m n d :
  spec_month m = Some n -> doc_matches (buildDateQuery (Some m)) d = eval (PMonth n) d.
Proof.
  unfold spec_month. destruct (position m MonthParse.months) as [i|] eqn:E; cbn [option_map]; [|discriminate].
  intros [= <-]. apply position_lookup in E.
  by rewrite (date_filter_month m (Z.of_nat i)) by (by apply MonthParse.month_index_nth).
Qed.

(** On the requests where both are defined, the filter of
    [/transactions] selects exactly the records that the spec's predicate
    for the request accepts. *)
Lemma listing_filter_refines searchText month d :
  valid_request searchText month = true ->
  doc_matches (listing_filter searchText month) d = eval (request_pred searchText month) d.
Proof.
  unfold valid_request. rewrite andb_true_iff. intros [Hs Hm].
  rewrite listing_filter_conj. simpl. f_equal.
  - destruct searchText as [t|]; [|reflexivity].
    destruct (String.eqb_spec t "") as [->|Hne]; [reflexivity|]. by apply search_refines.
  - destruct month as [m|]; [|reflexivity].
    destruct (String.eqb_spec m "") as [->|Hne]; [reflexivity|]. simpl in Hm.
    destruct (spec_month m) as [n|] eqn:E; [|discriminate]. by apply month_refines.
Qed.

(** On those requests Mongoose casts the filter and MongoDB compiles it:
    the numeral is a number, and a plain text is a valid pattern. *)
Lemma valid_request_check searchText month :
  valid_request searchText month = true -> filter_check (listing_filter searchText month) = Ok tt.
Proof.
  unfold valid_request. rewrite andb_true_iff. intros [Hs _].
  rewrite filter_check_listing. destruct searchText as [t|]; [|done].
  destruct (String.eqb_spec t "") as [->|Hne]; [done|]. simpl in Hs.
  unfold search_text_ok in Hs. apply andb_prop in Hs as [Hp Hn].
  destruct (spec_number t) as [v|] eqn:E; [|discriminate].
  apply filter_check_ok. split.
  - rewrite castable_search by done.
    pose proof (spec_number_parseFloat t v E) as Hv. by destruct (ParseFloat.parseFloat t).
  - destruct (Regex.plain_search_iff t "" Hp) as (r & Hr & _).
    unfold searchQuery, falsy. destruct (String.eqb_spec t "") as [|_]; [done|].
    cbn [query_check qv_check cond_check fold_right snd]. by rewrite Hr.
Qed.

(** [C6] Refinement of the listing: on every request where the spec
    and the code are both defined (a month among the twelve names or
    none, a search text without regular-expression metacharacters that
    is a numeral, or none), with the store up and [page], [perPage]
    at least 1, [/transactions] answers the [perPage] records after the
    first [(page - 1) * perPage] among those the spec's predicate for
    the request accepts (the month, the case-insensitive search of title
    and description with the numeric match on price, and their
    conjunction), and 404 when there are none there. *)
Theorem listing_refines_spec s params :
  let pg := with_default DEFAULT_PAGE (p_page params) in
  let pp := with_default DEFAULT_PER_PAGE (p_perPage params) in
  let ms := List.filter (eval (request_pred (p_searchText params) (p_month params))) (documents s) in
  valid_request (p_searchText params) (p_month params) = true ->
  connected s = true -> (1 <= pg)%Z -> (1 <= pp)%Z ->
  get_transactions s params =
    match page_items ms pg pp with
    | [] => R404 "No transactions found"
    | items => R200 (mkListing items pg pp (Some (inject_Z ((Z.of_nat (length ms) + pp - 1) / pp))))
    end.
Proof.
  intros pg pp ms Hv Hc Hpg Hpp. pose proof (valid_request_check _ _ Hv) as Hq.
  unfold get_transactions. fold pg pp.
  rewrite count_ok, find_ok by (done || nia).
  rewrite apply_limit_pos, MathCeil.ceil_div_pos by lia. unfold matching.
  rewrite (List.filter_ext _ _ (fun d => listing_filter_refines _ _ d Hv)). fold ms.
  fold (page_items ms pg pp). by destruct (page_items ms pg pp).
Qed.

End Refinement.

#[local] Existing Instance MonthParse.legacy_invalid.

(** A numeral searched in March: the records the spec selects. *)
Lemma listing_refines_spec_witness :
  let c := mkCollection
    [mkData 1 "Mens Casual Shirt" 42 "cotton" "men's clothing" "i" true (Calendar.date_of 2021 3 3 0);
     mkData 2 "Ring 42" 10 "gold" "jewelery" "i" false (Calendar.date_of 2022 3 9 0);
     mkData 3 "Backpack" 42 "bag" "bags" "i" true (Calendar.date_of 2022 4 1 0)] true in
  let params := mkParams None None (Some "42") (Some "March") in
  valid_request (Some "42") (Some "March") = true /\
  get_transactions c params =
    R200 (mkListing (List.firstn 2 (coll_docs c)) 1 10 (Some 1%Q)).
Proof.
  intros c params. split; [reflexivity|].
  rewrite (listing_refines_spec c params); [vm_compute; reflexivity | reflexivity | reflexivity | cbn; unfold DEFAULT_PAGE; lia | cbn; unfold DEFAULT_PER_PAGE; lia].
Defined.

End PredicateSpec.
