(* ===== verification/Aggregation.v ===== *)
(** * Aggregation: [/statistics], [/barchart] and [/piechart]

    The three aggregation handlers (server.js lines 96-163) read only the
    [month] parameter and filter with [buildDateQuery]:

    - [get_statistics] runs the [$group]/[$sum] pipeline over the prices
      and two [countDocuments] with [sold: true] and [sold: false];
    - [get_barchart] runs one [countDocuments] per range of
      [priceRanges] with [price: { $gte: min, $lt: max + 1 }] (the last
      range is open), combined by [Promise.all] in the order of the
      ranges;
    - [get_piechart] runs the [$group] by category.

    The handlers are written against the [MongoStore] interface.  The
    theorems give each answer from the matching documents, show that the
    ten ranges classify every non-negative price into exactly one bucket
    ([bucket_index]) and that their counts add up to the number of
    matches with a non-negative price, that [get_barchart_settled],
    which runs [Promise.all] over the order in which the ten counts
    settle, answers as [get_barchart] for every such order, and that
    the category counts are those of the matches in whatever order
    MongoDB groups them. *)

From S2P Require Import Prelude Transaction JsRuntime Promises Regex Query Predicates Listing.

Module Aggregation.

Import Query Predicates Listing PromiseAll.

(** ** Statistics *)

Record Stats : Type := mkStats {
  totalSaleAmount : Q;
  totalSoldItems : nat;
  totalNotSoldItems : nat
}.

(** [{ ...dateQuery, sold: b }] *)
Definition sold_filter (dateQuery : query) (b : bool) : query :=
  spread (spread [] dateQuery) [("sold", VCond (CondEqBool b))].

(** ** Bar chart *)

Inductive zinf : Type := ZFin (z : Z) | ZInfinity.

Definition priceRanges : list (Z * zinf) :=
  [(0, ZFin 100); (101, ZFin 200); (201, ZFin 300); (301, ZFin 400); (401, ZFin 500);
   (501, ZFin 600); (601, ZFin 700); (701, ZFin 800); (801, ZFin 900); (901, ZInfinity)]%Z.

(** [max === Infinity ? max : max + 1] *)
Definition upper_bound (mx : zinf) : jsnum :=
  match mx with
  | ZInfinity => JInfinity false
  | ZFin m => JFinite (inject_Z (m + 1))
  end.

Definition bucket_filter (dateQuery : query) (mn : Z) (mx : zinf) : query :=
  spread (spread [] dateQuery)
    [("price", VCond (CondRange (JFinite (inject_Z mn)) (upper_bound mx)))].

(** [`${min}-${max === Infinity ? 'above' : max}`] *)
Definition range_label (mn : Z) (mx : zinf) : string :=
  (int_to_string mn ++ "-" ++
   match mx with ZInfinity => "above" | ZFin m => int_to_string m end)%string.

Record Bar : Type := mkBar { range : string; count : nat }.

(** The bucket of a price, as the ranges are meant: the first bucket
    holds the prices from 0 up to, excluded, 101; bucket [k] for
    [1 <= k <= 8] the prices from [100 k + 1] up to, excluded,
    [100 (k + 1) + 1]; the last one every price from 901 on.  A negative
    price belongs to no bucket.  This is the reference the range filters
    are proved against. *)
Definition bucket_index (p : Q) : option nat :=
  if Qltb p 0 then None else Some (Z.to_nat (Z.min 9 (Qfloor ((p - 1) / 100)))).

(** ** Pie chart *)

Record Slice : Type := mkSlice { slice_category : string; slice_count : nat }.

(** ** Buckets *)

Lemma Qfloor_ge z x : (z <= Qfloor x)%Z <-> (inject_Z z <= x)%Q.
Proof.
  split; intros Hz.
  - eapply Qle_trans; [|apply Qfloor_le]. by rewrite <- Zle_Qle.
  - destruct (Z.le_gt_cases z (Qfloor x)) as [|Hlt]; [done|]. exfalso.
    apply (Qlt_not_le x (inject_Z z)); [|done].
    eapply Qlt_le_trans; [apply Qlt_floor|]. rewrite <- Zle_Qle. lia.
Qed.

Lemma floor_bucket z p :
  (z <= Qfloor ((p - 1) / 100))%Z <-> (inject_Z (100 * z + 1) <= p)%Q.
Proof.
  rewrite Qfloor_ge. unfold Qdiv. rewrite inject_Z_plus, inject_Z_mult.
  change (inject_Z 100) with (100#1)%Q. change (inject_Z 1) with 1%Q.
  change (/ 100)%Q with (1#100)%Q. generalize (inject_Z z). intros x. split; intros; lra.
Qed.

Lemma Qnot_le_iff x y : ~ (x <= y)%Q <-> (y < x)%Q.
Proof. split; [apply Qnot_le_lt | intros H1 H2; by apply (Qlt_not_le y x)]. Qed.

Lemma bucket_index_Some p k :
  bucket_index p = Some k <->
  (0 <= p)%Q /\ Z.to_nat (Z.min 9 (Qfloor ((p - 1) / 100))) = k.
Proof.
  unfold bucket_index. destruct (Qltb p 0) eqn:E.
  - apply Qltb_iff in E. split; [done|]. intros [H _]. by apply Qlt_not_le in E.
  - unfold Qltb in E. apply negb_false_iff, Qle_bool_iff in E. naive_solver.
Qed.

(** The ranges, by position: [(0, 100)], then [(100 k + 1, 100 (k + 1))],
    then [(901, Infinity)]. *)
Lemma priceRanges_nth k mn mx :
  nth_error priceRanges k = Some (mn, mx) ->
  ((k <= 8)%nat /\ mn = (if (k =? 0)%nat then 0 else 100 * Z.of_nat k + 1)%Z /\
     mx = ZFin (100 * (Z.of_nat k + 1))) \/
  (k = 9%nat /\ mn = 901%Z /\ mx = ZInfinity).
Proof.
  intros H. do 10 (destruct k as [|k]; [simpl in H; injection H as <- <-;
    first [right; done | left; split; [lia | done]]|]).
  by destruct k.
Qed.

(** The filter of range [k] is the price condition of bucket [k]. *)
Lemma range_bucket k mn mx p :
  nth_error priceRanges k = Some (mn, mx) ->
  num_ge p (JFinite (inject_Z mn)) && num_lt p (upper_bound mx) =
  bool_decide (bucket_index p = Some k).
Proof.
  intros Hk. apply Bool.eq_iff_eq_true.
  rewrite andb_true_iff, bool_decide_eq_true, bucket_index_Some. cbn [num_ge]. rewrite Qle_bool_iff.
  pose proof (fun z => floor_bucket z p) as Hf. set (f := Qfloor ((p - 1) / 100)) in *.
  assert (Hlo : (0 <= p)%Q -> (-1 <= f)%Z).
  { intros Hp. apply Hf. eapply Qle_trans; [|exact Hp]. done. }
  assert (Hhi : (1 <= f)%Z -> (0 <= p)%Q).
  { intros H1. apply Hf in H1. eapply Qle_trans; [|exact H1]. done. }
  destruct (priceRanges_nth _ _ _ Hk) as [[Hk8 [-> ->]] | [-> [-> ->]]]; cbn [num_lt upper_bound].
  - rewrite Qltb_iff, <- Qnot_le_iff, <- Hf.
    destruct (Nat.eqb_spec k 0) as [->|Hk0]; cbv beta iota.
    + split; intros [Hp Hr]; split; auto; specialize (Hlo Hp); lia.
    + rewrite <- Hf. split; intros [Hl Hr]; [split; [apply Hhi|]; lia|].
      specialize (Hlo Hl). lia.
  - change 901%Z with (100 * 9 + 1)%Z. rewrite <- Hf.
    split; [intros [Hl _]; split; [apply Hhi|]; lia | intros [Hp Hr]; specialize (Hlo Hp); split; [lia | done]].
Qed.

(** ** Grouping by category *)

(** Case analysis on the first string comparison of the goal. *)
Ltac case_string_eqb :=
  match goal with |- context [String.eqb ?a ?b] => destruct (String.eqb_spec a b) end.

Fixpoint assoc (k : string) (gs : list (string * nat)) : option nat :=
  match gs with
  | [] => None
  | (k', n) :: gs' => if String.eqb k k' then Some n else assoc k gs'
  end.

Lemma assoc_group_add j k gs :
  assoc j (group_add k gs) =
  if String.eqb j k then Some (S (default 0%nat (assoc j gs))) else assoc j gs.
Proof.
  induction gs as [|[k' n] gs IH]; simpl; [done|].
  repeat (simpl; rewrite ?IH; case_string_eqb); congruence.
Qed.

Lemma assoc_fold_group j ks gs :
  assoc j (fold_left (fun gs k => group_add k gs) ks gs) =
  match countb (String.eqb j) ks with
  | O => assoc j gs
  | c => Some (default 0%nat (assoc j gs) + c)%nat
  end.
Proof.
  revert gs. induction ks as [|k ks IH]; intros gs; [done|]. simpl.
  rewrite IH, assoc_group_add, countb_cons.
  destruct (String.eqb j k), (countb (String.eqb j) ks) eqn:E; simpl; f_equal; lia.
Qed.

Lemma assoc_group_count j ks :
  assoc j (group_count ks) =
  match countb (String.eqb j) ks with O => None | c => Some c end.
Proof. unfold group_count. rewrite assoc_fold_group. by destruct (countb _ _). Qed.

Lemma keys_group_add j k gs : In j (map fst (group_add k gs)) <-> j = k \/ In j (map fst gs).
Proof.
  induction gs as [|[k' n] gs IH]; simpl; [naive_solver|].
  destruct (String.eqb_spec k k') as [->|Hne]; simpl; rewrite ?IH; naive_solver.
Qed.

Lemma NoDup_group_add k gs : NoDup (map fst gs) -> NoDup (map fst (group_add k gs)).
Proof.
  induction gs as [|[k' n] gs IH]; simpl; intros Hnd; [apply NoDup_singleton|].
  apply list.NoDup_cons in Hnd as [Hk' Hnd]. rewrite list_elem_of_In in Hk'.
  destruct (String.eqb_spec k k') as [->|Hne]; simpl; apply list.NoDup_cons;
    rewrite ?list_elem_of_In, ?keys_group_add; intuition congruence.
Qed.

Lemma NoDup_group_count ks : NoDup (map fst (group_count ks)).
Proof.
  unfold group_count. assert (H : NoDup (map fst ([] : list (string * nat)))) by constructor.
  revert H. generalize ([] : list (string * nat)). induction ks as [|k ks IH]; intros gs H; [done|].
  apply IH, NoDup_group_add, H.
Qed.

Lemma In_assoc gs j n : NoDup (map fst gs) -> In (j, n) gs <-> assoc j gs = Some n.
Proof.
  induction gs as [|[k m] gs IH]; simpl; intros Hnd; [split; [done | discriminate]|].
  apply list.NoDup_cons in Hnd as [Hk Hnd]. rewrite list_elem_of_In in Hk.
  destruct (String.eqb_spec j k) as [->|Hne].
  - split; [intros [[= ->]|Hin]; [done|] | intros [= ->]; by left].
    exfalso. apply Hk. apply (in_map fst) in Hin. done.
  - rewrite <- IH by done. split; [intros [[= ? ?]|H]; [congruence | done] | intros H; by right].
Qed.

Lemma sum_group_add k gs : list_sum (map snd (group_add k gs)) = S (list_sum (map snd gs)).
Proof.
  induction gs as [|[k' n] gs IH]; simpl; [done|].
  destruct (String.eqb k k'); simpl; rewrite ?IH; lia.
Qed.

Lemma sum_fold_group ks gs :
  list_sum (map snd (fold_left (fun gs k => group_add k gs) ks gs)) =
  (length ks + list_sum (map snd gs))%nat.
Proof.
  revert gs. induction ks as [|k ks IH]; intros gs; simpl; [done|].
  rewrite IH, sum_group_add. lia.
Qed.

Lemma sum_group_count ks : list_sum (map snd (group_count ks)) = length ks.
Proof. unfold group_count. rewrite sum_fold_group. simpl. lia. Qed.

(** What [$group] with [$sum: 1] yields: each key once, with the number
    of its occurrences, which is positive. *)
Lemma group_count_In ks j n :
  In (j, n) (group_count ks) <-> n = countb (String.eqb j) ks /\ (0 < n)%nat.
Proof.
  rewrite In_assoc, assoc_group_count by apply NoDup_group_count.
  destruct (countb _ _); split; intros; naive_solver lia.
Qed.

Section Handlers.

Context {St : Type} `{MongoStoreSpec St}.
Context {LD : MonthParse.LegacyDateParse}.

Definition get_statistics (s : St) (month : option string) : response Stats :=
  let dateQuery := buildDateQuery month in
  match aggregate_sum_price s dateQuery with
  | Err e => catch_error "Error retrieving statistics" e
  | Ok totalSale =>
      match countDocuments s (sold_filter dateQuery true) with
      | Err e => catch_error "Error retrieving statistics" e
      | Ok sold =>
          match countDocuments s (sold_filter dateQuery false) with
          | Err e => catch_error "Error retrieving statistics" e
          | Ok notSold =>
              R200 (mkStats (match totalSale with t :: _ => t | [] => 0%Q end) sold notSold)
          end
      end
  end.

Definition bar_count (s : St) (dateQuery : query) (r : Z * zinf) : result Bar store_error :=
  res_map (fun n => mkBar (range_label (fst r) (snd r)) n)
          (countDocuments s (bucket_filter dateQuery (fst r) (snd r))).

Definition get_barchart (s : St) (month : option string) : response (list Bar) :=
  let dateQuery := buildDateQuery month in
  match promise_all (map (bar_count s dateQuery) priceRanges) with
  | Err e => catch_error "Error retrieving bar chart data" e
  | Ok bars => R200 bars
  end.

(** [/barchart] when the ten counts settle in the order [order]. *)
Definition get_barchart_settled (s : St) (month : option string) (order : list nat)
    : option (response (list Bar)) :=
  let dateQuery := buildDateQuery month in
  option_map (fun r => match r with
                       | Err e => catch_error "Error retrieving bar chart data" e
                       | Ok bars => R200 bars
                       end)
    (promise_all_settled (map (bar_count s dateQuery) priceRanges) order).

Definition get_piechart (s : St) (month : option string) : response (list Slice) :=
  match aggregate_count_by_category s (buildDateQuery month) with
  | Err e => catch_error "Error retrieving pie chart data" e
  | Ok groups => R200 (map (fun g => mkSlice (fst g) (snd g)) groups)
  end.

(** ** Lemmas *)

Lemma query_check_date month : query_check (buildDateQuery month) = Ok tt.
Proof. unfold buildDateQuery. destruct month as [m|]; [destruct (falsy _)|]; done. Qed.

Lemma spread_nil_date month : spread [] (buildDateQuery month) = buildDateQuery month.
Proof. unfold buildDateQuery. destruct month as [m|]; [destruct (falsy _)|]; done. Qed.

(** [{ ...dateQuery, k: v }] appends the property [k] to the date filter. *)
Lemma spread_date_app month k v :
  k <> "$expr" ->
  spread (spread [] (buildDateQuery month)) [(k, v)] = buildDateQuery month ++ [(k, v)].
Proof.
  intros Hk. rewrite spread_nil_date. unfold spread. simpl. apply set_key_fresh.
  destruct (keys_buildDateQuery month) as [E|E]; rewrite E; simpl; intuition congruence.
Qed.

Lemma date_extra_matches month k v d :
  k <> "$expr" ->
  doc_matches (spread (spread [] (buildDateQuery month)) [(k, v)]) d =
  doc_matches (buildDateQuery month) d && qv_matches d k v.
Proof. intros Hk. by rewrite spread_date_app, doc_matches_app, doc_matches_single. Qed.

(** A date filter with one more condition that casts and compiles is
    accepted by [countDocuments]. *)
Lemma date_extra_check month k c :
  k <> "$expr" -> cond_check c = Ok tt -> cond_castable c = true ->
  filter_check (spread (spread [] (buildDateQuery month)) [(k, VCond c)]) = Ok tt.
Proof.
  intros Hk Hc Hcast. apply filter_check_ok. rewrite spread_date_app by done. split.
  - rewrite castable_app, castable_date. unfold castable. simpl. by rewrite Hcast.
  - rewrite query_check_app, query_check_date. simpl. by rewrite Hc.
Qed.

Lemma castable_bucket month mn mx : castable (bucket_filter (buildDateQuery month) mn mx) = true.
Proof.
  unfold bucket_filter. rewrite spread_date_app, castable_app, castable_date by done. by destruct mx.
Qed.

Lemma bucket_check month mn mx : filter_check (bucket_filter (buildDateQuery month) mn mx) = Ok tt.
Proof. apply date_extra_check; [done | done | by destruct mx]. Qed.

Lemma count_extra month k c docs :
  k <> "$expr" ->
  length (matching (spread (spread [] (buildDateQuery month)) [(k, VCond c)]) docs) =
  countb (fun d => cond_matches (get_field d k) c) (matching (buildDateQuery month) docs).
Proof.
  intros Hk. unfold matching. rewrite countb_filter. apply countb_ext. intros d _.
  by rewrite date_extra_matches.
Qed.

Lemma head_total_of ms : match total_of ms with t :: _ => t | [] => 0%Q end = qsum (map price ms).
Proof. by destruct ms. Qed.

Lemma promise_all_imap_Ok {A B E} (g : nat -> A -> B) (l : list A) :
  promise_all (imap (fun k x => Ok (g k x) : result B E) l) = Ok (imap g l).
Proof.
  revert g. induction l as [|x l IH]; intros g; [done|].
  rewrite !imap_cons. simpl. unfold compose. cbv beta. by rewrite (IH (fun k => g (S k))).
Qed.

Lemma promise_all_map_Err {A B E} (g : A -> result B E) (l : list A) x e :
  In x l -> (forall y, In y l -> g y = Err e) -> promise_all (map g l) = Err e.
Proof.
  destruct l as [|y l]; [done|]. intros _ Hall. simpl. by rewrite (Hall y (or_introl eq_refl)).
Qed.

Lemma map_imap_nth {A B} (g : A -> B) (h : nat -> A -> B) (l : list A) :
  (forall k x, nth_error l k = Some x -> g x = h k x) -> map g l = imap h l.
Proof.
  revert h. induction l as [|x l IH]; intros h Hgh; [done|].
  rewrite imap_cons. simpl. f_equal; [by apply (Hgh 0%nat)|].
  apply IH. intros k y Hy. by apply (Hgh (S k)).
Qed.

(** The documents of [ms] in bucket [k]. *)
Definition bucket_count (ms : list Data) (k : nat) : nat :=
  countb (fun d => bool_decide (bucket_index (price d) = Some k)) ms.

Lemma bar_count_ok s month k mn mx :
  connected s = true -> nth_error priceRanges k = Some (mn, mx) ->
  bar_count s (buildDateQuery month) (mn, mx) =
  Ok (mkBar (range_label mn mx) (bucket_count (matching (buildDateQuery month) (documents s)) k)).
Proof.
  intros Hc Hk. unfold bar_count. cbn [fst snd].
  rewrite count_ok by (done || apply bucket_check). unfold bucket_filter.
  rewrite count_extra by done. cbn [res_map res_bind]. unfold bucket_count. do 2 f_equal.
  apply countb_ext. intros d _.
  simpl. by rewrite <- (range_bucket k mn mx).
Qed.

Lemma bucket_index_bound p k : bucket_index p = Some k -> (k < 10)%nat.
Proof. rewrite bucket_index_Some. lia. Qed.

(** The ten buckets together count each match with a non-negative price
    once. *)
Lemma sum_bucket_counts ms :
  list_sum (map (bucket_count ms) (seq 0 10)) = countb (fun d => Qle_bool 0 (price d)) ms.
Proof.
  unfold bucket_count. rewrite sum_countb_swap, <- list_sum_indicator. f_equal.
  apply map_ext. intros d.
  rewrite (countb_ext (fun k => bool_decide (bucket_index (price d) = Some k))
             (fun k => bool_decide (default 10%nat (bucket_index (price d)) = k))).
  - rewrite countb_seq_eq. unfold bucket_index. destruct (Qltb (price d) 0) eqn:E; simpl.
    + unfold Qltb in E. by apply negb_true_iff in E as ->.
    + unfold Qltb in E. apply negb_false_iff in E as ->. rewrite (proj2 (Nat.ltb_lt _ _)) by lia. done.
  - intros k Hk. apply in_seq in Hk.
    destruct (bucket_index (price d)); cbn [default]; apply bool_decide_ext; naive_solver lia.
Qed.

(** [C7] The filter of the [k]-th range of
    [priceRanges], [{ ...dateQuery, price: { $gte: min, $lt: max + 1 } }],
    selects the transactions of the month whose price is in bucket [k]:
    from [min] up to, excluded, [max + 1], so that a fractional price such
    as 100.5 falls in the range that ends at 100. *)
Theorem bucket_filter_selects month k mn mx d :
  nth_error priceRanges k = Some (mn, mx) ->
  doc_matches (bucket_filter (buildDateQuery month) mn mx) d =
  doc_matches (buildDateQuery month) d && bool_decide (bucket_index (price d) = Some k).
Proof.
  intros Hk. unfold bucket_filter. rewrite date_extra_matches by done. f_equal.
  by apply range_bucket.
Qed.

(** The ranges a price is counted in, for prices
    at and between the bounds: 100 and 100.5 in [0-100], 101 in
    [101-200], 900 and 900.5 in [801-900], 901 in [901-above], and a
    negative price in none. *)
Example bucket_boundaries :
  map (fun p => map (fun r => range_label (fst r) (snd r))
                  (List.filter (fun r => doc_matches (bucket_filter [] (fst r) (snd r))
                                           (mkData 1 "t" p "d" "c" "i" true 0)) priceRanges))
      [100; 201#2; 101; 900; 1801#2; 901; -1]%Q =
  [["0-100"]; ["0-100"]; ["101-200"]; ["801-900"]; ["801-900"]; ["901-above"]; []].
Proof. vm_compute. reflexivity. Qed.

Lemma R200_inj {A} (a b : A) : R200 a = R200 b -> a = b.
Proof. intros E. by injection E. Qed.

Lemma stats_connected s month st : get_statistics s month = R200 st -> connected s = true.
Proof.
  unfold get_statistics. rewrite sum_spec. by destruct (connected s).
Qed.

Lemma statistics_answer s month :
  connected s = true ->
  get_statistics s month =
  R200 (mkStats (qsum (map price (matching (buildDateQuery month) (documents s))))
                (countb sold (matching (buildDateQuery month) (documents s)))
                (countb (fun d => negb (sold d)) (matching (buildDateQuery month) (documents s)))).
Proof.
  intros Hc. unfold get_statistics. rewrite sum_spec, Hc, query_check_date. cbn [res_map res_bind].
  unfold sold_filter. rewrite !count_ok by (done || by apply date_extra_check).
  rewrite !count_extra by done. rewrite head_total_of. do 2 f_equal;
    apply countb_ext; intros d _; simpl; by destruct (sold d).
Qed.

(** [C9] With the store up, [/statistics] answers the
    sum of the prices of the month's transactions (0 when there is
    none), the number of them that are sold and the number that are not. *)
Theorem get_statistics_ok s month :
  connected s = true ->
  get_statistics s month =
  R200 (mkStats (qsum (map price (matching (buildDateQuery month) (documents s))))
                (countb sold (matching (buildDateQuery month) (documents s)))
                (countb (fun d => negb (sold d)) (matching (buildDateQuery month) (documents s)))).
Proof. apply statistics_answer. Qed.

(** [C10] The sold and the unsold counts of
    [/statistics] add up to the number of the month's transactions. *)
Theorem get_statistics_partition s month st :
  get_statistics s month = R200 st ->
  (totalSoldItems st + totalNotSoldItems st)%nat =
  length (matching (buildDateQuery month) (documents s)).
Proof.
  intros Hst. pose proof (stats_connected _ _ _ Hst) as Hc.
  rewrite statistics_answer in Hst by done. injection Hst as <-. simpl.
  rewrite <- countb_true, (countb_split (fun _ => true) sold). done.
Qed.

(** When the store is unreachable [/statistics]
    answers 500. *)
Theorem get_statistics_down s month :
  connected s = false -> get_statistics s month = R500 "Error retrieving statistics".
Proof. intros Hc. unfold get_statistics. by rewrite sum_spec, Hc. Qed.

(** When the store is unreachable every count of [/barchart] fails and
    the handler answers 500. *)
Lemma get_barchart_down s month :
  connected s = false -> get_barchart s month = R500 "Error retrieving bar chart data".
Proof.
  intros Hc. unfold get_barchart.
  rewrite (promise_all_map_Err _ _ (0, ZFin 100) StoreUnavailable); [done | by left|].
  intros [mn mx] _. unfold bar_count. by rewrite countDocuments_spec, castable_bucket, Hc.
Qed.

(** When the store is unreachable [/piechart] answers 500. *)
Lemma get_piechart_down s month :
  connected s = false -> get_piechart s month = R500 "Error retrieving pie chart data".
Proof.
  intros Hc. unfold get_piechart.
  by rewrite (proj2 (group_err s (buildDateQuery month) StoreUnavailable)) by (left; done).
Qed.

Lemma barchart_answer s month :
  connected s = true ->
  get_barchart s month =
  R200 (imap (fun k r => mkBar (range_label (fst r) (snd r))
                (bucket_count (matching (buildDateQuery month) (documents s)) k)) priceRanges).
Proof.
  intros Hc. unfold get_barchart.
  rewrite (map_imap_nth _ (fun k r => Ok (mkBar (range_label (fst r) (snd r))
             (bucket_count (matching (buildDateQuery month) (documents s)) k)))).
  - by rewrite promise_all_imap_Ok.
  - intros k [mn mx] Hk. by apply bar_count_ok.
Qed.

(** [C12] With the store up, [/barchart] answers, in the
    order of [priceRanges], one bar per range labelled by its bounds,
    whose count is the number of the month's transactions in that
    bucket. *)
Theorem get_barchart_ok s month :
  connected s = true ->
  get_barchart s month =
  R200 (imap (fun k r => mkBar (range_label (fst r) (snd r))
                (bucket_count (matching (buildDateQuery month) (documents s)) k)) priceRanges).
Proof. apply barchart_answer. Qed.

Lemma barchart_connected s month bars : get_barchart s month = R200 bars -> connected s = true.
Proof.
  destruct (connected s) eqn:Hc; [done|]. by rewrite get_barchart_down.
Qed.

(** [C8] The counts of the bars add up to the number of
    the month's transactions whose price is not negative: a transaction
    with a negative price is in no bar. *)
Theorem barchart_total s month bars :
  get_barchart s month = R200 bars ->
  list_sum (map count bars) =
  countb (fun d => Qle_bool 0 (price d)) (matching (buildDateQuery month) (documents s)).
Proof.
  intros Hb. rewrite barchart_answer in Hb by (eapply barchart_connected; eauto).
  apply R200_inj in Hb as <-. rewrite map_fmap_eq, fmap_imap, <- sum_bucket_counts, map_fmap_eq.
  change (seq 0 10) with (seq 0 (length priceRanges)). rewrite <- imap_seq_0. done.
Qed.

(** The labels of the bars are the ten ranges,
    [0-100] to [901-above]. *)
Theorem barchart_labels s month bars :
  get_barchart s month = R200 bars ->
  map range bars = ["0-100"; "101-200"; "201-300"; "301-400"; "401-500";
                    "501-600"; "601-700"; "701-800"; "801-900"; "901-above"].
Proof.
  intros Hb. rewrite barchart_answer in Hb by (eapply barchart_connected; eauto).
  apply R200_inj in Hb as <-. reflexivity.
Qed.

(** [C11] With the store up, [/piechart] answers one
    slice per category present among the month's transactions, each with
    the number of them in that category, and the counts add up to the
    number of the month's transactions; the order of the slices is
    whatever order [$group] produces. *)
Theorem get_piechart_ok s month :
  connected s = true ->
  exists slices, get_piechart s month = R200 slices /\
    NoDup (map slice_category slices) /\
    (forall c n, In (mkSlice c n) slices <->
       n = countb (fun d => String.eqb c (category d)) (matching (buildDateQuery month) (documents s)) /\
       (0 < n)%nat) /\
    list_sum (map slice_count slices) = length (matching (buildDateQuery month) (documents s)).
Proof.
  intros Hc. unfold get_piechart.
  destruct (aggregate_count_by_category s (buildDateQuery month)) as [gs|e] eqn:E.
  - apply group_ok in E. eexists. split; [done|]. rewrite !map_map. simpl.
    split; [|split].
    + rewrite E. apply NoDup_group_count.
    + intros c n. rewrite in_map_iff.
      transitivity (In (c, n) gs); [split; [intros [[c' n'] [[= -> ->] ?]] | intros ?; by exists (c, n)]; done|].
      by rewrite E, group_count_In, countb_map.
    + by rewrite E, sum_group_count, length_map.
  - apply group_err in E as [[Hc' _]|[_ Hq]]; [congruence|]. by rewrite query_check_date in Hq.
Qed.

(** Every count of [/barchart] fails for the same reason: the store is
    down; the bucket filters always compile. *)
Lemma bar_count_Err s month r e :
  bar_count s (buildDateQuery month) r = Err e -> e = StoreUnavailable.
Proof.
  destruct r as [mn mx]. unfold bar_count. cbn [fst snd].
  rewrite countDocuments_spec, castable_bucket. destruct (connected s); [|by intros [= <-]].
  destruct (proj1 (filter_check_ok _) (bucket_check month mn mx)) as [_ ->]. discriminate.
Qed.

(** The answer of [/barchart] does not depend on
    the order in which its ten concurrent counts complete: for every
    order, [Promise.all] settles, and the handler answers what it
    answers with the counts taken in the order of [priceRanges]. *)
Theorem barchart_any_order s month order :
  order ≡ₚ seq 0 10 ->
  get_barchart_settled s month order = Some (get_barchart s month).
Proof.
  intros Hperm. unfold get_barchart_settled, get_barchart.
  rewrite settle_any_order.
  - simpl. by destruct (promise_all (map (bar_count s (buildDateQuery month)) priceRanges)).
  - by rewrite length_map.
  - intros e e' He He'. apply in_map_iff in He as (r & Hr & _). apply in_map_iff in He' as (r' & Hr' & _).
    apply bar_count_Err in Hr, Hr'. congruence.
Qed.

End Handlers.

#[local] Existing Instance MonthParse.legacy_invalid.

(** ** Witnesses on a concrete collection *)

Definition sample_docs : list Data :=
  [mkData 1 "Shirt" 120 "cotton" "men's clothing" "i" true (Calendar.date_of 2022 3 10 0);
   mkData 2 "Ring" (201#2) "gold" "jewelery" "i" false (Calendar.date_of 2021 3 5 0);
   mkData 3 "Phone" 950 "fast" "electronics" "i" true (Calendar.date_of 2022 4 1 0);
   mkData 4 "Refund" (-5) "credit" "men's clothing" "i" false (Calendar.date_of 2022 3 20 0)].

Definition sample_store : Collection := mkCollection sample_docs true.

Lemma get_statistics_ok_witness :
  connected sample_store = true /\
  get_statistics sample_store (Some "March") =
  R200 (mkStats (qsum (map price (matching (buildDateQuery (Some "March")) (documents sample_store))))
                (countb sold (matching (buildDateQuery (Some "March")) (documents sample_store)))
                (countb (fun d => negb (sold d)) (matching (buildDateQuery (Some "March")) (documents sample_store)))).
Proof. split; [reflexivity | apply get_statistics_ok; reflexivity]. Defined.

Lemma get_statistics_partition_witness :
  get_statistics sample_store (Some "March") = R200 (mkStats (431#2) 1 2) /\
  (1 + 2)%nat = length (matching (buildDateQuery (Some "March")) (documents sample_store)).
Proof.
  assert (E : get_statistics sample_store (Some "March") = R200 (mkStats (431#2) 1 2))
    by (vm_compute; reflexivity).
  split; [exact E | exact (get_statistics_partition _ _ _ E)].
Defined.


Lemma get_barchart_ok_witness :
  connected sample_store = true /\
  get_barchart sample_store None =
  R200 (imap (fun k r => mkBar (range_label (fst r) (snd r))
                (bucket_count (matching (buildDateQuery None) (documents sample_store)) k)) priceRanges).
Proof. split; [reflexivity | apply get_barchart_ok; reflexivity]. Defined.

Definition sample_bars : list Bar :=
  [mkBar "0-100" 1; mkBar "101-200" 1; mkBar "201-300" 0; mkBar "301-400" 0; mkBar "401-500" 0;
   mkBar "501-600" 0; mkBar "601-700" 0; mkBar "701-800" 0; mkBar "801-900" 0; mkBar "901-above" 1].

Lemma get_sample_bars : get_barchart sample_store None = R200 sample_bars.
Proof. vm_compute. reflexivity. Qed.

Lemma barchart_total_witness :
  get_barchart sample_store None = R200 sample_bars /\
  list_sum (map count sample_bars) =
  countb (fun d => Qle_bool 0 (price d)) (matching (buildDateQuery None) (documents sample_store)).
Proof. split; [exact get_sample_bars | exact (barchart_total _ _ _ get_sample_bars)]. Defined.

Lemma barchart_labels_witness :
  get_barchart sample_store None = R200 sample_bars /\
  map range sample_bars = ["0-100"; "101-200"; "201-300"; "301-400"; "401-500";
                           "501-600"; "601-700"; "701-800"; "801-900"; "901-above"].
Proof. split; [exact get_sample_bars | exact (barchart_labels _ _ _ get_sample_bars)]. Defined.

Lemma get_piechart_ok_witness :
  connected sample_store = true /\
  exists slices, get_piechart sample_store (Some "Mar") = R200 slices /\
    NoDup (map slice_category slices) /\
    (forall c n, In (mkSlice c n) slices <->
       n = countb (fun d => String.eqb c (category d))
             (matching (buildDateQuery (Some "Mar")) (documents sample_store)) /\ (0 < n)%nat) /\
    list_sum (map slice_count slices) =
      length (matching (buildDateQuery (Some "Mar")) (documents sample_store)).
Proof. split; [reflexivity | apply get_piechart_ok; reflexivity]. Defined.

Lemma bucket_filter_selects_witness :
  nth_error priceRanges 0 = Some (0%Z, ZFin 100) /\
  doc_matches (bucket_filter (buildDateQuery None) 0 (ZFin 100)) (mkData 2 "Ring" (201#2) "gold" "jewelery" "i" false 0) =
  doc_matches (buildDateQuery None) (mkData 2 "Ring" (201#2) "gold" "jewelery" "i" false 0) &&
  bool_decide (bucket_index (201#2) = Some 0%nat).
Proof. split; [reflexivity | apply bucket_filter_selects; reflexivity]. Defined.

Lemma barchart_any_order_witness :
  [9; 3; 0; 1; 2; 8; 4; 5; 7; 6]%nat ≡ₚ seq 0 10 /\
  get_barchart_settled sample_store None [9; 3; 0; 1; 2; 8; 4; 5; 7; 6]%nat = Some (get_barchart sample_store None).
Proof.
  assert (Hp : [9; 3; 0; 1; 2; 8; 4; 5; 7; 6]%nat ≡ₚ seq 0 10)
    by (apply (bool_decide_unpack _); vm_compute; reflexivity).
  split; [exact Hp | exact (barchart_any_order sample_store None _ Hp)].
Defined.

End Aggregation.
