(* ===== verification/Frontend.v ===== *)
(** * Frontend: the dashboard of App.jsx

    The React component [App] (src/Frontend/src/App.jsx) keeps its state
    in [useState] hooks (lines 11-40), changes it in the event handlers of
    the month select, the search box, the pagination buttons and the
    images (lines 138-144, 153-160, 222-223), and runs two effects after
    each render whose dependencies changed (lines 122-136): the first
    fetches [/transactions], [/statistics], [/barchart] and [/piechart]
    for the current month and page, the second filters the current page
    of transactions by the search text.

    The model is a state machine.  [AppState] holds the hooks and, in
    [pending], the requests sent and not yet answered, each with the
    month and page its closure captured.  An [event] is a user action or
    the arrival of one pending response, in any order ([Deliver i]);
    [step] runs the handler and then the effects whose dependencies
    changed ([commit]), as React does after a render.  The answers are
    those of the server model, [Listing.get_transactions] and the
    handlers of [Aggregation], on a store that the dashboard never
    writes.  An answer other than 200 makes axios reject, and the
    [catch] only logs: the state does not change.

    The theorems: every reachable state is well formed ([wf_state]: the
    month one of the select's options, the page at least 1, the requests
    in flight for such a month and page, each chart with one value per
    label, the table within the current page); the table always shows
    the current page filtered by the search text; the search text never
    reaches the server; a month change keeps the page number; answer
    delivery terminates ([delivery] is well founded); after a month
    change, answering the requests in flight in the order they were sent
    ([drain]) shows the new month's answers in every part of the page,
    and keeps the previous month's figures when the server fails them;
    delivering the pending answers in order leaves the table with the
    last successful answer; a late answer to an earlier month can
    overwrite the table of the selected one; and since the page is kept,
    a month change on a page past the new month's last one gets a 404
    and leaves the previous month's rows in the table. *)

From Stdlib Require Import Wellfounded.Inclusion Arith.Wf_nat.
From S2P Require Import Prelude Transaction JsRuntime Regex Query Predicates Listing Aggregation.

Module Frontend.

Import Query.

(** ** State *)

(** [{ labels, datasets: [{ label, data, backgroundColor }] }]: the
    dataset's label and colours are constants of the source. *)
Record ChartData : Type := mkChart { labels : list string; data : list nat }.

Inductive request : Type :=
| FetchTransactions (month : string) (page : Z)
| FetchStatistics (month : string)
| FetchBarChart (month : string)
| FetchPieChart (month : string).

Record AppState : Type := mkApp {
  transactions : list Data;
  filteredTransactions : list Data;
  statistics : option Aggregation.Stats;   (** [{}] before the first answer *)
  barChartData : ChartData;
  pieChartData : ChartData;
  month : string;
  search : string;
  page : Z;
  totalPages : option Q;                  (** [null] when the server sends it *)
  hoveredImage : option string;
  showEnlargedImage : bool;
  (* the requests in flight, in the order they were sent *)
  pending : list request;
  (* the identity of the [transactions] array: a new array per answer *)
  transactions_gen : nat
}.

Definition months : list string := MonthParse.months.

(** ** Client-side search (lines 129-136) *)

Definition client_match (search : string) (transaction : Data) : bool :=
  JsString.includes (lower_string (title transaction)) (lower_string search) ||
  JsString.includes (lower_string (description transaction)) (lower_string search) ||
  JsString.includes (JsString.number_to_string (price transaction)) search.

(** ** Events *)

Inductive event : Type :=
| SelectMonth (m : string)          (** [onChange] of the month select *)
| SetSearchText (t : string)        (** [onChange] of the search box *)
| ClearSearch                       (** the Clear Search button *)
| PreviousPage                      (** the Previous button *)
| NextPage                          (** the Next button *)
| MouseEnterImage (url : string)    (** [handleMouseEnter] *)
| ClickImage                        (** [handleClickOnImage] *)
| Deliver (i : nat).                (** the answer to the [i]-th pending request *)

(** The month select offers the twelve names of [months] as its options
    (lines 160-164): its [onChange] only ever passes one of them. *)
Definition valid_event (ev : event) : bool :=
  match ev with
  | SelectMonth m => bool_decide (m ∈ months)
  | _ => true
  end.

Definition set_month (m : string) (st : AppState) : AppState :=
  {| transactions := transactions st; filteredTransactions := filteredTransactions st;
     statistics := statistics st; barChartData := barChartData st; pieChartData := pieChartData st;
     month := m; search := search st; page := page st; totalPages := totalPages st;
     hoveredImage := hoveredImage st; showEnlargedImage := showEnlargedImage st;
     pending := pending st; transactions_gen := transactions_gen st |}.

Definition set_search (t : string) (st : AppState) : AppState :=
  {| transactions := transactions st; filteredTransactions := filteredTransactions st;
     statistics := statistics st; barChartData := barChartData st; pieChartData := pieChartData st;
     month := month st; search := t; page := page st; totalPages := totalPages st;
     hoveredImage := hoveredImage st; showEnlargedImage := showEnlargedImage st;
     pending := pending st; transactions_gen := transactions_gen st |}.

Definition set_page (p : Z) (st : AppState) : AppState :=
  {| transactions := transactions st; filteredTransactions := filteredTransactions st;
     statistics := statistics st; barChartData := barChartData st; pieChartData := pieChartData st;
     month := month st; search := search st; page := p; totalPages := totalPages st;
     hoveredImage := hoveredImage st; showEnlargedImage := showEnlargedImage st;
     pending := pending st; transactions_gen := transactions_gen st |}.

Definition set_image (h : option string) (show : bool) (st : AppState) : AppState :=
  {| transactions := transactions st; filteredTransactions := filteredTransactions st;
     statistics := statistics st; barChartData := barChartData st; pieChartData := pieChartData st;
     month := month st; search := search st; page := page st; totalPages := totalPages st;
     hoveredImage := h; showEnlargedImage := show;
     pending := pending st; transactions_gen := transactions_gen st |}.

Definition set_pending (rs : list request) (st : AppState) : AppState :=
  {| transactions := transactions st; filteredTransactions := filteredTransactions st;
     statistics := statistics st; barChartData := barChartData st; pieChartData := pieChartData st;
     month := month st; search := search st; page := page st; totalPages := totalPages st;
     hoveredImage := hoveredImage st; showEnlargedImage := showEnlargedImage st;
     pending := rs; transactions_gen := transactions_gen st |}.

(** [setTransactions(txs); setFilteredTransactions(txs); setTotalPages(tp)] *)
Definition set_listing (txs : list Data) (tp : option Q) (st : AppState) : AppState :=
  {| transactions := txs; filteredTransactions := txs;
     statistics := statistics st; barChartData := barChartData st; pieChartData := pieChartData st;
     month := month st; search := search st; page := page st; totalPages := tp;
     hoveredImage := hoveredImage st; showEnlargedImage := showEnlargedImage st;
     pending := pending st; transactions_gen := S (transactions_gen st) |}.

Definition set_filtered (txs : list Data) (st : AppState) : AppState :=
  {| transactions := transactions st; filteredTransactions := txs;
     statistics := statistics st; barChartData := barChartData st; pieChartData := pieChartData st;
     month := month st; search := search st; page := page st; totalPages := totalPages st;
     hoveredImage := hoveredImage st; showEnlargedImage := showEnlargedImage st;
     pending := pending st; transactions_gen := transactions_gen st |}.

Definition set_statistics (s : Aggregation.Stats) (st : AppState) : AppState :=
  {| transactions := transactions st; filteredTransactions := filteredTransactions st;
     statistics := Some s; barChartData := barChartData st; pieChartData := pieChartData st;
     month := month st; search := search st; page := page st; totalPages := totalPages st;
     hoveredImage := hoveredImage st; showEnlargedImage := showEnlargedImage st;
     pending := pending st; transactions_gen := transactions_gen st |}.

Definition set_bar (c : ChartData) (st : AppState) : AppState :=
  {| transactions := transactions st; filteredTransactions := filteredTransactions st;
     statistics := statistics st; barChartData := c; pieChartData := pieChartData st;
     month := month st; search := search st; page := page st; totalPages := totalPages st;
     hoveredImage := hoveredImage st; showEnlargedImage := showEnlargedImage st;
     pending := pending st; transactions_gen := transactions_gen st |}.

Definition set_pie (c : ChartData) (st : AppState) : AppState :=
  {| transactions := transactions st; filteredTransactions := filteredTransactions st;
     statistics := statistics st; barChartData := barChartData st; pieChartData := c;
     month := month st; search := search st; page := page st; totalPages := totalPages st;
     hoveredImage := hoveredImage st; showEnlargedImage := showEnlargedImage st;
     pending := pending st; transactions_gen := transactions_gen st |}.

(** [disabled={page >= totalPages}]: [null] compares as 0. *)
Definition next_disabled (page : Z) (totalPages : option Q) : bool :=
  match totalPages with
  | Some tp => Qle_bool tp (inject_Z page)
  | None => (0 <=? page)%Z
  end.

(** The effect on [[month, page]] (lines 122-127): the four fetches, in
    the order of the effect's body. *)
Definition fetch_all (month : string) (page : Z) : list request :=
  [FetchTransactions month page; FetchStatistics month; FetchBarChart month; FetchPieChart month].

(** The effects after a render from [old] to [new]: the fetch effect
    when [month] or [page] changed, the filter effect when [search] or
    the [transactions] array changed. *)
Definition commit (old new : AppState) : AppState :=
  let st1 := if String.eqb (month old) (month new) && (page old =? page new)%Z then new
             else set_pending (pending new ++ fetch_all (month new) (page new)) new in
  if String.eqb (search old) (search new) && (transactions_gen old =? transactions_gen new)%nat then st1
  else set_filtered (List.filter (client_match (search st1)) (transactions st1)) st1.

(** ** Well-formed states *)

Definition request_ok (r : request) : Prop :=
  match r with
  | FetchTransactions m p => m ∈ months /\ (1 <= p)%Z
  | FetchStatistics m | FetchBarChart m | FetchPieChart m => m ∈ months
  end.

(** A chart has one value per label. *)
Definition chart_ok (c : ChartData) : Prop := length (labels c) = length (data c).

(** The month is one of the select's options, the page is at least 1,
    every request in flight asks for such a month and page, and each
    chart has one value per label. *)
Definition wf_fields (st : AppState) : Prop :=
  month st ∈ months /\ (1 <= page st)%Z /\ Forall request_ok (pending st) /\
  chart_ok (barChartData st) /\ chart_ok (pieChartData st).

(** The table shows rows of the current page only. *)
Definition wf_state (st : AppState) : Prop :=
  wf_fields st /\ incl (filteredTransactions st) (transactions st).

(** What the page shows of the answers. *)
Record Shown : Type := mkShown {
  sh_transactions : list Data;
  sh_totalPages : option Q;
  sh_statistics : option Aggregation.Stats;
  sh_bar : ChartData;
  sh_pie : ChartData
}.

Definition shown (st : AppState) : Shown :=
  mkShown (transactions st) (totalPages st) (statistics st) (barChartData st) (pieChartData st).

Lemma commit_shown old new : shown (commit old new) = shown new.
Proof. unfold commit. by destruct (_ && _); destruct (_ && _). Qed.

Lemma commit_pending old new :
  pending (commit old new) = pending new \/
  pending (commit old new) = pending new ++ fetch_all (month new) (page new).
Proof. unfold commit. destruct (_ && _); destruct (_ && _); simpl; auto. Qed.

(** The requests in flight once the [i]-th has been answered. *)
Fixpoint remove_nth {A} (i : nat) (l : list A) : list A :=
  match i, l with
  | _, [] => []
  | O, _ :: l' => l'
  | S i', x :: l' => x :: remove_nth i' l'
  end.

Lemma length_remove_nth {A} i (l : list A) :
  (i < length l)%nat -> length (remove_nth i l) = (length l - 1)%nat.
Proof.
  revert i. induction l as [|x l IH]; intros [|i] Hi; simpl in *; try lia.
  rewrite IH by lia. lia.
Qed.

Lemma Forall_remove_nth {A} (P : A -> Prop) i l : Forall P l -> Forall P (remove_nth i l).
Proof.
  revert i. induction l as [|x l IH]; intros [|i] Hl; simpl; try done;
    inversion Hl; subst; [done|]. constructor; [done | by apply IH].
Qed.

Section Dashboard.

Context {St : Type} `{MongoStoreSpec St}.
Context {LD : MonthParse.LegacyDateParse}.

(** The server the dashboard talks to. *)
Variable server : St.

(** axios sends [{ month, page }] as the query string. *)
Definition transactions_params (month : string) (page : Z) : Listing.ListingParams :=
  Listing.mkParams (Some page) None None (Some month).

(** The [try] block of the fetch function of a request, on the server's
    answer; a rejection leaves the state as it is. *)
Definition receive (r : request) (st : AppState) : AppState :=
  match r with
  | FetchTransactions m p =>
      match Listing.get_transactions server (transactions_params m p) with
      | Listing.R200 body => set_listing (Listing.transactions body) (Listing.totalPages body) st
      | _ => st
      end
  | FetchStatistics m =>
      match Aggregation.get_statistics server (Some m) with
      | Listing.R200 s => set_statistics s st
      | _ => st
      end
  | FetchBarChart m =>
      match Aggregation.get_barchart server (Some m) with
      | Listing.R200 bars => set_bar (mkChart (map Aggregation.range bars) (map Aggregation.count bars)) st
      | _ => st
      end
  | FetchPieChart m =>
      match Aggregation.get_piechart server (Some m) with
      | Listing.R200 slices =>
          set_pie (mkChart (map Aggregation.slice_category slices) (map Aggregation.slice_count slices)) st
      | _ => st
      end
  end.

(** The state updates of an event's handler, before the effects. *)
Definition handle (ev : event) (st : AppState) : AppState :=
  match ev with
  | SelectMonth m => set_month m st
  | SetSearchText t => set_search t st
  | ClearSearch => set_search "" st
  | PreviousPage => if (page st <=? 1)%Z then st else set_page (page st - 1) st
  | NextPage => if next_disabled (page st) (totalPages st) then st else set_page (page st + 1) st
  | MouseEnterImage url => set_image (Some url) true st
  | ClickImage => set_image (hoveredImage st) false st
  | Deliver i =>
      match nth_error (pending st) i with
      | Some r => receive r (set_pending (remove_nth i (pending st)) st)
      | None => st
      end
  end.

Definition step (ev : event) (st : AppState) : AppState := commit st (handle ev st).

Definition run (evs : list event) (st : AppState) : AppState := fold_left (fun s e => step e s) evs st.

(** The first render: [useState]'s initial values, then both effects,
    which run on mount. *)
Definition initial_hooks : AppState :=
  {| transactions := []; filteredTransactions := [];
     statistics := None; barChartData := mkChart [] []; pieChartData := mkChart [] [];
     month := "March"; search := ""; page := 1; totalPages := Some 1%Q;
     hoveredImage := None; showEnlargedImage := false;
     pending := []; transactions_gen := 0 |}.

(** Both effects run after the first render. *)
Definition mount (st : AppState) : AppState :=
  let st1 := set_pending (pending st ++ fetch_all (month st) (page st)) st in
  set_filtered (List.filter (client_match (search st1)) (transactions st1)) st1.

Definition init : AppState := mount initial_hooks.

Inductive reachable : AppState -> Prop :=
| reachable_init : reachable init
| reachable_step ev st : valid_event ev = true -> reachable st -> reachable (step ev st).

(** ** Lemmas on the effects and the handlers *)

(** [commit] keeps what the render computed, except [pending] and
    [filteredTransactions]. *)
Lemma commit_fields old new :
  month (commit old new) = month new /\ page (commit old new) = page new /\
  search (commit old new) = search new /\ transactions (commit old new) = transactions new /\
  totalPages (commit old new) = totalPages new /\
  transactions_gen (commit old new) = transactions_gen new.
Proof.
  unfold commit. destruct (_ && _); destruct (_ && _); simpl; auto 10.
Qed.

Lemma commit_pending_same old new :
  month old = month new -> page old = page new ->
  pending (commit old new) = pending new.
Proof.
  intros Hm Hp. unfold commit. rewrite Hm, Hp, String.eqb_refl, Z.eqb_refl. simpl.
  by destruct (_ && _).
Qed.

Lemma commit_filtered old new :
  search old = search new -> transactions_gen old = transactions_gen new ->
  filteredTransactions (commit old new) = filteredTransactions new.
Proof.
  intros Hs Hg. unfold commit. rewrite Hs, Hg, String.eqb_refl, Nat.eqb_refl. simpl.
  by destruct (_ && _).
Qed.

Lemma commit_refilter old new :
  (search old <> search new \/ transactions_gen old <> transactions_gen new) ->
  filteredTransactions (commit old new) =
  List.filter (client_match (search new)) (transactions new).
Proof.
  intros Hne. unfold commit.
  destruct (String.eqb_spec (search old) (search new)), (Nat.eqb_spec (transactions_gen old) (transactions_gen new));
    [naive_solver | ..]; simpl; by destruct (_ && _).
Qed.

(** An answer changes neither the month, the page, the search text nor
    the requests in flight; it changes the table only with a new array. *)
Lemma receive_fields r st :
  month (receive r st) = month st /\ page (receive r st) = page st /\
  search (receive r st) = search st /\ pending (receive r st) = pending st.
Proof. destruct r; simpl; repeat case_match; simpl; auto. Qed.

Lemma receive_listing r st :
  (transactions_gen (receive r st) = transactions_gen st /\
   transactions (receive r st) = transactions st /\ totalPages (receive r st) = totalPages st /\
   filteredTransactions (receive r st) = filteredTransactions st) \/
  transactions_gen (receive r st) = S (transactions_gen st).
Proof. destruct r; simpl; repeat case_match; simpl; auto. Qed.

Lemma handle_listing ev st :
  (transactions_gen (handle ev st) = transactions_gen st /\
   transactions (handle ev st) = transactions st /\
   filteredTransactions (handle ev st) = filteredTransactions st) \/
  transactions_gen (handle ev st) = S (transactions_gen st).
Proof.
  destruct ev; simpl; repeat case_match; simpl; auto.
  destruct (receive_listing r (set_pending (remove_nth i (pending st)) st)) as [(? & ? & ? & ?)|]; auto.
Qed.

Lemma handle_page ev st :
  page (handle ev st) = page st \/
  (ev = PreviousPage /\ (1 < page st)%Z /\ page (handle ev st) = (page st - 1)%Z) \/
  (ev = NextPage /\ page (handle ev st) = (page st + 1)%Z).
Proof.
  destruct ev; simpl; repeat case_match; simpl; auto;
    try (right; left; split; [done | split; [lia | done]]).
  left. by destruct (receive_fields r (set_pending (remove_nth i (pending st)) st)) as (_ & -> & _).
Qed.

(** ** The table and the pagination *)

(** The page number is at least 1 in every state the dashboard reaches:
    Previous is disabled at page 1 and Next only increments. *)
Lemma reachable_page_pos st : reachable st -> (1 <= page st)%Z.
Proof.
  induction 1 as [|ev st Hv Hr IH]; [simpl; lia|]. unfold step.
  destruct (commit_fields st (handle ev st)) as (_ & -> & _).
  destruct (handle_page ev st) as [->|[(_ & ? & ->)|(_ & ->)]]; lia.
Qed.

Lemma filtered_invariant st :
  reachable st -> filteredTransactions st = List.filter (client_match (search st)) (transactions st).
Proof.
  induction 1 as [|ev st Hv Hr IH]; [reflexivity|]. unfold step.
  destruct (commit_fields st (handle ev st)) as (_ & _ & -> & -> & _).
  destruct (String.eqb_spec (search st) (search (handle ev st))) as [Es|Es];
    [|by rewrite commit_refilter by auto].
  destruct (handle_listing ev st) as [(Eg & Et & Ef)|Eg].
  - rewrite commit_filtered by congruence. by rewrite Ef, Et, <- Es.
  - rewrite commit_refilter by (right; lia). done.
Qed.

(** [C23] In every state the dashboard reaches, the
    table shows exactly the transactions of the current page that match
    the search text, by title, description or price: the filter effect
    runs whenever the text or the page's array changes. *)
Theorem reachable_filtered st :
  reachable st -> filteredTransactions st = List.filter (client_match (search st)) (transactions st).
Proof. apply filtered_invariant. Qed.

(** [C18] Typing in the search box sends no request:
    the search text never reaches the server, which searches only when
    it is given [searchText]. *)
Theorem search_sends_nothing st t : pending (step (SetSearchText t) st) = pending st.
Proof. unfold step. by rewrite commit_pending_same. Qed.

Lemma select_month_step st m :
  m <> month st ->
  page (step (SelectMonth m) st) = page st /\
  pending (step (SelectMonth m) st) = pending st ++ fetch_all m (page st).
Proof.
  intros Hm. unfold step, commit. simpl.
  destruct (String.eqb_spec (month st) m); [congruence|]. simpl. by destruct (_ && _).
Qed.

(** [C30] Selecting another month keeps the page
    number: the dashboard asks for that page of the new month, which may
    not exist. *)
Theorem select_month_keeps_page st m :
  m <> month st ->
  page (step (SelectMonth m) st) = page st /\
  pending (step (SelectMonth m) st) = pending st ++ fetch_all m (page st).
Proof. apply select_month_step. Qed.

(** ** Answers in the order of the requests *)

(** The table and [totalPages] after the answer to [r]. *)
Definition listing_answer (r : request) (cur : list Data * option Q) : list Data * option Q :=
  match r with
  | FetchTransactions m p =>
      match Listing.get_transactions server (transactions_params m p) with
      | Listing.R200 body => (Listing.transactions body, Listing.totalPages body)
      | _ => cur
      end
  | _ => cur
  end.

Definition last_listing (rs : list request) (cur : list Data * option Q) : list Data * option Q :=
  fold_left (fun acc r => listing_answer r acc) rs cur.

Lemma step_deliver_first st r rs :
  pending st = r :: rs ->
  pending (step (Deliver 0) st) = rs /\
  (transactions (step (Deliver 0) st), totalPages (step (Deliver 0) st)) =
    listing_answer r (transactions st, totalPages st).
Proof.
  intros Hp. unfold step, handle. rewrite Hp. cbn [nth_error remove_nth].
  destruct (receive_fields r (set_pending rs st)) as (Hm & Hpg & _ & Hpd).
  destruct (commit_fields st (receive r (set_pending rs st))) as (_ & _ & _ & -> & -> & _).
  rewrite commit_pending_same by (rewrite ?Hm, ?Hpg; done). rewrite Hpd. split; [done|].
  destruct r; simpl; repeat case_match; done.
Qed.

(** When the pending answers arrive in the order the
    requests were sent, the table and [totalPages] end as the last
    successful answer to a transactions request left them, and nothing
    is pending any more; a 404 or 500 answer leaves the previous table. *)
Theorem drain_in_order st :
  pending (run (repeat (Deliver 0) (length (pending st))) st) = [] /\
  (transactions (run (repeat (Deliver 0) (length (pending st))) st),
   totalPages (run (repeat (Deliver 0) (length (pending st))) st)) =
  last_listing (pending st) (transactions st, totalPages st).
Proof.
  remember (pending st) as rs eqn:Hrs. revert st Hrs.
  induction rs as [|r rs IH]; intros st Hrs; [done|]. simpl.
  destruct (step_deliver_first st r rs (eq_sym Hrs)) as [Hp Ht].
  rewrite (proj1 (IH _ (eq_sym Hp))), (proj2 (IH _ (eq_sym Hp))). by rewrite <- Ht.
Qed.

(** ** Every answer, in order *)

(** What the page shows after the answer to [r]: the [then] branch of
    the request's fetch function on a 200, nothing on a rejection. *)
Definition answer (r : request) (sh : Shown) : Shown :=
  match r with
  | FetchTransactions m p =>
      match Listing.get_transactions server (transactions_params m p) with
      | Listing.R200 body =>
          mkShown (Listing.transactions body) (Listing.totalPages body) (sh_statistics sh) (sh_bar sh) (sh_pie sh)
      | _ => sh
      end
  | FetchStatistics m =>
      match Aggregation.get_statistics server (Some m) with
      | Listing.R200 s => mkShown (sh_transactions sh) (sh_totalPages sh) (Some s) (sh_bar sh) (sh_pie sh)
      | _ => sh
      end
  | FetchBarChart m =>
      match Aggregation.get_barchart server (Some m) with
      | Listing.R200 bars =>
          mkShown (sh_transactions sh) (sh_totalPages sh) (sh_statistics sh)
                  (mkChart (map Aggregation.range bars) (map Aggregation.count bars)) (sh_pie sh)
      | _ => sh
      end
  | FetchPieChart m =>
      match Aggregation.get_piechart server (Some m) with
      | Listing.R200 slices =>
          mkShown (sh_transactions sh) (sh_totalPages sh) (sh_statistics sh) (sh_bar sh)
                  (mkChart (map Aggregation.slice_category slices) (map Aggregation.slice_count slices))
      | _ => sh
      end
  end.

(** The scheduler that answers the requests in flight first in, first
    out until none is left. *)
Definition drain (st : AppState) : AppState := run (repeat (Deliver 0) (length (pending st))) st.

Lemma receive_shown r st : shown (receive r st) = answer r (shown st).
Proof. destruct r; simpl; repeat case_match; reflexivity. Qed.

Lemma deliver_first st r rs :
  pending st = r :: rs ->
  pending (step (Deliver 0) st) = rs /\ shown (step (Deliver 0) st) = answer r (shown st) /\
  month (step (Deliver 0) st) = month st /\ page (step (Deliver 0) st) = page st.
Proof.
  intros Hp. unfold step, handle. rewrite Hp. cbn [nth_error remove_nth].
  destruct (receive_fields r (set_pending rs st)) as (Hm & Hpg & _ & Hpd).
  destruct (commit_fields st (receive r (set_pending rs st))) as (-> & -> & _).
  rewrite commit_pending_same by (rewrite ?Hm, ?Hpg; done).
  by rewrite commit_shown, receive_shown, Hpd, Hm, Hpg.
Qed.

Lemma drain_answers st :
  pending (drain st) = [] /\
  shown (drain st) = fold_left (fun sh r => answer r sh) (pending st) (shown st) /\
  month (drain st) = month st /\ page (drain st) = page st.
Proof.
  unfold drain. remember (pending st) as rs eqn:Hrs. revert st Hrs.
  induction rs as [|r rs IH]; intros st Hrs; [done|]. simpl.
  destruct (deliver_first st r rs (eq_sym Hrs)) as (Hp & Hs & Hm & Hpg).
  destruct (IH _ (eq_sym Hp)) as (? & -> & -> & ->). by rewrite Hs, Hm, Hpg.
Qed.

(** The answers to the four requests of a month, applied after any
    earlier ones, leave each part of the page as that month's 200
    answer sets it. *)
Lemma month_answers m p sh :
  let sh' := fold_left (fun sh r => answer r sh) (fetch_all m p) sh in
  (forall body, Listing.get_transactions server (transactions_params m p) = Listing.R200 body ->
     sh_transactions sh' = Listing.transactions body /\ sh_totalPages sh' = Listing.totalPages body) /\
  (forall s, Aggregation.get_statistics server (Some m) = Listing.R200 s -> sh_statistics sh' = Some s) /\
  (forall bars, Aggregation.get_barchart server (Some m) = Listing.R200 bars ->
     sh_bar sh' = mkChart (map Aggregation.range bars) (map Aggregation.count bars)) /\
  (forall slices, Aggregation.get_piechart server (Some m) = Listing.R200 slices ->
     sh_pie sh' = mkChart (map Aggregation.slice_category slices) (map Aggregation.slice_count slices)).
Proof.
  cbv zeta. simpl. repeat split; intros; repeat case_match; simpl; congruence.
Qed.

(** [C25] Selecting another month is eventually shown
    in full: once the requests in flight, older ones included, have been
    answered in the order they were sent, nothing is pending, the new
    month stays selected, and the table with [totalPages], the
    statistics, the bar chart and the pie chart are each the new month's
    answer wherever the server answered it with a 200. *)
Theorem select_month_shown st m :
  m <> month st ->
  pending (drain (step (SelectMonth m) st)) = [] /\
  month (drain (step (SelectMonth m) st)) = m /\
  (forall body, Listing.get_transactions server (transactions_params m (page st)) = Listing.R200 body ->
     transactions (drain (step (SelectMonth m) st)) = Listing.transactions body /\
     totalPages (drain (step (SelectMonth m) st)) = Listing.totalPages body) /\
  (forall s, Aggregation.get_statistics server (Some m) = Listing.R200 s ->
     statistics (drain (step (SelectMonth m) st)) = Some s) /\
  (forall bars, Aggregation.get_barchart server (Some m) = Listing.R200 bars ->
     barChartData (drain (step (SelectMonth m) st)) =
     mkChart (map Aggregation.range bars) (map Aggregation.count bars)) /\
  (forall slices, Aggregation.get_piechart server (Some m) = Listing.R200 slices ->
     pieChartData (drain (step (SelectMonth m) st)) =
     mkChart (map Aggregation.slice_category slices) (map Aggregation.slice_count slices)).
Proof.
  intros Hm. destruct (select_month_step st m Hm) as [_ Hpd].
  destruct (drain_answers (step (SelectMonth m) st)) as (Hnil & Hsh & Hmo & _).
  assert (Hm' : month (step (SelectMonth m) st) = m) by (unfold step; by rewrite (proj1 (commit_fields _ _))).
  rewrite Hpd, fold_left_app in Hsh.
  destruct (month_answers m (page st) (fold_left (fun sh r => answer r sh) (pending st) (shown (step (SelectMonth m) st))))
    as (Ht & Hs & Hb & Hp).
  rewrite <- Hsh in Ht, Hs, Hb, Hp. by rewrite Hmo, Hm'.
Qed.

(** [C27] When nothing is in flight and the
    server fails the four requests for a newly selected month, the page
    keeps showing the previous month's table, statistics and charts under
    the new month's name once the answers have arrived: the [catch]
    branches only log the error. *)
Theorem select_month_error_keeps st m :
  pending st = [] -> m <> month st ->
  (forall body, Listing.get_transactions server (transactions_params m (page st)) <> Listing.R200 body) ->
  (forall s, Aggregation.get_statistics server (Some m) <> Listing.R200 s) ->
  (forall bars, Aggregation.get_barchart server (Some m) <> Listing.R200 bars) ->
  (forall slices, Aggregation.get_piechart server (Some m) <> Listing.R200 slices) ->
  month (drain (step (SelectMonth m) st)) = m /\
  shown (drain (step (SelectMonth m) st)) = shown st.
Proof.
  intros Hnil Hm Ht Hs Hb Hp. destruct (select_month_step st m Hm) as [_ Hpd].
  destruct (drain_answers (step (SelectMonth m) st)) as (_ & -> & -> & _).
  rewrite Hpd, Hnil. unfold step. rewrite (proj1 (commit_fields _ _)), commit_shown. split; [done|].
  simpl. repeat case_match; naive_solver.
Qed.

(** ** Answer delivery terminates *)

(** One answer arrives for a request in flight. *)
Definition delivery (st' st : AppState) : Prop :=
  exists i, (i < length (pending st))%nat /\ st' = step (Deliver i) st.

Lemma deliver_pending st i :
  (i < length (pending st))%nat -> pending (step (Deliver i) st) = remove_nth i (pending st).
Proof.
  intros Hi. unfold step, handle.
  destruct (nth_error (pending st) i) as [r|] eqn:E; [|apply nth_error_None in E; lia].
  destruct (receive_fields r (set_pending (remove_nth i (pending st)) st)) as (Hm & Hpg & _ & Hpd).
  by rewrite commit_pending_same, Hpd by (rewrite ?Hm, ?Hpg; done).
Qed.

(** [C26] Without new user events, answers can only
    arrive finitely often: every arrival answers one request in flight
    and the effects send no request while month and page stay, so there
    is no infinite sequence of deliveries. *)
Theorem deliveries_terminate : well_founded delivery.
Proof.
  apply (wf_incl _ _ (ltof _ (fun st => length (pending st)))); [|apply well_founded_ltof].
  intros st' st [i [Hi ->]]. unfold ltof. rewrite deliver_pending, length_remove_nth by done. lia.
Qed.

(** ** Well-formed states *)

Lemma answer_charts r sh :
  chart_ok (sh_bar sh) -> chart_ok (sh_pie sh) ->
  chart_ok (sh_bar (answer r sh)) /\ chart_ok (sh_pie (answer r sh)).
Proof.
  unfold chart_ok. destruct r; simpl; repeat case_match; simpl; rewrite ?length_map; done.
Qed.

Lemma fetch_all_ok m p : m ∈ months -> (1 <= p)%Z -> Forall request_ok (fetch_all m p).
Proof. intros Hm Hp. repeat (constructor; try done). Qed.

Lemma handle_wf ev st : valid_event ev = true -> wf_fields st -> wf_fields (handle ev st).
Proof.
  intros Hv (Hm & Hp & Hr & Hb & Hpie). unfold wf_fields.
  destruct ev as [m| | | | | | |i]; simpl in *; try by split_and!.
  - apply bool_decide_eq_true in Hv. by split_and!.
  - case_match; simpl; split_and!; try done; lia.
  - case_match; simpl; split_and!; try done; lia.
  - destruct (nth_error (pending st) i) as [r|]; [|by split_and!].
    destruct (receive_fields r (set_pending (remove_nth i (pending st)) st)) as (-> & -> & _ & ->).
    change (barChartData ?x) with (sh_bar (shown x)). change (pieChartData ?x) with (sh_pie (shown x)).
    rewrite receive_shown. destruct (answer_charts r (shown st) Hb Hpie).
    split_and!; try done. by apply Forall_remove_nth.
Qed.

Lemma step_wf ev st : valid_event ev = true -> wf_fields st -> wf_fields (step ev st).
Proof.
  intros Hv Hw. destruct (handle_wf ev st Hv Hw) as (Hm & Hp & Hr & Hb & Hpie). unfold step, wf_fields.
  destruct (commit_fields st (handle ev st)) as (-> & -> & _).
  change (barChartData ?x) with (sh_bar (shown x)). change (pieChartData ?x) with (sh_pie (shown x)).
  rewrite commit_shown. split_and!; try done.
  destruct (commit_pending st (handle ev st)) as [->| ->]; [done|].
  apply Forall_app. split; [done | by apply fetch_all_ok].
Qed.

Lemma filter_incl' {A} (f : A -> bool) l : incl (List.filter f l) l.
Proof. intros x Hx. by apply filter_In in Hx as [? _]. Qed.

Lemma reachable_fields st : reachable st -> wf_fields st.
Proof.
  induction 1 as [|ev st Hv Hr IH]; [|by apply step_wf].
  assert (Hm : "March" ∈ months) by (apply (bool_decide_unpack _); vm_compute; reflexivity).
  unfold wf_fields, chart_ok. simpl. split_and!; try done; try lia; by apply fetch_all_ok.
Qed.

(** [C24] Every state the dashboard reaches is well formed:
    the selected month is one of the twelve options and the page at least
    1, every request in flight asks for such a month and page, each chart
    has as many values as labels, and the table lists only rows of the
    current page. *)
Theorem reachable_wf st : reachable st -> wf_state st.
Proof.
  intros Hr. split; [by apply reachable_fields | rewrite (filtered_invariant st Hr); apply filter_incl'].
Qed.

(** Answers in which the listing fails leave the table and
    [totalPages] as they were. *)
Lemma listing_fail_keeps m p sh :
  let sh' := fold_left (fun sh r => answer r sh) (fetch_all m p) sh in
  (forall body, Listing.get_transactions server (transactions_params m p) <> Listing.R200 body) ->
  sh_transactions sh' = sh_transactions sh /\ sh_totalPages sh' = sh_totalPages sh.
Proof. cbv zeta. simpl. intros Hn. repeat case_match; simpl; naive_solver. Qed.

(** The dashboard's listing of a month is page [p] of the month's
    matches; with the store up it is a 404 once the page is past them. *)
Lemma dashboard_listing_404 m p :
  connected server = true -> (1 <= p)%Z ->
  (Z.of_nat (length (matching (Predicates.buildDateQuery (Some m)) (documents server))) <= (p - 1) * 10)%Z ->
  Listing.get_transactions server (transactions_params m p) = Listing.R404 "No transactions found".
Proof.
  intros Hc Hp Hn. unfold transactions_params.
  rewrite Listing.transactions_answer; cbn [Listing.p_page Listing.p_perPage Listing.p_searchText
    Listing.p_month Listing.with_default]; unfold Listing.DEFAULT_PER_PAGE; try done; try lia.
  - rewrite Predicates.listing_filter_app. cbn [Predicates.searchQuery app].
    by rewrite (proj2 (Listing.page_items_empty _ p 10 Hp ltac:(lia)) Hn).
  - by rewrite Listing.filter_check_listing.
Qed.

(** [C17] The page is not reset when the month changes, and a failed
    listing leaves the table as it was: on page [p] of a month, with
    nothing in flight and the store up, selecting a month that has at
    most [(p - 1) * 10] sales makes [/transactions] answer 404, and once
    the answers have arrived the table still lists the previous month's
    transactions, with the previous [totalPages], under the new month's
    name. *)
Theorem month_change_stale_rows st m :
  reachable st -> pending st = [] -> m <> month st -> connected server = true ->
  (Z.of_nat (length (matching (Predicates.buildDateQuery (Some m)) (documents server))) <= (page st - 1) * 10)%Z ->
  Listing.get_transactions server (transactions_params m (page st)) = Listing.R404 "No transactions found" /\
  month (drain (step (SelectMonth m) st)) = m /\
  transactions (drain (step (SelectMonth m) st)) = transactions st /\
  totalPages (drain (step (SelectMonth m) st)) = totalPages st.
Proof.
  intros Hr Hnil Hm Hc Hn.
  destruct (reachable_fields st Hr) as (_ & Hp & _).
  pose proof (dashboard_listing_404 m (page st) Hc Hp Hn) as H404.
  destruct (select_month_step st m Hm) as [_ Hpd].
  destruct (drain_answers (step (SelectMonth m) st)) as (_ & Hsh & Hmo & _).
  rewrite Hpd, Hnil, app_nil_l in Hsh. unfold step in Hsh at 2. rewrite commit_shown in Hsh.
  destruct (listing_fail_keeps m (page st) (shown (handle (SelectMonth m) st))) as [Ht Htp];
    [by rewrite H404|].
  rewrite <- Hsh in Ht, Htp. simpl in Ht, Htp.
  split_and!; [done | | done | done].
  rewrite Hmo. unfold step. by rewrite (proj1 (commit_fields _ _)).
Qed.

End Dashboard.

#[local] Existing Instance MonthParse.legacy_invalid.

Lemma reachable_run {St} `{MongoStoreSpec St} (server : St) evs st :
  forallb valid_event evs = true ->
  reachable server st -> reachable server (run server evs st).
Proof.
  revert st. induction evs as [|ev evs IH]; intros st Hv Hr; [done|]. simpl in *.
  apply andb_prop in Hv as [Hv Hvs]. apply IH; [done|]. by constructor.
Qed.

(** ** A store with one sale in March and one in April *)

Definition march_sale : Data :=
  mkData 1 "Shirt" 120 "cotton shirt" "men's clothing" "i" true (Calendar.date_of 2022 3 10 0).
Definition april_sale : Data :=
  mkData 2 "Ring" (201#2) "gold ring" "jewelery" "i" false (Calendar.date_of 2022 4 5 0).

Definition dash_store : Collection := mkCollection [march_sale; april_sale] true.

Definition dash_events : list event :=
  [Deliver 0; SetSearchText "RING"; SelectMonth "April"; NextPage; Deliver 4; SetSearchText "100.5"].

Lemma reachable_filtered_witness :
  reachable dash_store (run dash_store dash_events init) /\
  filteredTransactions (run dash_store dash_events init) =
  List.filter (client_match (search (run dash_store dash_events init)))
              (transactions (run dash_store dash_events init)).
Proof.
  assert (Hr : reachable dash_store (run dash_store dash_events init))
    by (apply reachable_run; [reflexivity | constructor]).
  split; [exact Hr | exact (reachable_filtered dash_store _ Hr)].
Defined.

Lemma select_month_keeps_page_witness :
  "April" <> month init /\
  page (step dash_store (SelectMonth "April") init) = page init /\
  pending (step dash_store (SelectMonth "April") init) = pending init ++ fetch_all "April" (page init).
Proof.
  assert (Hm : "April" <> month init) by discriminate.
  split; [exact Hm | exact (select_month_keeps_page dash_store init "April" Hm)].
Defined.

Lemma reachable_wf_witness :
  reachable dash_store (run dash_store dash_events init) /\
  wf_state (run dash_store dash_events init).
Proof.
  assert (Hr : reachable dash_store (run dash_store dash_events init))
    by (apply reachable_run; [reflexivity | constructor]).
  split; [exact Hr | exact (reachable_wf dash_store _ Hr)].
Defined.

(** From the first render, April is selected and its answers arrive
    after the four requests for March: the table then lists April's sale
    and the statistics are April's. *)
Lemma select_month_shown_witness :
  "April" <> month init /\
  pending (drain dash_store (step dash_store (SelectMonth "April") init)) = [] /\
  transactions (drain dash_store (step dash_store (SelectMonth "April") init)) = [april_sale] /\
  statistics (drain dash_store (step dash_store (SelectMonth "April") init)) =
    Some (Aggregation.mkStats (201#2) 0 1).
Proof.
  assert (Hm : "April" <> month init) by discriminate.
  destruct (select_month_shown dash_store init "April" Hm) as (Hp & _ & Ht & Hs & _).
  split_and!; [exact Hm | exact Hp | |].
  - rewrite (proj1 (Ht _ eq_refl)). reflexivity.
  - exact (Hs _ eq_refl).
Defined.

(** The store becomes unreachable after the first render: April is
    selected, its four requests fail, and March's figures stay. *)
Definition dash_down : Collection := mkCollection [march_sale; april_sale] false.

Lemma select_month_error_keeps_witness :
  pending (drain dash_down init) = [] /\ "April" <> month (drain dash_down init) /\
  month (drain dash_down (step dash_down (SelectMonth "April") (drain dash_down init))) = "April" /\
  shown (drain dash_down (step dash_down (SelectMonth "April") (drain dash_down init))) =
  shown (drain dash_down init).
Proof.
  assert (Hnil : pending (drain dash_down init) = []) by reflexivity.
  assert (Hm : "April" <> month (drain dash_down init)) by (vm_compute; discriminate).
  split_and!; [exact Hnil | exact Hm | ..];
    apply (select_month_error_keeps dash_down (drain dash_down init) "April" Hnil Hm);
    intros ? Hr; vm_compute in Hr; discriminate.
Defined.

(** Answers are applied in the order they
    arrive: when the answer to the first month's request arrives after
    the one for the newly selected month, the table shows the sales of
    March while April is selected. *)
Example stale_answer_shown :
  let st := run dash_store [SelectMonth "April"; Deliver 4; Deliver 0] init in
  month st = "April" /\ transactions st = [march_sale] /\ filteredTransactions st = [march_sale].
Proof. vm_compute. repeat split. Qed.

(** Eleven sales in March and one in April: March has two pages. *)
Definition stale_store : Collection :=
  mkCollection (map (fun i => mkData (Z.of_nat i) "Item" 10 "item" "misc" "i" true
                                     (Calendar.date_of 2022 3 (Z.of_nat i) 0)) (seq 1 11)
                ++ [april_sale]) true.

(** The first render's answers, Next, and the second page's answers. *)
Definition stale_events : list event :=
  [Deliver 0; Deliver 0; Deliver 0; Deliver 0; NextPage; Deliver 0; Deliver 0; Deliver 0; Deliver 0].

(** On page 2 of March, April is selected: its listing is a 404 and the
    table keeps March's eleventh sale. *)
Lemma month_change_stale_rows_witness :
  let st := run stale_store stale_events init in
  reachable stale_store st /\ pending st = [] /\ "April" <> month st /\ page st = 2%Z /\
  Listing.get_transactions stale_store (transactions_params "April" (page st)) =
    Listing.R404 "No transactions found" /\
  transactions (drain stale_store (step stale_store (SelectMonth "April") st)) = transactions st /\
  month (drain stale_store (step stale_store (SelectMonth "April") st)) = "April".
Proof.
  intros st.
  assert (Hr : reachable stale_store st) by (apply reachable_run; [reflexivity | constructor]).
  assert (Hnil : pending st = []) by (vm_compute; reflexivity).
  assert (Hm : "April" <> month st) by (vm_compute; discriminate).
  assert (Hc : connected stale_store = true) by reflexivity.
  destruct (month_change_stale_rows stale_store st "April" Hr Hnil Hm Hc) as (H4 & Hmo & Ht & _);
    [apply Z.leb_le; vm_compute; reflexivity|].
  split_and!; [exact Hr | exact Hnil | exact Hm | vm_compute; reflexivity | exact H4 | exact Ht | exact Hmo].
Defined.

End Frontend.
