(* ===== verification/Request.v ===== *)
(** * Request: [/transactions] on the query string, and the dashboard's requests

    Express gives [/transactions] its parameters as strings
    (server.js 56).  The handler computes with [page] and [perPage]
    through JavaScript's coercions: [(page - 1) * perPage] and
    [totalTransactions / perPage] read them with [ToNumber], [.limit]
    receives [perPage], which Mongoose casts with [Number], and the
    answer reports [parseInt(page)] and [parseInt(perPage)] (84-85).  An
    absent parameter is the default number, [1] or [10], whose
    [parseInt] reads [String(1)] or [String(10)].

    [get_transactions_query] is that handler: when both parameters are
    integers after [ToNumber], it runs the integer handler
    [Listing.get_transactions] on them and reports the [parseInt] of the
    strings; when one is not an integer ([NaN], [Infinity], [2.5]) the
    skip or the limit is not an integer and MongoDB's reading of it is
    not modelled ([RUnmodelled]).

    The dashboard (App.jsx 44-49) sends [params: { month, page }]:
    axios writes [String(page)] and the month name into the query string.
    The theorems: on those strings the handler is exactly the integer
    model that [Frontend] uses; in general it lists the page [ToNumber]
    reads but reports the page [parseInt] reads, which differ on
    ["1e1"]; and an empty [page] parameter is [0], not the default, so
    the answer is a 500. *)

From S2P Require Import Prelude Transaction JsRuntime Coercion Regex Query Predicates Listing Aggregation Frontend.

Module Request.

Import Query Predicates Listing StringToNumber ParseInt.

(** [req.query] of [/transactions]; [None] is an absent key.  Repeated
    keys, which Express turns into arrays, are not modelled. *)
Record RawQuery : Type := mkQuery {
  q_page : option string;
  q_perPage : option string;
  q_searchText : option string;
  q_month : option string
}.

(** The JSON body of a 200 answer; [null] for a [NaN] of [parseInt]. *)
Record ListingJson : Type := mkJson {
  j_transactions : list Data;
  j_page : option Z;
  j_perPage : option Z;
  j_totalPages : option Q
}.

(** [page = DEFAULT_PAGE] in the destructuring, then [ToNumber] in the
    arithmetic. *)
Definition number_param (o : option string) (d : Z) : jsnum :=
  match o with
  | Some s => to_number s
  | None => JFinite (inject_Z d)
  end.

(** [parseInt(page)]: of the string, or of [String(d)] for the default. *)
Definition int_param (o : option string) (d : Z) : option Z :=
  parse_int (match o with Some s => s | None => int_to_string d end).

Section Handler.

Context {St : Type} `{MongoStoreSpec St}.
Context {LD : MonthParse.LegacyDateParse}.

Definition get_transactions_query (s : St) (q : RawQuery) : response ListingJson :=
  match as_integer (number_param (q_page q) DEFAULT_PAGE),
        as_integer (number_param (q_perPage q) DEFAULT_PER_PAGE) with
  | Some pg, Some pp =>
      match get_transactions s (mkParams (Some pg) (Some pp) (q_searchText q) (q_month q)) with
      | R200 b =>
          R200 (mkJson (transactions b) (int_param (q_page q) DEFAULT_PAGE)
                       (int_param (q_perPage q) DEFAULT_PER_PAGE) (totalPages b))
      | R404 m => R404 m
      | R500 m => R500 m
      | RUnmodelled => RUnmodelled
      end
  | _, _ => RUnmodelled
  end.

End Handler.

(** axios's query string for [params: { month, page }] of
    [fetchTransactions]: [String(page)] and the month; no [perPage] and
    no [searchText]. *)
Definition axios_transactions_query (month : string) (page : Z) : RawQuery :=
  mkQuery (Some (int_to_string page)) None None (Some month).

(** The body the dashboard's model reads, as the JSON of the handler. *)
Definition json_of (r : response ListingBody) : response ListingJson :=
  match r with
  | R200 b => R200 (mkJson (transactions b) (Some (page b)) (Some (perPage b)) (totalPages b))
  | R404 m => R404 m
  | R500 m => R500 m
  | RUnmodelled => RUnmodelled
  end.

(** ** Theorems *)

Section Theorems.

Context {St : Type} `{MongoStoreSpec St}.
Context {LD : MonthParse.LegacyDateParse}.

(** When the store is unreachable [/transactions] on strings answers
    500, or is left open with its non-integer parameters. *)
Lemma get_transactions_query_down s q :
  connected s = false ->
  get_transactions_query s q = R500 "Error retrieving transactions" \/ get_transactions_query s q = RUnmodelled.
Proof.
  intros Hc. unfold get_transactions_query.
  destruct (as_integer (number_param (q_page q) DEFAULT_PAGE)),
    (as_integer (number_param (q_perPage q) DEFAULT_PER_PAGE)); try by right.
  rewrite get_transactions_down by done. by left.
Qed.

Lemma axios_query_answer s month page :
  get_transactions_query s (axios_transactions_query month page) =
  json_of (get_transactions s (Frontend.transactions_params month page)).
Proof.
  destruct (int_to_string_read page) as [Hn Hi].
  unfold get_transactions_query, axios_transactions_query, number_param. cbn [q_page q_perPage].
  rewrite Hn, !as_integer_inject_Z.
  replace (get_transactions s (mkParams (Some page) (Some DEFAULT_PER_PAGE) None (Some month)))
    with (get_transactions s (Frontend.transactions_params month page)) by reflexivity.
  destruct (get_transactions s (Frontend.transactions_params month page)) as [b| | |] eqn:E; try done.
  apply get_transactions_R200_fields in E as [Hp Hpp]. simpl in Hp, Hpp.
  unfold int_param. simpl. rewrite Hi, Hp, Hpp, (proj2 (int_to_string_read DEFAULT_PER_PAGE)). done.
Qed.

(** [C14] The query string the dashboard sends for
    a month and a page is answered exactly as the integer model of the
    handler that [Frontend] uses answers that month and page, with the
    page and [perPage] the body reports: [String(page)] is read back as
    [page] by [ToNumber] and by [parseInt], and the absent [perPage] is
    the default 10. *)
Theorem dashboard_query_refines s month page :
  get_transactions_query s (axios_transactions_query month page) =
  json_of (get_transactions s (Frontend.transactions_params month page)).
Proof. apply axios_query_answer. Qed.


(** [C28] An empty or blank [page] parameter, as in
    [?page=], is not the default page: [ToNumber] reads it as 0, the skip
    [-perPage] is negative, MongoDB refuses it and the handler answers
    500. *)
Theorem blank_page_500 s q str pp :
  q_page q = Some str -> trim str = EmptyString ->
  as_integer (number_param (q_perPage q) DEFAULT_PER_PAGE) = Some pp -> (1 <= pp)%Z ->
  connected s = true -> query_check (listing_filter (q_searchText q) (q_month q)) = Ok tt ->
  get_transactions_query s q = R500 "Error retrieving transactions".
Proof.
  intros Hs Ht Hpp H1 Hc Hq. unfold get_transactions_query.
  rewrite Hs, Hpp. simpl. unfold to_number. rewrite Ht.
  simpl.
  rewrite nonpositive_page_answer by (simpl; (done || lia)). done.
Qed.

End Theorems.

#[local] Existing Instance MonthParse.legacy_invalid.

(** ** Witnesses *)

(** Twelve March sales, one per day. *)
Definition twelve_sales : list Data :=
  map (fun i => mkData (Z.of_nat i) "Item" 10 "item" "misc" "i" true (Calendar.date_of 2022 3 (Z.of_nat i) 0))
      (seq 1 12).

Definition twelve_store : Collection := mkCollection twelve_sales true.


Lemma blank_page_500_witness :
  get_transactions_query Frontend.dash_store (mkQuery (Some "") None None (Some "March")) =
  R500 "Error retrieving transactions".
Proof.
  apply (blank_page_500 Frontend.dash_store _ "" 10); [reflexivity | reflexivity | reflexivity | lia | reflexivity | vm_compute; reflexivity].
Defined.

End Request.
