(* ===== verification/Server.v ===== *)
(** * Server: the Express application around the four handlers

    server.js builds an Express application (lines 1-6): [app.use(cors())]
    puts [Access-Control-Allow-Origin: *] on every response and answers
    a preflight [OPTIONS] request itself with 204; [express.json()]
    parses JSON request bodies, which the four [GET] routes never read.
    The routes (lines 55, 96, 121, 147) are matched by Express's
    defaults: a [GET] route also serves [HEAD] (without the body), the
    path matches without regard to case and with an optional trailing
    slash, and a request no route matches ends in Express's final
    handler with 404 [Cannot GET /path].  [app.listen(3000)]
    (lines 166-168) is where the dashboard sends its requests.

    [app] is that composition: the middleware [cors] around [router],
    which reads [req.query] from the pairs of the query string and calls
    the handlers of [Request] and [Aggregation].  [http_of] is the
    request axios makes for each fetch of the dashboard (App.jsx 42-120).

    The theorems: every response carries the CORS header the browser
    needs to hand it to the dashboard, which runs on another origin;
    each request of the dashboard is answered with exactly the answer
    the [Frontend] model takes from the handlers; any other path is a
    404; and with the store down, a request that reaches a handler is
    answered 500, with the message of its route's [catch] for the
    dashboard's requests.  [Url] reads the pairs from the request
    target.  Not modelled: the parsing of [a[b]=c] keys into objects
    (such a key for a parameter the handlers read is left open) and the
    HTTP exchange itself. *)

From S2P Require Import Prelude Transaction JsRuntime Coercion Query Predicates Listing Aggregation Frontend Request.

Module Server.

Import Query Listing Request.

(** ** Requests and responses *)

Inductive method : Type := GET | HEAD | POST | PUT | PATCH | DELETE | OPTIONS.

#[export] Instance method_eq_dec : EqDecision method.
Proof. solve_decision. Defined.

Record http_request : Type := mkReq {
  req_method : method;
  req_path : string;
  req_query : list (string * string)   (** the decoded pairs of the query string *)
}.

(** The JSON a route sends, the body of Express's final handler, or none. *)
Inductive http_body : Type :=
| BTransactions (j : ListingJson)
| BStatistics (s : Aggregation.Stats)
| BBars (bars : list Aggregation.Bar)
| BSlices (slices : list Aggregation.Slice)
| BMessage (message : string)
| BCannot (text : string)
| BNone.

Record http_response : Type := mkResp {
  status : Z;
  allow_origin : option string;
  body : http_body
}.

Definition method_name (m : method) : string :=
  match m with
  | GET => "GET" | HEAD => "HEAD" | POST => "POST" | PUT => "PUT"
  | PATCH => "PATCH" | DELETE => "DELETE" | OPTIONS => "OPTIONS"
  end.

(** ** [req.query] *)

(** The value of a parameter: [Some None] when absent, [Some (Some v)]
    when given once; [None] when it is repeated (an array) or written
    with brackets (an object), which the model leaves open. *)
Definition query_param (q : list (string * string)) (k : string) : option (option string) :=
  if existsb (fun kv => String.prefix (k ++ "[") (fst kv)) q then None
  else
    match List.filter (fun kv => String.eqb (fst kv) k) q with
    | [] => Some None
    | [(_, v)] => Some (Some v)
    | _ => None
    end.

(** ** Routing *)

Inductive route : Type := RTransactions | RStatistics | RBarchart | RPiechart.

(** Express's default matching: case-insensitive, one optional trailing
    slash. *)
Definition strip_slash (p : string) : string :=
  match String.length p with
  | O => p
  | S n => if String.eqb (String.substring n 1 p) "/" then String.substring 0 n p else p
  end.

Definition route_of (p : string) : option route :=
  let p' := lower_string (strip_slash p) in
  if String.eqb p' "/transactions" then Some RTransactions
  else if String.eqb p' "/statistics" then Some RStatistics
  else if String.eqb p' "/barchart" then Some RBarchart
  else if String.eqb p' "/piechart" then Some RPiechart
  else None.

(** [res.json(...)] or [res.status(code).json({ message })]. *)
Definition send {A} (inj : A -> http_body) (r : response A) : option http_response :=
  match r with
  | R200 a => Some (mkResp 200 None (inj a))
  | R404 msg => Some (mkResp 404 None (BMessage msg))
  | R500 msg => Some (mkResp 500 None (BMessage msg))
  | RUnmodelled => None
  end.

Definition strip_body (r : http_response) : http_response := mkResp (status r) (allow_origin r) BNone.

Section App.

Context {St : Type} `{MongoStoreSpec St}.
Context {LD : MonthParse.LegacyDateParse}.

Variable store : St.

(** The route handlers on [req.query]. *)
Definition run_route (rt : route) (q : list (string * string)) : option http_response :=
  match rt with
  | RTransactions =>
      match query_param q "page", query_param q "perPage", query_param q "searchText", query_param q "month" with
      | Some pg, Some pp, Some st, Some mo => send BTransactions (get_transactions_query store (mkQuery pg pp st mo))
      | _, _, _, _ => None
      end
  | RStatistics =>
      match query_param q "month" with
      | Some mo => send BStatistics (Aggregation.get_statistics store mo)
      | None => None
      end
  | RBarchart =>
      match query_param q "month" with
      | Some mo => send BBars (Aggregation.get_barchart store mo)
      | None => None
      end
  | RPiechart =>
      match query_param q "month" with
      | Some mo => send BSlices (Aggregation.get_piechart store mo)
      | None => None
      end
  end.

(** The routes [app.get(...)], then Express's final handler. *)
Definition router (req : http_request) : option http_response :=
  let unmatched := Some (mkResp 404 None (BCannot ("Cannot " ++ method_name (req_method req) ++ " " ++ req_path req))) in
  match route_of (req_path req) with
  | Some rt =>
      match req_method req with
      | GET => run_route rt (req_query req)
      | HEAD => option_map strip_body (run_route rt (req_query req))
      | _ => unmatched
      end
  | None => unmatched
  end.

End App.

(** [cors()] with its defaults: the header on every response, and a
    preflight answered with 204 without going further. *)
Definition cors (next : http_request -> option http_response) (req : http_request) : option http_response :=
  match req_method req with
  | OPTIONS => Some (mkResp 204 (Some "*") BNone)
  | _ => option_map (fun r => mkResp (status r) (Some "*") (body r)) (next req)
  end.

(** [app.use(express.json()); app.use(cors());] and the routes; the JSON
    parser reads no body of a [GET] and passes every request on. *)
Definition app {St} `{MongoStoreSpec St} {LD : MonthParse.LegacyDateParse} (store : St) : http_request -> option http_response :=
  cors (router store).

(** ** The dashboard's requests *)

(** The request axios makes for a fetch of the dashboard:
    [axios.get(url, { params })] with the params in their order. *)
Definition http_of (r : Frontend.request) : http_request :=
  match r with
  | Frontend.FetchTransactions m p =>
      mkReq GET "/transactions" [("month", m); ("page", int_to_string p)]
  | Frontend.FetchStatistics m => mkReq GET "/statistics" [("month", m)]
  | Frontend.FetchBarChart m => mkReq GET "/barchart" [("month", m)]
  | Frontend.FetchPieChart m => mkReq GET "/piechart" [("month", m)]
  end.

(** The answer the [Frontend] model takes from the handlers, as the
    response the server sends. *)
Definition model_answer {St} `{MongoStoreSpec St} {LD : MonthParse.LegacyDateParse} (store : St) (r : Frontend.request) : option http_response :=
  match r with
  | Frontend.FetchTransactions m p =>
      send BTransactions (json_of (get_transactions store (Frontend.transactions_params m p)))
  | Frontend.FetchStatistics m => send BStatistics (Aggregation.get_statistics store (Some m))
  | Frontend.FetchBarChart m => send BBars (Aggregation.get_barchart store (Some m))
  | Frontend.FetchPieChart m => send BSlices (Aggregation.get_piechart store (Some m))
  end.

(** The message of the [catch] branch of the route a request of the
    dashboard reaches (server.js 90, 116, 142, 161). *)
Definition fetch_error (r : Frontend.request) : string :=
  match r with
  | Frontend.FetchTransactions _ _ => "Error retrieving transactions"
  | Frontend.FetchStatistics _ => "Error retrieving statistics"
  | Frontend.FetchBarChart _ => "Error retrieving bar chart data"
  | Frontend.FetchPieChart _ => "Error retrieving pie chart data"
  end.

(** The requests the router hands to a route handler, whose first act
    is a query of the store: a [GET] or [HEAD] of one of the four paths.
    The preflight and the final handler's 404 query nothing. *)
Definition reaches_handler (req : http_request) : bool :=
  match req_method req, route_of (req_path req) with
  | GET, Some _ | HEAD, Some _ => true
  | _, _ => false
  end.

(** ** Theorems *)

(** What [cors] does to the response of the routes. *)
Definition with_cors (r : http_response) : http_response := mkResp (status r) (Some "*") (body r).

(** Every response of the application carries [Access-Control-Allow-Origin: *]. *)
Lemma app_allow_origin {St} `{MongoStoreSpec St} {LD : MonthParse.LegacyDateParse} (store : St) req r :
  app store req = Some r -> allow_origin r = Some "*".
Proof.
  unfold app, cors. destruct (req_method req); [..|by intros [= <-]];
    destruct (router store req); by intros [= <-].
Qed.

(** A path that is none of the four routes, with any method but the
    preflight, ends in Express's final handler. *)
Lemma app_unmatched {St} `{MongoStoreSpec St} {LD : MonthParse.LegacyDateParse} (store : St) req :
  route_of (req_path req) = None -> req_method req <> OPTIONS ->
  app store req = Some (mkResp 404 (Some "*")
                          (BCannot ("Cannot " ++ method_name (req_method req) ++ " " ++ req_path req))).
Proof.
  intros Hr Hm. unfold app, cors, router. rewrite Hr.
  by destruct (req_method req).
Qed.

Lemma http_of_answer {St} `{MongoStoreSpec St} {LD : MonthParse.LegacyDateParse} (store : St) r :
  app store (http_of r) = option_map with_cors (model_answer store r).
Proof.
  destruct r as [m p|m|m|m]; unfold app, cors, router, run_route, query_param; simpl; [|done..].
  change (mkQuery (Some (int_to_string p)) None None (Some m)) with (axios_transactions_query m p).
  by rewrite axios_query_answer.
Qed.

Lemma model_answer_down {St} `{MongoStoreSpec St} {LD : MonthParse.LegacyDateParse} (store : St) r :
  connected store = false -> model_answer store r = Some (mkResp 500 None (BMessage (fetch_error r))).
Proof.
  intros Hc. destruct r; simpl;
    rewrite ?get_transactions_down, ?Aggregation.get_statistics_down,
      ?Aggregation.get_barchart_down, ?Aggregation.get_piechart_down by done; done.
Qed.

(** Each request of the dashboard has an answer in the model: its
    filters compile, so every store error is a 500. *)
Lemma model_answer_some {St} `{MongoStoreSpec St} {LD : MonthParse.LegacyDateParse} (store : St) r : is_Some (model_answer store r).
Proof.
  destruct (connected store) eqn:Hc; [|rewrite model_answer_down by done; by eexists].
  destruct r as [m p|m|m|m]; simpl.
  - unfold get_transactions. rewrite countDocuments_spec, find_spec, !castable_listing, Hc, query_check_listing. simpl.
    destruct (_ <? 0)%Z; simpl; [by eexists|]. destruct (Nat.eqb _ 0); by eexists.
  - rewrite Aggregation.statistics_answer by done. by eexists.
  - rewrite Aggregation.barchart_answer by done. by eexists.
  - unfold Aggregation.get_piechart.
    destruct (aggregate_count_by_category _ _) as [gs|e] eqn:E; [by eexists|].
    apply group_err in E as [[Hd _]|[_ E]]; [congruence|]. by rewrite Aggregation.query_check_date in E.
Qed.

(** A request that reaches a handler queries the store: with the store
    down it is answered 500, or left open. *)
Lemma router_down_500 {St} `{MongoStoreSpec St} {LD : MonthParse.LegacyDateParse} (store : St) req r :
  connected store = false -> reaches_handler req = true -> router store req = Some r -> status r = 500.
Proof.
  intros Hc Hreach.
  assert (Hrt : forall rt r, run_route store rt (req_query req) = Some r -> status r = 500).
  { intros rt r'. destruct rt; unfold run_route;
      [destruct (query_param (req_query req) "page"), (query_param (req_query req) "perPage"), (query_param (req_query req) "searchText"),
         (query_param (req_query req) "month"); try done;
       destruct (get_transactions_query_down store (mkQuery o o0 o1 o2) Hc) as [-> | ->]
      |destruct (query_param (req_query req) "month"); [rewrite Aggregation.get_statistics_down by done|]
      |destruct (query_param (req_query req) "month"); [rewrite Aggregation.get_barchart_down by done|]
      |destruct (query_param (req_query req) "month"); [rewrite Aggregation.get_piechart_down by done|]];
      by intros [= <-]. }
  unfold reaches_handler in Hreach. unfold router.
  destruct (route_of (req_path req)) as [rt|], (req_method req); try discriminate; [by apply Hrt|].
  simpl. destruct (run_route store rt (req_query req)) eqn:E; [|done]. intros [= <-]. exact (Hrt rt h E).
Qed.

(** A request that reaches no handler, the preflight or a 404, is
    answered the same whatever the store. *)
Lemma app_no_handler {St} `{MongoStoreSpec St} {LD : MonthParse.LegacyDateParse} (store store' : St) req :
  reaches_handler req = false -> app store req = app store' req.
Proof.
  unfold reaches_handler, app, cors, router.
  destruct (req_method req), (route_of (req_path req)); done.
Qed.

(** With the store down, every answer the application gives to a
    request that reaches a handler is a 500. *)
Lemma app_down_500 {St} `{MongoStoreSpec St} {LD : MonthParse.LegacyDateParse} (store : St) req r :
  connected store = false -> reaches_handler req = true -> app store req = Some r -> status r = 500.
Proof.
  intros Hc Hr. unfold app, cors.
  destruct (req_method req) eqn:Em; [..|unfold reaches_handler in Hr; by rewrite Em in Hr];
    destruct (router store req) eqn:E; try done; intros [= <-]; simpl; by eapply router_down_500.
Qed.

(** [C16] Every request the dashboard sends, for
    the transactions of a month and page, the statistics, the bar chart
    or the pie chart of a month, reaches its route with the parameters
    the handler reads and is answered, with the CORS header the browser
    needs, exactly as the [Frontend] model takes the answer from the
    handlers. *)
Theorem dashboard_http_answers {St} `{MongoStoreSpec St} {LD : MonthParse.LegacyDateParse} (store : St) r :
  app store (http_of r) = option_map with_cors (model_answer store r).
Proof. apply http_of_answer. Qed.

(** [C19] When the store cannot be reached, each
    request of the dashboard reaches its handler, whose first query
    fails: the [catch] branch answers 500 with the route's message, with
    the CORS header, so the dashboard's [catch] receives it. *)
Theorem dashboard_store_down {St} `{MongoStoreSpec St} {LD : MonthParse.LegacyDateParse} (store : St) r :
  connected store = false ->
  app store (http_of r) = Some (mkResp 500 (Some "*") (BMessage (fetch_error r))).
Proof. intros Hc. by rewrite http_of_answer, model_answer_down. Qed.

#[local] Existing Instance MonthParse.legacy_invalid.

Lemma dashboard_store_down_witness :
  app (Query.mkCollection [] false) (http_of (Frontend.FetchBarChart "March")) =
    Some (mkResp 500 (Some "*") (BMessage "Error retrieving bar chart data")).
Proof. apply (dashboard_store_down (Query.mkCollection [] false)). reflexivity. Defined.

(** Express matches [/Transactions/] to the route of [/transactions];
    a [POST] to it, which no route takes, is a 404. *)
Example route_defaults :
  route_of "/Transactions/" = Some RTransactions /\ route_of "/transactions//" = None /\
  app Frontend.dash_store (mkReq POST "/transactions" []) =
    Some (mkResp 404 (Some "*") (BCannot "Cannot POST /transactions")).
Proof. split; [reflexivity|]. split; [reflexivity|]. reflexivity. Qed.

End Server.
