(* ===== verification/Url.v ===== *)
(** * Url: the query string between axios and Express

    [axios.get(url, { params })] (App.jsx 44-49, 60-61, 71-72, 97-98) writes the
    params into the URL: each key and value goes through
    [encodeURIComponent] (letters, digits and [-_.!~*'()] kept, every
    other character as the [%XY] of its UTF-8 bytes), after which axios's
    [encode] writes [%3A], [%24], [%2C], [%20], [%5B] and [%5D] back as
    [:], [$], [,], [+], [[] and []]; the pairs are joined with [=] and
    [&] and appended to the URL after [?].  Express 4 reads [req.path]
    before the [?] and [req.query] (server.js 56, 97, 122, 148) with
    [qs.parse]: [%5B] and [%5D] back to brackets, at most 1000 parts
    split on [&], each cut at its first [=] (or after the first [\]=]),
    [+] read as a space and [decodeURIComponent] applied, the text
    itself when that throws; a part with an empty key is dropped.

    Characters are the 256 of [ascii], read as the code points
    U+0000-U+00FF.  [decode_uri] answers [Wide] on a UTF-8 sequence for
    a code point above U+00FF, which the model leaves open.

    The theorems: axios's sequence of replacements is the encoding of
    each character on its own ([axios_encode_chars]); [qs]'s decoding
    reads back every string axios encodes; and the request target axios
    builds for a fetch of the dashboard gives Express exactly the path
    and query pairs of [Server.http_of], whatever the month string. *)

From S2P Require Import Prelude Transaction JsRuntime Query Listing Aggregation Frontend Request Server.

Module Url.

Import Server.

Local Open Scope Z_scope.

Definition code (c : ascii) : Z := Z.of_nat (nat_of_ascii c).
Definition char_of (n : Z) : ascii := ascii_of_nat (Z.to_nat n).

(** ** [encodeURIComponent] *)

(** The characters it leaves as they are. *)
Definition uri_unreserved (c : ascii) : bool :=
  let n := code c in
  ((48 <=? n) && (n <=? 57)) || ((65 <=? n) && (n <=? 90)) || ((97 <=? n) && (n <=? 122)) ||
  existsb (fun d => (c =? d)%char) ["-"; "_"; "."; "!"; "~"; "*"; "'"; "("; ")"]%char.

(** An upper-case hexadecimal digit. *)
Definition hex_digit (n : Z) : ascii := char_of (if n <? 10 then 48 + n else 55 + n).

Definition hex_value (c : ascii) : option Z :=
  let n := code c in
  if (48 <=? n) && (n <=? 57) then Some (n - 48)
  else if (65 <=? n) && (n <=? 70) then Some (n - 55)
  else if (97 <=? n) && (n <=? 102) then Some (n - 87)
  else None.

(** [%XY] of a byte. *)
Definition percent (b : Z) : string :=
  String "%" (String (hex_digit (Z.shiftr b 4)) (String (hex_digit (Z.land b 15)) EmptyString)).

(** The UTF-8 bytes of a code point below 256. *)
Definition utf8_bytes (n : Z) : list Z :=
  if n <? 128 then [n] else [Z.lor 192 (Z.shiftr n 6); Z.lor 128 (Z.land n 63)].

Fixpoint encodeURIComponent (s : string) : string :=
  match s with
  | EmptyString => EmptyString
  | String c s' =>
      ((if uri_unreserved c then String c EmptyString
        else foldr String.append EmptyString (map percent (utf8_bytes (code c)))) ++ encodeURIComponent s')%string
  end.

(** ** axios's [encode] *)

(** [str.replace(/%XY/g, r)]: every [%XY] whose digits [m] accepts,
    from left to right. *)
Fixpoint replace_pct (m : ascii -> ascii -> bool) (r : ascii) (s : string) : string :=
  match s with
  | EmptyString => EmptyString
  | String x s1 =>
      match s1 with
      | String y (String z s') =>
          if (x =? "%")%char && m y z then String r (replace_pct m r s')
          else String x (replace_pct m r s1)
      | _ => String x (replace_pct m r s1)
      end
  end.

(** The two hexadecimal digits, with [/i] or without. *)
Definition hex_is (a b : ascii) (ci : bool) (x y : ascii) : bool :=
  (x =? a)%char && ((y =? b)%char || (ci && (y =? to_lower b)%char)).

(** [encodeURIComponent(val).replace(/%3A/gi, ':').replace(/%24/g, '$')
    .replace(/%2C/gi, ',').replace(/%20/g, '+').replace(/%5B/gi, '[')
    .replace(/%5D/gi, ']')]. *)
Definition axios_encode (s : string) : string :=
  replace_pct (hex_is "5" "D" true) "]" (replace_pct (hex_is "5" "B" true) "["
    (replace_pct (hex_is "2" "0" false) "+" (replace_pct (hex_is "2" "C" true) ","
      (replace_pct (hex_is "2" "4" false) "$" (replace_pct (hex_is "3" "A" true) ":"
        (encodeURIComponent s)))))).

(** The pairs as [key=value], joined with [&]. *)
Definition serialize (ps : list (string * string)) : string :=
  String.concat "&" (map (fun kv => (axios_encode kv.1 ++ "=" ++ axios_encode kv.2)%string) ps).

(** [buildURL]: the serialized params after [?], when there are any. *)
Definition build_url (url : string) (ps : list (string * string)) : string :=
  match serialize ps with
  | EmptyString => url
  | q => (url ++ "?" ++ q)%string
  end.

(** ** [qs.parse] *)

(** [str.split(d)] *)
Fixpoint split_on (d : ascii) (s : string) : list string :=
  match s with
  | EmptyString => [EmptyString]
  | String c s' =>
      if (c =? d)%char then EmptyString :: split_on d s'
      else match split_on d s' with
           | w :: ws => String c w :: ws
           | [] => [String c EmptyString]
           end
  end.

(** [str.indexOf(a)] for a character, and for two characters. *)
Fixpoint index_char (a : ascii) (s : string) : option nat :=
  match s with
  | EmptyString => None
  | String c s' => if (c =? a)%char then Some O else S <$> index_char a s'
  end.

Fixpoint index_pair (a b : ascii) (s : string) : option nat :=
  match s with
  | EmptyString => None
  | String c s' =>
      if (c =? a)%char && match s' with String c' _ => (c' =? b)%char | EmptyString => false end
      then Some O else S <$> index_pair a b s'
  end.

(** The outcome of [decodeURIComponent]: a string, a [URIError], or a
    code point above U+00FF. *)
Inductive decoded : Type := Decoded (s : string) | Malformed | Wide.

Definition dcons (c : ascii) (d : decoded) : decoded :=
  match d with Decoded s => Decoded (String c s) | e => e end.

Fixpoint decode_uri (s : string) : decoded :=
  match s with
  | EmptyString => Decoded EmptyString
  | String "%" (String h1 (String h2 s2)) =>
      match hex_value h1, hex_value h2 with
      | Some x1, Some x2 =>
          let b := x1 * 16 + x2 in
          if b <? 128 then dcons (char_of b) (decode_uri s2)
          else if (194 <=? b) && (b <=? 195) then
            match s2 with
            | String "%" (String h3 (String h4 s4)) =>
                match hex_value h3, hex_value h4 with
                | Some y1, Some y2 =>
                    let b2 := y1 * 16 + y2 in
                    if (128 <=? b2) && (b2 <=? 191)
                    then dcons (char_of (Z.lor (Z.shiftl (Z.land b 31) 6) (Z.land b2 63))) (decode_uri s4)
                    else Malformed
                | _, _ => Malformed
                end
            | _ => Malformed
            end
          else if (196 <=? b) && (b <=? 244) then Wide
          else Malformed
      | _, _ => Malformed
      end
  | String "%" _ => Malformed
  | String c s' => dcons c (decode_uri s')
  end.

Fixpoint plus_to_space (s : string) : string :=
  match s with
  | EmptyString => EmptyString
  | String c s' => String (if (c =? "+")%char then " "%char else c) (plus_to_space s')
  end.

(** qs's [utils.decode]: [+] as a space, then [decodeURIComponent], or
    the text itself when it throws. *)
Definition qs_decode (s : string) : option string :=
  let s1 := plus_to_space s in
  match decode_uri s1 with
  | Decoded d => Some d
  | Malformed => Some s1
  | Wide => None
  end.

(** [str.slice(i)] *)
Definition slice_from (i : nat) (s : string) : string := String.substring i (String.length s - i) s.

(** One part of the query string: the key up to the first [=], or up to
    the first [\]=] and its bracket; a part without [=] has the value
    [''] . *)
Definition parse_part (part : string) : option (string * string) :=
  let pos := match index_pair "]" "=" part with
             | Some i => Some (S i)
             | None => index_char "=" part
             end in
  match pos with
  | None => k ← qs_decode part; Some (k, EmptyString)
  | Some i =>
      k ← qs_decode (String.substring 0 i part);
      v ← qs_decode (slice_from (S i) part);
      Some (k, v)
  end.

(** [qs.parse] with Express's options: [%5B] and [%5D] read as brackets,
    at most 1000 parts, the pairs in order, a part with an empty key
    dropped.  Repeated and bracketed keys stay in the list, where
    [Server.query_param] leaves them open. *)
Definition parse_query (q : string) : option (list (string * string)) :=
  let clean := replace_pct (hex_is "5" "D" true) "]" (replace_pct (hex_is "5" "B" true) "[" q) in
  kvs ← mapM parse_part (firstn 1000 (split_on "&" clean));
  Some (List.filter (fun kv => negb (String.eqb kv.1 EmptyString)) kvs).

(** [req.path] and [req.query] of a request target. *)
Definition express_request (m : method) (target : string) : option http_request :=
  match index_char "?" target with
  | None => Some (mkReq m target [])
  | Some i => q ← parse_query (slice_from (S i) target); Some (mkReq m (String.substring 0 i target) q)
  end.

(** The request target axios sends for a fetch of the dashboard: its
    path and its params. *)
Definition request_target (r : Frontend.request) : string :=
  build_url (req_path (http_of r)) (req_query (http_of r)).

(** ** The encoding, one character at a time *)

(** What axios's [encode] writes for one character. *)
Definition axios_char (c : ascii) : string :=
  if uri_unreserved c || existsb (fun d => (c =? d)%char) [":"; "$"; ","; "["; "]"]%char then String c EmptyString
  else if (c =? " ")%char then "+"
  else foldr String.append EmptyString (map percent (utf8_bytes (code c))).

Fixpoint axios_encode_spec (s : string) : string :=
  match s with
  | EmptyString => EmptyString
  | String c s' => (axios_char c ++ axios_encode_spec s')%string
  end.

(** ** Lemmas *)

(** A string as a sequence of tokens: a character other than [%], or an
    escape [%XY] whose digits are not [%]. *)
Inductive tok : Type := TRaw (c : ascii) | TPct (x y : ascii).

Fixpoint toks_string (ts : list tok) : string :=
  match ts with
  | [] => EmptyString
  | TRaw c :: ts' => String c (toks_string ts')
  | TPct x y :: ts' => String "%" (String x (String y (toks_string ts')))
  end.

Definition tok_ok (t : tok) : bool :=
  match t with
  | TRaw c => negb (c =? "%")%char
  | TPct x y => negb (x =? "%")%char && negb (y =? "%")%char
  end.

Definition replace_tok (m : ascii -> ascii -> bool) (r : ascii) (t : tok) : tok :=
  match t with
  | TPct x y => if m x y then TRaw r else t
  | TRaw _ => t
  end.

Lemma toks_string_app ts us : toks_string (ts ++ us) = (toks_string ts ++ toks_string us)%string.
Proof. induction ts as [|[c|x y] ts IH]; simpl; rewrite ?IH; done. Qed.

Lemma replace_pct_raw m r c s : (c =? "%")%char = false -> replace_pct m r (String c s) = String c (replace_pct m r s).
Proof. intros Hc. destruct s as [|y [|z s']]; simpl; rewrite ?Hc; done. Qed.

Lemma replace_pct_pct m r x y s :
  replace_pct m r (String "%" (String x (String y s))) =
  if m x y then String r (replace_pct m r s) else String "%" (replace_pct m r (String x (String y s))).
Proof. reflexivity. Qed.

Lemma replace_pct_toks m r ts :
  forallb tok_ok ts = true -> replace_pct m r (toks_string ts) = toks_string (map (replace_tok m r) ts).
Proof.
  induction ts as [|[c|x y] ts IH]; [done|..]; cbn [forallb map tok_ok]; intros [Ht Hts]%andb_prop.
  - apply negb_true_iff in Ht. cbn [toks_string replace_tok]. by rewrite replace_pct_raw, IH.
  - apply andb_prop in Ht as [Hx%negb_true_iff Hy%negb_true_iff].
    cbn [toks_string replace_tok]. rewrite replace_pct_pct.
    destruct (m x y); cbn [toks_string]; [by rewrite IH|].
    by rewrite !replace_pct_raw, IH.
Qed.

Lemma replace_tok_ok m r ts :
  (r =? "%")%char = false -> forallb tok_ok ts = true -> forallb tok_ok (map (replace_tok m r) ts) = true.
Proof.
  intros Hr. induction ts as [|[c|x y] ts IH]; simpl; [done|..]; intros [Ht Hts]%andb_prop;
    rewrite ?IH, ?Ht by done; [done|]. destruct (m x y); simpl; by rewrite ?Hr, ?Ht, ?IH.
Qed.

(** The tokens [encodeURIComponent] writes for a character, and what
    axios's six replacements make of a token. *)
Definition byte_tok (b : Z) : tok := TPct (hex_digit (Z.shiftr b 4)) (hex_digit (Z.land b 15)).

Definition char_toks (c : ascii) : list tok :=
  if uri_unreserved c then [TRaw c] else map byte_tok (utf8_bytes (code c)).

Fixpoint enc_toks (s : string) : list tok :=
  match s with
  | EmptyString => []
  | String c s' => char_toks c ++ enc_toks s'
  end.

Definition axios_tok (t : tok) : tok :=
  replace_tok (hex_is "5" "D" true) "]" (replace_tok (hex_is "5" "B" true) "["
    (replace_tok (hex_is "2" "0" false) "+" (replace_tok (hex_is "2" "C" true) ","
      (replace_tok (hex_is "2" "4" false) "$" (replace_tok (hex_is "3" "A" true) ":" t))))).

Lemma percent_bytes bs : foldr String.append EmptyString (map percent bs) = toks_string (map byte_tok bs).
Proof. induction bs as [|b bs IH]; [done|]. cbn [map foldr]. by rewrite IH. Qed.

Lemma encode_toks s : encodeURIComponent s = toks_string (enc_toks s).
Proof.
  induction s as [|c s IH]; [done|]. cbn [encodeURIComponent enc_toks].
  rewrite toks_string_app, IH. f_equal. unfold char_toks.
  destruct (uri_unreserved c); [done|]. apply percent_bytes.
Qed.

Lemma char_toks_ok c : forallb tok_ok (char_toks c) = true.
Proof. destruct c as [[] [] [] [] [] [] [] []]; reflexivity. Qed.

Lemma enc_toks_ok s : forallb tok_ok (enc_toks s) = true.
Proof. induction s as [|c s IH]; [done|]. simpl. by rewrite forallb_app, char_toks_ok, IH. Qed.

Lemma axios_encode_toks s : axios_encode s = toks_string (map axios_tok (enc_toks s)).
Proof.
  unfold axios_encode. rewrite encode_toks. pose proof (enc_toks_ok s) as Hs.
  rewrite !replace_pct_toks by (by repeat (apply replace_tok_ok; [done|])).
  by rewrite !map_map.
Qed.

Lemma axios_char_toks c : toks_string (map axios_tok (char_toks c)) = axios_char c.
Proof. destruct c as [[] [] [] [] [] [] [] []]; reflexivity. Qed.

Lemma axios_toks_spec s : toks_string (map axios_tok (enc_toks s)) = axios_encode_spec s.
Proof.
  induction s as [|c s IH]; [done|]. cbn [enc_toks axios_encode_spec].
  by rewrite map_app, toks_string_app, axios_char_toks, IH.
Qed.

(** axios's six passes over the whole string are the encoding of each
    character on its own. *)
Lemma axios_encode_chars s : axios_encode s = axios_encode_spec s.
Proof. by rewrite axios_encode_toks, axios_toks_spec. Qed.

Lemma plus_to_space_app a b : plus_to_space (a ++ b) = (plus_to_space a ++ plus_to_space b)%string.
Proof. induction a as [|c a IH]; [done|]. simpl. by rewrite IH. Qed.

Lemma decode_axios_char c rest :
  decode_uri (plus_to_space (axios_char c) ++ rest) = dcons c (decode_uri rest).
Proof. destruct c as [[] [] [] [] [] [] [] []]; reflexivity. Qed.

Lemma decode_axios s : decode_uri (plus_to_space (axios_encode_spec s)) = Decoded s.
Proof.
  induction s as [|c s IH]; [done|]. cbn [axios_encode_spec].
  by rewrite plus_to_space_app, decode_axios_char, IH.
Qed.

Lemma qs_decode_axios s : qs_decode (axios_encode s) = Some s.
Proof. unfold qs_decode. by rewrite axios_encode_chars, decode_axios. Qed.

(** ** Cutting the query string *)

Lemma index_char_app a x y :
  index_char a x = None -> index_char a (x ++ y) = Nat.add (String.length x) <$> index_char a y.
Proof.
  induction x as [|c x IH]; [intros _; rewrite string_app_nil_l; by destruct (index_char a y)|].
  rewrite string_app_cons. simpl.
  destruct (c =? a)%char; [done|]. destruct (index_char a x); [done|]. intros _.
  rewrite IH by done. by destruct (index_char a y).
Qed.

Lemma index_char_app_None a x y :
  index_char a x = None -> index_char a y = None -> index_char a (x ++ y) = None.
Proof. intros Hx Hy. by rewrite index_char_app, Hy. Qed.

Lemma index_pair_app a b x y :
  index_char a x = None -> index_pair a b (x ++ y) = Nat.add (String.length x) <$> index_pair a b y.
Proof.
  induction x as [|c x IH]; [intros _; rewrite string_app_nil_l; by destruct (index_pair a b y)|].
  rewrite string_app_cons. simpl.
  destruct (c =? a)%char; [done|]. simpl. destruct (index_char a x); [done|]. intros _.
  rewrite IH by done. by destruct (index_pair a b y).
Qed.

Lemma index_pair_no_second a b s : index_char b s = None -> index_pair a b s = None.
Proof.
  induction s as [|c s IH]; simpl; [done|].
  destruct (c =? b)%char eqn:Eb; [done|]. intros Hs.
  destruct (index_char b s) eqn:E; [done|]. rewrite IH by done.
  destruct s as [|c' s']; simpl in *; [by rewrite andb_false_r|].
  destruct (c' =? b)%char; [done|]. by rewrite andb_false_r.
Qed.

Lemma substring_app_l x y : String.substring 0 (String.length x) (x ++ y) = x.
Proof. induction x as [|c x IH]; [by destruct y|]. rewrite string_app_cons. simpl. by rewrite IH. Qed.

Lemma substring_all s : String.substring 0 (String.length s) s = s.
Proof. induction s as [|c s IH]; simpl; [done|]. by rewrite IH. Qed.

Lemma slice_after x c y : slice_from (S (String.length x)) (x ++ String c y) = y.
Proof.
  unfold slice_from. rewrite string_length_app. simpl.
  replace (String.length x + S (String.length y) - S (String.length x))%nat with (String.length y) by lia.
  induction x as [|c' x IH]; [apply substring_all|]. rewrite string_app_cons. apply IH.
Qed.

Lemma split_on_none d e : index_char d e = None -> split_on d e = [e].
Proof.
  induction e as [|c e IH]; simpl; [done|].
  destruct (c =? d)%char; [done|]. destruct (index_char d e); [done|]. intros _. by rewrite IH.
Qed.

Lemma split_on_app d e rest : index_char d e = None -> split_on d (e ++ String d rest) = e :: split_on d rest.
Proof.
  induction e as [|c e IH]; [intros _; simpl; by rewrite Ascii.eqb_refl|].
  rewrite string_app_cons. simpl.
  destruct (c =? d)%char; [done|]. destruct (index_char d e); [done|]. intros _. by rewrite IH.
Qed.

Lemma split_concat d ws :
  ws <> [] -> Forall (fun w => index_char d w = None) ws -> split_on d (String.concat (String d EmptyString) ws) = ws.
Proof.
  induction ws as [|w [|w' ws] IH]; intros Hne Hws; [done|..]; inversion Hws as [|? ? Hw Hrest]; subst.
  - by apply split_on_none.
  - change (String.concat (String d EmptyString) (w :: w' :: ws))
      with (w ++ String d (String.concat (String d EmptyString) (w' :: ws)))%string.
    rewrite split_on_app by done. by rewrite IH.
Qed.

(** ** Reading back what axios writes *)

(** What axios writes for a character holds no [&], [=] or [?], and a
    [\]] only for [\]] itself. *)
Lemma axios_char_delims c :
  index_char "&" (axios_char c) = None /\ index_char "=" (axios_char c) = None /\
  index_char "?" (axios_char c) = None /\ ((c =? "]")%char = false -> index_char "]" (axios_char c) = None).
Proof. destruct c as [[] [] [] [] [] [] [] []]; split_and!; done. Qed.

Lemma axios_encode_no a s :
  (forall c, index_char a (axios_char c) = None) -> index_char a (axios_encode s) = None.
Proof.
  intros Hc. rewrite axios_encode_chars.
  induction s as [|c s IH]; [done|]. by apply index_char_app_None.
Qed.

Lemma axios_encode_no_bracket s : index_char "]" s = None -> index_char "]" (axios_encode s) = None.
Proof.
  rewrite axios_encode_chars. induction s as [|c s IH]; [done|]. simpl.
  destruct (c =? "]")%char eqn:Ec; [done|]. destruct (index_char "]" s); [done|]. intros _.
  apply index_char_app_None; [by apply axios_char_delims | by apply IH].
Qed.

(** One [key=value] part axios writes is read back as the pair, when
    the key has no [\]]. *)
Lemma parse_pair k v :
  index_char "]" k = None -> parse_part (axios_encode k ++ String "=" (axios_encode v)) = Some (k, v).
Proof.
  intros Hk. unfold parse_part.
  assert (Heq : forall s, index_char "=" (axios_encode s) = None)
    by (intros s; apply axios_encode_no; intros c; apply axios_char_delims).
  rewrite index_pair_app by (by apply axios_encode_no_bracket). simpl.
  rewrite index_pair_no_second by apply Heq. simpl.
  rewrite index_char_app by apply Heq. simpl. rewrite Nat.add_0_r.
  rewrite substring_app_l, slice_after, !qs_decode_axios. done.
Qed.

Definition pair_toks (kv : string * string) : list tok :=
  map axios_tok (enc_toks kv.1) ++ TRaw "=" :: map axios_tok (enc_toks kv.2).

Fixpoint ser_toks (ps : list (string * string)) : list tok :=
  match ps with
  | [] => []
  | [kv] => pair_toks kv
  | kv :: ps' => pair_toks kv ++ TRaw "&" :: ser_toks ps'
  end.

Lemma pair_toks_string kv : toks_string (pair_toks kv) = (axios_encode kv.1 ++ String "=" (axios_encode kv.2))%string.
Proof. unfold pair_toks. rewrite toks_string_app, !axios_encode_toks. done. Qed.

Lemma serialize_toks ps : serialize ps = toks_string (ser_toks ps).
Proof.
  unfold serialize. induction ps as [|kv [|kv' ps] IH]; [done| change (ser_toks [kv]) with (pair_toks kv); by rewrite pair_toks_string |].
  change (ser_toks (kv :: kv' :: ps)) with (pair_toks kv ++ TRaw "&" :: ser_toks (kv' :: ps)).
  rewrite toks_string_app, pair_toks_string. cbn [toks_string]. rewrite <- IH. reflexivity.
Qed.

(** An escape axios leaves is no bracket escape: [qs]'s first step
    changes nothing. *)
Definition bracket_free (t : tok) : bool :=
  match t with
  | TPct x y => negb (hex_is "5" "B" true x y || hex_is "5" "D" true x y)
  | TRaw _ => true
  end.

Lemma axios_char_toks_ok c : forallb (fun t => tok_ok t && bracket_free t) (map axios_tok (char_toks c)) = true.
Proof. destruct c as [[] [] [] [] [] [] [] []]; reflexivity. Qed.

Lemma axios_toks_ok s : forallb (fun t => tok_ok t && bracket_free t) (map axios_tok (enc_toks s)) = true.
Proof.
  induction s as [|c s IH]; [done|]. cbn [enc_toks].
  by rewrite map_app, forallb_app, axios_char_toks_ok, IH.
Qed.

Lemma ser_toks_ok ps : forallb (fun t => tok_ok t && bracket_free t) (ser_toks ps) = true.
Proof.
  induction ps as [|kv ps IH]; [done|].
  assert (Hp : forallb (fun t => tok_ok t && bracket_free t) (pair_toks kv) = true).
  { unfold pair_toks. rewrite forallb_app. cbn [forallb]. by rewrite !axios_toks_ok. }
  destruct ps as [|kv' ps]; [done|].
  change (ser_toks (kv :: kv' :: ps)) with (pair_toks kv ++ TRaw "&" :: ser_toks (kv' :: ps)).
  rewrite forallb_app, Hp. cbn [forallb]. by rewrite IH.
Qed.

Lemma replace_tok_free m r ts :
  (forall x y, m x y = true -> (hex_is "5" "B" true x y || hex_is "5" "D" true x y) = true) ->
  forallb (fun t => tok_ok t && bracket_free t) ts = true -> map (replace_tok m r) ts = ts.
Proof.
  intros Hm. induction ts as [|[c|x y] ts IH]; simpl; [done|..]; intros [Ht Hts]%andb_prop.
  - by rewrite IH.
  - destruct (m x y) eqn:E; [|by rewrite IH].
    apply Hm in E. rewrite E in Ht. by rewrite andb_false_r in Ht.
Qed.

Lemma forallb_ok_split ts : forallb (fun t => tok_ok t && bracket_free t) ts = true -> forallb tok_ok ts = true.
Proof. induction ts as [|t ts IH]; simpl; [done|]. intros [[-> _]%andb_prop ?]%andb_prop. by apply IH. Qed.

(** [qs] turning [%5B] and [%5D] into brackets leaves the string axios
    writes as it is. *)
Lemma clean_serialize ps :
  replace_pct (hex_is "5" "D" true) "]" (replace_pct (hex_is "5" "B" true) "[" (serialize ps)) = serialize ps.
Proof.
  pose proof (ser_toks_ok ps) as Hok. rewrite serialize_toks.
  rewrite (replace_pct_toks _ _ (ser_toks ps)) by (by apply forallb_ok_split).
  rewrite (replace_tok_free _ _ (ser_toks ps)) by (done || (intros x y ->; done)).
  rewrite replace_pct_toks by (by apply forallb_ok_split).
  rewrite replace_tok_free by (done || (intros x y ->; by rewrite orb_true_r)). done.
Qed.

Lemma pair_no_amp kv : index_char "&" (axios_encode kv.1 ++ "=" ++ axios_encode kv.2)%string = None.
Proof.
  apply index_char_app_None; [apply axios_encode_no; intros c; apply axios_char_delims|].
  simpl. rewrite string_app_nil_l, axios_encode_no; [done|]. intros c. apply axios_char_delims.
Qed.

Lemma filter_keys_id (ps : list (string * string)) :
  Forall (fun kv => kv.1 <> EmptyString) ps -> List.filter (fun kv => negb (String.eqb kv.1 EmptyString)) ps = ps.
Proof.
  induction 1 as [|kv ps Hk _ IH]; [done|]. simpl.
  destruct (String.eqb_spec kv.1 EmptyString); [done|]. simpl. by rewrite IH.
Qed.

(** [qs.parse] reads back the pairs axios writes, when there are at most
    1000, no key is empty and no key has a [\]]. *)
Lemma parse_serialize ps :
  ps <> [] -> (length ps <= 1000)%nat ->
  Forall (fun kv => kv.1 <> EmptyString /\ index_char "]" kv.1 = None) ps ->
  parse_query (serialize ps) = Some ps.
Proof.
  intros Hne Hlen Hps. unfold parse_query. rewrite clean_serialize.
  unfold serialize at 1. rewrite split_concat.
  - rewrite firstn_all2 by (rewrite length_map; lia).
    rewrite (mapM_Some_2 _ _ ps); [simpl; f_equal; apply filter_keys_id; eapply Forall_impl; [|exact Hps]; naive_solver|].
    apply Forall2_fmap_l, Forall_Forall2_diag. eapply Forall_impl; [|exact Hps].
    intros [k v] [_ Hk]. by apply parse_pair.
  - by destruct ps.
  - apply Forall_forall. intros w (kv & <- & _)%in_map_iff. apply pair_no_amp.
Qed.

Lemma serialize_nonempty kv ps : serialize (kv :: ps) <> EmptyString.
Proof.
  unfold serialize. destruct ps; cbn [map String.concat];
    destruct (axios_encode kv.1); done.
Qed.

(** ** Theorems *)

Lemma request_target_read r : express_request GET (request_target r) = Some (http_of r).
Proof.
  assert (Hq : req_query (http_of r) <> [] /\ (length (req_query (http_of r)) <= 1000)%nat /\
               Forall (fun kv => kv.1 <> EmptyString /\ index_char "]" kv.1 = None) (req_query (http_of r)))
    by (destruct r; split_and!; repeat constructor; done).
  destruct Hq as (Hne & Hlen & Hkeys).
  unfold request_target, build_url.
  destruct (req_query (http_of r)) as [|kv ps] eqn:Eq; [done|].
  destruct (serialize (kv :: ps)) as [|c q] eqn:Es; [by apply serialize_nonempty in Es|].
  rewrite <- Es, <- Eq, (string_app_cons "?" "" _), string_app_nil_l. unfold express_request.
  rewrite index_char_app by (by destruct r). simpl. rewrite Nat.add_0_r.
  rewrite substring_app_l, slice_after, Eq, parse_serialize by done.
  simpl. rewrite <- Eq. by destruct r.
Qed.

(** The request target axios builds for each
    fetch of the dashboard gives Express, through [qs.parse], exactly the
    path and the query pairs of [Server.http_of], whatever the month
    string: every character, [&], [=], [+], [%], a space and the
    characters above U+007F included, survives [encodeURIComponent],
    axios's replacements and [qs]'s decoding. *)
Theorem dashboard_url_roundtrip r : express_request GET (request_target r) = Some (http_of r).
Proof. apply request_target_read. Qed.

(** ** Examples *)

(** A month with a space and an ampersand, as axios writes it and Express
    reads it; [qs] keeps a malformed escape as text. *)
Example url_examples :
  request_target (Frontend.FetchTransactions "Mar ch&x" 2) = "/transactions?month=Mar+ch%26x&page=2" /\
  express_request GET "/transactions?month=Mar+ch%26x&page=2" =
    Some (mkReq GET "/transactions" [("month", "Mar ch&x"); ("page", "2")]) /\
  parse_query "month=%zz&&=1&page" = Some [("month", "%zz"); ("page", "")].
Proof. split_and!; vm_compute; reflexivity. Qed.

End Url.
