(* ===== verification/View.v ===== *)
(** * View: what the dashboard renders

    The JSX that [App] returns (src/Frontend/src/App.jsx 146-248), read
    off a state of [Frontend.AppState]: the rows of the table
    (lines 184-216), with the enlarged image drawn over the rows whose
    image is the hovered one while [showEnlargedImage] holds
    (lines 201-209); the disabled flags of the pagination buttons
    (lines 222-223); the three statistics lines (lines 230-232); and the
    options of the month select (lines 161-163); the two charts and the
    data they draw (lines 235-246).

    A row keeps its date as the instant: [toLocaleDateString] depends on
    the browser's locale and time zone.  React renders [undefined], a
    field of the empty [statistics] object, as nothing.

    [render] composes them into the page the [return] of [App] builds
    (lines 146-249), with the headings of the table.

    The theorems: hovering an image draws the overlay over exactly the
    rows that show that image URL, so over every row sharing it, and
    clicking the overlay removes every overlay, the rows staying those
    of the table; the page of a reachable state is consistent (the
    select shows one of its options, Previous is disabled on page 1
    only, each chart has one value per label). *)

From S2P Require Import Prelude Transaction JsRuntime Query Aggregation Frontend.

Module View.

Import Query Frontend.

(** ** Rows of the table *)

(** The cells of a row (lines 185-215). *)
Record Row : Type := mkRow {
  row_id : string;
  row_title : string;
  row_price : string;
  row_description : string;
  row_image : string;
  row_overlay : bool;        (** the [image-overlay] div is rendered *)
  row_category : string;
  row_sold : string;
  row_dateOfSale : Z
}.

(** [showEnlargedImage && hoveredImage === transaction.image]: [null]
    equals no URL. *)
Definition overlay_shown (st : AppState) (transaction : Data) : bool :=
  showEnlargedImage st &&
  match hoveredImage st with
  | Some h => String.eqb h (image transaction)
  | None => false
  end.

Definition render_row (st : AppState) (transaction : Data) : Row :=
  mkRow (int_to_string (id transaction)) (title transaction)
        (JsString.number_to_string (price transaction)) (description transaction)
        (image transaction) (overlay_shown st transaction) (category transaction)
        (if sold transaction then "Yes" else "No") (dateOfSale transaction).

(** [filteredTransactions.map(transaction => <tr ...>)] *)
Definition table_rows (st : AppState) : list Row := map (render_row st) (filteredTransactions st).

(** ** Pagination, statistics and the month select *)

(** [disabled={page <= 1}] and [disabled={page >= totalPages}] *)
Definition pagination (st : AppState) : bool * bool :=
  ((page st <=? 1)%Z, next_disabled (page st) (totalPages st)).

(** [<p>Total Sale Amount: ${statistics.totalSaleAmount}</p>] and the two
    counts; before the first answer the fields are [undefined]. *)
Definition statistics_lines (st : AppState) : list string :=
  match statistics st with
  | Some s =>
      ["Total Sale Amount: $" ++ JsString.number_to_string (Aggregation.totalSaleAmount s);
       "Total Sold Items: " ++ int_to_string (Z.of_nat (Aggregation.totalSoldItems s));
       "Total Not Sold Items: " ++ int_to_string (Z.of_nat (Aggregation.totalNotSoldItems s))]%string
  | None => ["Total Sale Amount: $"; "Total Sold Items: "; "Total Not Sold Items: "]%string
  end.

(** The two charts (lines 235-246): the heading and the state each draws;
    [options={{ responsive: true }}] and the dataset's label and colours
    are constants of the source. *)
Definition charts (st : AppState) : list (string * ChartData) :=
  [("Bar Chart", barChartData st); ("Pie Chart", pieChartData st)].

(** [months.map((m, index) => <option key={index} value={m}>{m}</option>)]:
    the value and the text of each option. *)
Definition month_options : list (string * string) := map (fun m => (m, m)) months.

(** ** The page *)

(** The headings of the table (lines 172-179). *)
Definition table_header : list string :=
  ["ID"; "Title"; "Price"; "Description"; "Image"; "Category"; "Sold"; "Date of Sale"].

(** The page [App] returns (lines 146-249): the search box's value, the
    month select's value and options, the table, the disabled flags of
    Previous and Next, the statistics lines and the two charts. *)
Record Page : Type := mkPage {
  search_value : string;
  month_value : string;
  options : list (string * string);
  header : list string;
  rows : list Row;
  buttons : bool * bool;
  stats : list string;
  chart_list : list (string * ChartData)
}.

Definition render (st : AppState) : Page :=
  mkPage (search st) (month st) month_options table_header (table_rows st) (pagination st)
         (statistics_lines st) (charts st).

(** ** Lemmas *)

(** The select's [onChange] passes the value of one of its options. *)
Lemma month_options_valid v t : (v, t) ∈ month_options -> valid_event (SelectMonth v) = true.
Proof.
  unfold month_options. rewrite list_elem_of_fmap. intros (m & [= -> _] & Hm).
  by apply bool_decide_eq_true.
Qed.

(** The effects change neither the hovered image nor the overlay flag. *)
Lemma commit_image old new :
  hoveredImage (commit old new) = hoveredImage new /\
  showEnlargedImage (commit old new) = showEnlargedImage new.
Proof. unfold commit. by destruct (_ && _); destruct (_ && _). Qed.

Section Images.

Context {St : Type} `{MongoStoreSpec St}.
Context {LD : MonthParse.LegacyDateParse}.
Variable server : St.

(** An image event keeps the table: neither the search text nor the
    transactions array changes. *)
Lemma image_step_rows ev st :
  (exists url, ev = MouseEnterImage url) \/ ev = ClickImage ->
  filteredTransactions (step server ev st) = filteredTransactions st /\
  hoveredImage (step server ev st) = hoveredImage (handle server ev st) /\
  showEnlargedImage (step server ev st) = showEnlargedImage (handle server ev st).
Proof.
  intros Hev. unfold step. rewrite !(proj1 (commit_image _ _)), !(proj2 (commit_image _ _)).
  split; [|done].
  destruct Hev as [[url ->]| ->]; by rewrite commit_filtered.
Qed.

Lemma table_rows_images st :
  map row_image (table_rows st) = map image (filteredTransactions st) /\
  map row_overlay (table_rows st) = map (overlay_shown st) (filteredTransactions st).
Proof. unfold table_rows. by rewrite !map_map. Qed.

(** [C33] Moving the mouse onto an image keeps the rows of
    the table and draws the enlarged image over exactly the rows whose
    image is that URL: every row that shares the URL shows an overlay. *)
Theorem hover_overlay st url :
  map row_image (table_rows (step server (MouseEnterImage url) st)) = map image (filteredTransactions st) /\
  map row_overlay (table_rows (step server (MouseEnterImage url) st)) =
  map (fun t => String.eqb url (image t)) (filteredTransactions st).
Proof.
  destruct (image_step_rows (MouseEnterImage url) st) as (Hf & Hh & Hs); [by left; exists url|].
  destruct (table_rows_images (step server (MouseEnterImage url) st)) as [-> ->].
  rewrite Hf. split; [done|]. apply map_ext. intros t. unfold overlay_shown. by rewrite Hh, Hs.
Qed.

(** Clicking the enlarged image keeps the rows
    of the table and removes every overlay. *)
Theorem click_hides_overlay st :
  map row_image (table_rows (step server ClickImage st)) = map image (filteredTransactions st) /\
  Forall (fun r => row_overlay r = false) (table_rows (step server ClickImage st)).
Proof.
  destruct (image_step_rows ClickImage st) as (Hf & _ & Hs); [by right|].
  rewrite (proj1 (table_rows_images _)), Hf. split; [done|].
  apply Forall_forall. unfold table_rows. intros r (t & <- & _)%in_map_iff.
  simpl. unfold overlay_shown. by rewrite Hs.
Qed.

(** Every chart the page draws has one value per label. *)
Lemma reachable_charts st :
  reachable server st -> Forall (fun c => chart_ok (snd c)) (charts st).
Proof.
  intros Hr. destruct (reachable_fields server st Hr) as (_ & _ & _ & Hb & Hp).
  repeat constructor; done.
Qed.

(** The page of every state the dashboard reaches is consistent: the
    select's value is one of its options, so the browser shows the
    selected month; Previous is disabled exactly on page 1; the table
    has one row per shown transaction; and each chart has one value per
    label. *)
Lemma reachable_render st :
  reachable server st ->
  (month_value (render st), month_value (render st)) ∈ options (render st) /\
  (buttons (render st)).1 = bool_decide (page st = 1%Z) /\
  length (rows (render st)) = length (filteredTransactions st) /\
  Forall (fun c => chart_ok (snd c)) (chart_list (render st)).
Proof.
  intros Hr. destruct (reachable_fields server st Hr) as (Hm & Hp & _).
  split_and!; simpl.
  - unfold month_options. apply list_elem_of_fmap. by exists (month st).
  - case_bool_decide; apply Z.leb_le || apply Z.leb_gt; lia.
  - apply length_map.
  - by apply reachable_charts.
Qed.

End Images.

#[local] Existing Instance MonthParse.legacy_invalid.

(** ** Examples *)

Definition shared_store : Collection :=
  mkCollection
    [mkData 1 "Shirt" 120 "cotton shirt" "men's clothing" "shirt.jpg" true (Calendar.date_of 2022 3 10 0);
     mkData 2 "Shirt XL" 130 "cotton shirt" "men's clothing" "shirt.jpg" false (Calendar.date_of 2022 3 12 0)]
    true.

(** Two March sales share one image URL: once the table is loaded,
    hovering the image of the first row enlarges the image of both. *)
Example hover_overlay_shared :
  let st := run shared_store [Deliver 0] (init) in
  map row_overlay (table_rows (step shared_store (MouseEnterImage "shirt.jpg") st)) = [true; true].
Proof. vm_compute. reflexivity. Qed.

(** Before the first answer to [/statistics] the lines show no figure. *)
Example statistics_lines_init : statistics_lines init = ["Total Sale Amount: $"; "Total Sold Items: "; "Total Not Sold Items: "]%string.
Proof. reflexivity. Qed.

End View.
