(* ===== verification/Startup.v ===== *)
(** * Startup: the server process, its MongoDB connection and [listen]

    server.js runs its top level once: it builds the application
    (lines 1-6), starts [mongoose.connect(...)] (lines 9-12), defines the
    model and the routes, and starts [app.listen(3000)] (lines 166-168).
    What follows happens in callbacks, in an order the program does not
    control:
    - the [listen] callback logs ["Server running on port 3000"] once the
      port is bound; a port that cannot be bound makes the server emit
      ['error'], which has no listener, and the process ends;
    - [connect] fulfils and its [then] logs ["Connected to MongoDB"]; or
      it rejects, and the promise has no [catch]: the rejection is
      unhandled, which ends a Node.js process (the default since
      Node 15);
    - requests arrive once the port is bound.  The first act of a route
      handler is a query.  While the connection is being made Mongoose
      buffers the query ([bufferCommands]), replays its buffer in order
      when the connection opens, and fails a buffered query after
      [bufferTimeoutMS] (10 s), so that the handler's [catch] answers
      500.  The preflight and the 404 of the final handler query
      nothing and are answered at once.

    [Process] is the state of the process, [step] the effect of one of
    those events (six kinds, [event]), [reachable] the states some order
    of events leads to from [boot].  A request outside the model of the
    handlers ([answerable] false: a non-integer [page], a pattern outside
    the regular-expression model) has no step.  The connection, once
    open, is not lost again in the model.

    The theorems: an invariant of every reachable state (nothing is
    buffered once connected, the buffer holds requests that reach a
    handler, the logs say what has happened, and every response sent is
    the application's answer on the database or the 500 of an
    unreachable store); a connection that opens answers every buffered
    request in arrival order with the database's answer; a connection
    that fails ends the process, and the buffered requests are never
    answered; and, end to end, once the process listens and is
    connected, a fetch of the dashboard sent as the URL axios builds is
    answered at once exactly as the [Frontend] model takes the answer
    from the handlers. *)

From S2P Require Import Prelude Transaction JsRuntime Coercion Query Predicates Listing Aggregation Frontend Request Server Url.

Module Startup.

Import Query Server Url.

(** [mongoose.connection.readyState] while the process runs. *)
Inductive conn_state : Type := Connecting | Connected.

#[export] Instance conn_state_eq_dec : EqDecision conn_state.
Proof. solve_decision. Defined.

Record Process : Type := mkProcess {
  conn : conn_state;
  listening : bool;                           (** the [listen] callback has run *)
  exited : bool;                              (** the process has ended *)
  logs : list string;                         (** the lines of [console.log], in order *)
  buffered : list http_request;               (** requests whose query waits in Mongoose's buffer *)
  sent : list (http_request * http_response)  (** the responses sent, in order *)
}.

Inductive event : Type :=
| Listening               (** port 3000 is bound *)
| ListenFailed            (** port 3000 cannot be bound *)
| ConnectResolved         (** [mongoose.connect] fulfils *)
| ConnectRejected         (** [mongoose.connect] rejects *)
| Arrive (req : http_request)
| BufferTimeout.          (** [bufferTimeoutMS] passes for the oldest buffered query *)

Definition connected_log : string := "Connected to MongoDB".
Definition listening_log : string := "Server running on port 3000".

Section Process.

(** The collection [Data] in the database; the handlers never write it. *)
Variable docs : list Data.
Context {LD : MonthParse.LegacyDateParse}.

(** The store as a handler sees it: the database once connected, a
    store whose every query fails after the buffer's timeout. *)
Definition db (up : bool) : Collection := mkCollection docs up.

(** The top level of server.js has run; no callback has. *)
Definition boot : Process := mkProcess Connecting false false [] [] [].

(** A request the model of the handlers answers, on the database and on
    the unreachable store. *)
Definition answerable (req : http_request) : bool :=
  match app (db true) req, app (db false) req with
  | Some _, Some _ => true
  | _, _ => false
  end.

(** The application's answer to a request. *)
Definition respond (up : bool) (req : http_request) : option (http_request * http_response) :=
  pair req <$> app (db up) req.

(** The process ends: an unhandled rejection or an uncaught ['error']. *)
Definition exit (p : Process) : Process :=
  mkProcess (conn p) (listening p) true (logs p) (buffered p) (sent p).

Definition step (p : Process) (ev : event) : option Process :=
  if exited p then None else
  match ev with
  | Listening =>
      if listening p then None
      else Some (mkProcess (conn p) true false (logs p ++ [listening_log]) (buffered p) (sent p))
  | ListenFailed => if listening p then None else Some (exit p)
  | ConnectResolved =>
      match conn p with
      | Connecting =>
          rs ← mapM (respond true) (buffered p);
          Some (mkProcess Connected (listening p) false (logs p ++ [connected_log]) [] (sent p ++ rs))
      | Connected => None
      end
  | ConnectRejected =>
      match conn p with
      | Connecting => Some (exit p)
      | Connected => None
      end
  | Arrive req =>
      if negb (listening p && answerable req) then None
      else if reaches_handler req && bool_decide (conn p = Connecting) then
        Some (mkProcess (conn p) (listening p) false (logs p) (buffered p ++ [req]) (sent p))
      else
        qr ← respond (bool_decide (conn p = Connected)) req;
        Some (mkProcess (conn p) (listening p) false (logs p) (buffered p) (sent p ++ [qr]))
  | BufferTimeout =>
      match conn p, buffered p with
      | Connecting, req :: rest =>
          qr ← respond false req;
          Some (mkProcess Connecting (listening p) false (logs p) rest (sent p ++ [qr]))
      | _, _ => None
      end
  end.

Fixpoint run (p : Process) (evs : list event) : option Process :=
  match evs with
  | [] => Some p
  | ev :: evs' => p' ← step p ev; run p' evs'
  end.

Inductive reachable : Process -> Prop :=
| reachable_boot : reachable boot
| reachable_step p ev p' : reachable p -> step p ev = Some p' -> reachable p'.

(** ** The invariant *)

(** A response the server may send: the application's answer on the
    database, or the 500 of a handler whose store was unreachable. *)
Definition sound (qr : http_request * http_response) : Prop :=
  app (db true) qr.1 = Some qr.2 \/
  (reaches_handler qr.1 = true /\ app (db false) qr.1 = Some qr.2 /\ status qr.2 = 500).

Record proc_inv (p : Process) : Prop := {
  inv_flushed : conn p = Connected -> buffered p = [];
  inv_buffered : Forall (fun q => reaches_handler q = true /\ answerable q = true) (buffered p);
  inv_connected_log : connected_log ∈ logs p <-> conn p = Connected;
  inv_listening_log : listening_log ∈ logs p <-> listening p = true;
  inv_sent : Forall sound (sent p)
}.

End Process.

(** ** Lemmas *)

Section Lemmas.

Variable docs : list Data.
Context {LD : MonthParse.LegacyDateParse}.

Lemma respond_sound up q qr : respond docs up q = Some qr -> sound docs qr.
Proof.
  unfold respond, sound. destruct (app (db docs up) q) as [r|] eqn:E; [|done]. intros [= <-]. simpl.
  destruct up; [by left|].
  destruct (reaches_handler q) eqn:Eh.
  - right. split; [done|]. split; [done|]. eapply (app_down_500 (db docs false)); [reflexivity | exact Eh | exact E].
  - left. by rewrite (app_no_handler (db docs true) (db docs false) q Eh).
Qed.

Lemma mapM_respond_sound up qs rs : mapM (respond docs up) qs = Some rs -> Forall (sound docs) rs.
Proof. intros Hm%mapM_Some. induction Hm; constructor; eauto using respond_sound. Qed.

(** Each buffered request has its answer on the database. *)
Lemma mapM_respond_answerable qs :
  Forall (fun q => reaches_handler q = true /\ answerable docs q = true) qs ->
  exists rs, mapM (respond docs true) qs = Some rs /\
             Forall2 (fun q qr => qr.1 = q /\ app (db docs true) q = Some qr.2) qs rs.
Proof.
  induction 1 as [|q qs [_ Ha] _ [rs [Hm Hrs]]]; [by exists []|].
  unfold answerable in Ha. destruct (app (db docs true) q) as [r|] eqn:E; [|done].
  exists ((q, r) :: rs). split; [|by repeat constructor].
  apply mapM_Some_2. constructor; [unfold respond; by rewrite E|]. by apply mapM_Some_1.
Qed.

Lemma log_snoc_other (x y : string) l (P : Prop) : x <> y -> (x ∈ l <-> P) -> (x ∈ l ++ [y] <-> P).
Proof. intros Hxy H. rewrite elem_of_app, list_elem_of_singleton. naive_solver. Qed.

Lemma log_snoc_same (x : string) l (P : Prop) : P -> (x ∈ l ++ [x] <-> P).
Proof. intros HP. rewrite elem_of_app, list_elem_of_singleton. naive_solver. Qed.

Lemma logs_differ : connected_log <> listening_log.
Proof. done. Qed.

Lemma boot_inv : proc_inv docs boot.
Proof. split; simpl; rewrite ?elem_of_nil; try done; constructor. Qed.

Lemma exit_inv p : proc_inv docs p -> proc_inv docs (exit p).
Proof. by destruct 1; split. Qed.

Lemma step_inv p ev p' : proc_inv docs p -> step docs p ev = Some p' -> proc_inv docs p'.
Proof.
  intros Hp. pose proof Hp as [Hfl Hbuf Hcl Hll Hsent].
  unfold step. destruct (exited p); [done|]. destruct ev as [| | | |req|].
  - destruct (listening p); [done|]. intros [= <-].
    split; simpl; auto using log_snoc_other, log_snoc_same, logs_differ.
  - destruct (listening p); [done|]. intros [= <-]. by apply exit_inv.
  - destruct (conn p); [|done].
    destruct (mapM (respond docs true) _) as [rs|] eqn:Em; simpl; [|done]. intros [= <-].
    split; simpl; auto using log_snoc_same.
    + apply log_snoc_other; [by apply not_eq_sym, logs_differ | done].
    + apply Forall_app. eauto using mapM_respond_sound.
  - destruct (conn p); [|done]. intros [= <-]. by apply exit_inv.
  - destruct (listening p && answerable docs req) eqn:Ela; simpl; [|done].
    destruct (reaches_handler req && bool_decide (conn p = Connecting)) eqn:Eb.
    + apply andb_prop in Ela as [_ Ha]. apply andb_prop in Eb as [Hr Hc%bool_decide_eq_true].
      intros [= <-]. split; simpl; auto.
      * by rewrite Hc.
      * apply Forall_app. auto.
    + destruct (respond docs _ req) eqn:Er; simpl; [|done]. intros [= <-].
      split; simpl; auto. apply Forall_app. eauto using respond_sound.
  - destruct (conn p), (buffered p) as [|q rest] eqn:Eq; try done.
    destruct (respond docs false q) eqn:Er; simpl; [|done]. intros [= <-].
    split; simpl; auto; [done | by inversion Hbuf | apply Forall_app; eauto using respond_sound].
Qed.

Lemma reachable_inv p : reachable docs p -> proc_inv docs p.
Proof. induction 1; [apply boot_inv | by eapply step_inv]. Qed.

Lemma run_reachable p evs p' : reachable docs p -> run docs p evs = Some p' -> reachable docs p'.
Proof.
  revert p. induction evs as [|ev evs IH]; intros p Hp; simpl; [by intros [= <-]|].
  destruct (step docs p ev) as [p1|] eqn:E; simpl; [|done]. apply IH. by econstructor.
Qed.

Lemma run_exited p evs : exited p = true -> run docs p evs = match evs with [] => Some p | _ => None end.
Proof. intros He. destruct evs; simpl; [done|]. unfold step. by rewrite He. Qed.

End Lemmas.

(** ** Theorems *)

Section Theorems.

Variable docs : list Data.
Context {LD : MonthParse.LegacyDateParse}.

Lemma connect_step p :
  proc_inv docs p -> exited p = false -> conn p = Connecting ->
  exists rs, step docs p ConnectResolved =
      Some (mkProcess Connected (listening p) false (logs p ++ [connected_log]) [] (sent p ++ rs)) /\
    Forall2 (fun q qr => qr.1 = q /\ app (db docs true) q = Some qr.2) (buffered p) rs.
Proof.
  intros Hp He Hc.
  destruct (mapM_respond_answerable docs (buffered p) (inv_buffered _ _ Hp)) as (rs & Hm & Hrs).
  exists rs. split; [|done]. unfold step. by rewrite He, Hc, Hm.
Qed.

Lemma reject_step p :
  exited p = false -> conn p = Connecting -> step docs p ConnectRejected = Some (exit p).
Proof. intros He Hc. unfold step. by rewrite He, Hc. Qed.

Lemma dashboard_answerable r : answerable docs (http_of r) = true.
Proof.
  unfold answerable. rewrite !http_of_answer.
  destruct (model_answer_some (db docs true) r) as [a ->].
  by destruct (model_answer_some (db docs false) r) as [b ->].
Qed.

Lemma dashboard_served_step p r :
  reachable docs p -> exited p = false -> listening p = true -> conn p = Connected ->
  exists a, express_request GET (request_target r) = Some (http_of r) /\
    model_answer (db docs true) r = Some a /\
    step docs p (Arrive (http_of r)) =
      Some (mkProcess Connected true false (logs p) [] (sent p ++ [(http_of r, with_cors a)])).
Proof.
  intros Hr He Hl Hc. destruct (model_answer_some (db docs true) r) as [a Ha].
  exists a. split; [apply request_target_read|]. split; [done|].
  assert (Hreach : reaches_handler (http_of r) = true) by (by destruct r).
  unfold step. rewrite He, Hl, dashboard_answerable, Hreach, Hc. simpl.
  unfold respond. rewrite http_of_answer, Ha. simpl.
  by rewrite (inv_flushed _ _ (reachable_inv _ _ Hr) Hc).
Qed.

(** [C20] In every state the process reaches, whatever
    the order in which the port is bound, the connection settles,
    requests arrive and buffered queries time out: nothing waits in
    Mongoose's buffer once the connection is open; the buffer holds
    only requests that reach a route handler; ["Connected to MongoDB"]
    has been logged exactly when the connection is open and
    ["Server running on port 3000"] exactly when the port is bound; and
    every response sent is the application's answer on the database or,
    for a request that reached a handler, a 500 of the unreachable
    store. *)
Theorem process_invariant p : reachable docs p -> proc_inv docs p.
Proof. apply reachable_inv. Qed.

(** While the process runs and the connection
    is being made, the connection can open, and opening it answers every
    request waiting in Mongoose's buffer, in the order they arrived,
    with the application's answer on the database, logs
    ["Connected to MongoDB"] and leaves the buffer empty. *)
Theorem connect_answers_buffered p :
  reachable docs p -> exited p = false -> conn p = Connecting ->
  exists rs, step docs p ConnectResolved =
      Some (mkProcess Connected (listening p) false (logs p ++ [connected_log]) [] (sent p ++ rs)) /\
    Forall2 (fun q qr => qr.1 = q /\ app (db docs true) q = Some qr.2) (buffered p) rs.
Proof. intros Hr. apply connect_step, reachable_inv, Hr. Qed.

(** [C22] A connection that fails while the process
    runs ends it: the promise of [mongoose.connect] has no [catch], so
    its rejection is unhandled.  No response is sent on the way, the
    requests in Mongoose's buffer stay there, ["Connected to MongoDB"]
    was never logged, and no event has any effect afterwards: the
    buffered requests are never answered. *)
Theorem connect_rejected_exits p :
  reachable docs p -> exited p = false -> conn p = Connecting ->
  exists p', step docs p ConnectRejected = Some p' /\
    buffered p' = buffered p /\ sent p' = sent p /\ connected_log ∉ logs p' /\
    forall ev evs, run docs p' (ev :: evs) = None.
Proof.
  intros Hr He Hc. exists (exit p). split; [by apply reject_step|].
  split; [done|]. split; [done|]. split.
  - simpl. rewrite (inv_connected_log _ _ (reachable_inv _ _ Hr)), Hc. done.
  - intros ev evs. by apply (run_exited docs (exit p) (ev :: evs)).
Qed.

(** End to end: once the process listens and its
    connection is open, a fetch of the dashboard, sent as the URL axios
    builds, is read by Express as the request [http_of r] and answered at
    once, with the CORS header, exactly as the [Frontend] model takes the
    answer from the handlers on the database; nothing is left in
    Mongoose's buffer. *)
Theorem dashboard_served p r :
  reachable docs p -> exited p = false -> listening p = true -> conn p = Connected ->
  exists a, express_request GET (request_target r) = Some (http_of r) /\
    model_answer (db docs true) r = Some a /\
    step docs p (Arrive (http_of r)) =
      Some (mkProcess Connected true false (logs p) [] (sent p ++ [(http_of r, with_cors a)])).
Proof. apply dashboard_served_step. Qed.

End Theorems.

#[local] Existing Instance MonthParse.legacy_invalid.

(** ** Witnesses and examples *)

(** The dashboard asks for March's statistics before the connection is
    open: the query waits in the buffer. *)
Definition march_stats : http_request := http_of (Frontend.FetchStatistics "March").

Definition waiting : Process := mkProcess Connecting true false [listening_log] [march_stats] [].

Lemma waiting_reachable : reachable Request.twelve_sales waiting.
Proof.
  apply (run_reachable _ boot [Listening; Arrive march_stats]); [constructor | vm_compute; reflexivity].
Qed.

Lemma process_invariant_witness : proc_inv Request.twelve_sales waiting.
Proof.
  apply process_invariant, waiting_reachable.
Defined.

Lemma connect_answers_buffered_witness :
  exists rs, step Request.twelve_sales waiting ConnectResolved =
      Some (mkProcess Connected (listening waiting) false (logs waiting ++ [connected_log]) [] (sent waiting ++ rs)) /\
    Forall2 (fun q qr => qr.1 = q /\ app (db Request.twelve_sales true) q = Some qr.2) (buffered waiting) rs.
Proof.
  apply connect_answers_buffered; [|reflexivity..].
  apply waiting_reachable.
Defined.

Lemma connect_rejected_exits_witness :
  exists p', step Request.twelve_sales waiting ConnectRejected = Some p' /\
    buffered p' = buffered waiting /\ sent p' = sent waiting /\ connected_log ∉ logs p' /\
    forall ev evs, run Request.twelve_sales p' (ev :: evs) = None.
Proof.
  apply connect_rejected_exits; [|reflexivity..].
  apply waiting_reachable.
Defined.

Definition serving : Process := mkProcess Connected true false [listening_log; connected_log] [] [].

Lemma dashboard_served_witness :
  exists a, express_request GET (request_target (Frontend.FetchStatistics "March")) =
      Some (http_of (Frontend.FetchStatistics "March")) /\
    model_answer (db Request.twelve_sales true) (Frontend.FetchStatistics "March") = Some a /\
    step Request.twelve_sales serving (Arrive (http_of (Frontend.FetchStatistics "March"))) =
      Some (mkProcess Connected true false (logs serving) []
              (sent serving ++ [(http_of (Frontend.FetchStatistics "March"), with_cors a)])).
Proof.
  apply dashboard_served; [|reflexivity..].
  apply (run_reachable _ boot [Listening; ConnectResolved]); [constructor | vm_compute; reflexivity].
Defined.

(** The port and the connection settle in either order, and the logs
    show it. *)
Example startup_orders :
  option_map logs (run Request.twelve_sales boot [Listening; ConnectResolved]) = Some [listening_log; connected_log] /\
  option_map logs (run Request.twelve_sales boot [ConnectResolved; Listening]) = Some [connected_log; listening_log].
Proof. split; vm_compute; reflexivity. Qed.

(** March's statistics, asked for before the connection opens, are
    answered from the database once it opens, or with the 500 of
    [/statistics] when the buffer times out first. *)
Example buffered_answers :
  option_map sent (run Request.twelve_sales waiting [ConnectResolved]) =
    Some [(march_stats, mkResp 200 (Some "*") (BStatistics (Aggregation.mkStats 120%Q 12 0)))] /\
  option_map sent (run Request.twelve_sales waiting [BufferTimeout]) =
    Some [(march_stats, mkResp 500 (Some "*") (BMessage "Error retrieving statistics"))].
Proof. split; vm_compute; reflexivity. Qed.

End Startup.
